(** * adabot: the rate-limited GitHub client and the circuitpython.org
      libraries updater

    A shallow embedding of [adabot/github_requests.py] and
    [adabot/update_cp_org_libraries.py], and the properties of the report
    pipeline proved over it.

    Conventions of the embedding.
    - A Python [str] is a [string]; each character is a code point below 256.
    - A Python [dict] is an association list in insertion order with unique
      keys ([dict_set] keeps both).
    - Values decoded from JSON are terms of [json].
    - Effects (the clock, [os.environ], the network, the validator's buffer)
      live in a [World]; a computation is a function from a world to an
      outcome and a world.  Writes to standard output are not modelled. *)

From Stdlib Require Import ZArith Ascii String List Bool Lia Sorted Permutation.
From Stdlib Require Import DecimalString DecimalPos.
From stdpp Require Import base list strings gmap.

Import ListNotations.
Set Warnings "-register-all".
Local Open Scope string_scope.
Local Open Scope Z_scope.

(** ** Python values *)

Module Py.

(** [str.lower] on code points below 256: A-Z, and the Latin-1 capitals
    U+00C0-U+00D6 and U+00D8-U+00DE, move up by 32. *)
Definition lower_char (c : ascii) : ascii :=
  let n := N_of_ascii c in
  if ((65 <=? n) && (n <=? 90) || (192 <=? n) && (n <=? 214)
      || (216 <=? n) && (n <=? 222))%N
  then ascii_of_N (n + 32) else c.

Fixpoint lower (s : string) : string :=
  match s with
  | EmptyString => EmptyString
  | String c r => String (lower_char c) (lower r)
  end.

(** [s.startswith(p)] *)
Definition startswith (s p : string) : bool := String.prefix p s.

(** Exceptions the modelled code can raise. *)
Inductive exn : Type :=
| KeyError (key : string)
| ValueError (what : string)
| TypeError (what : string)
| AttributeError (what : string)
| OverflowError
| JSONDecodeError
| ConnectionError
| RuntimeError (msg : string).

(** *** dict *)

Definition dict (V : Type) : Type := list (string * V).

Definition keys {V} (d : dict V) : list string := map fst d.

Fixpoint dict_get {V} (k : string) (d : dict V) : option V :=
  match d with
  | [] => None
  | (k', v) :: r => if String.eqb k k' then Some v else dict_get k r
  end.

(** [k in d] *)
Definition dict_has {V} (k : string) (d : dict V) : bool :=
  match dict_get k d with Some _ => true | None => false end.

(** [d[k] = v]: an existing key keeps its position, a new one goes last. *)
Fixpoint dict_set {V} (k : string) (v : V) (d : dict V) : dict V :=
  match d with
  | [] => [(k, v)]
  | (k', v') :: r =>
      if String.eqb k k' then (k', v) :: r else (k', v') :: dict_set k v r
  end.

(** Lookup in a [requests] [CaseInsensitiveDict]: names are compared
    lower-cased (names are unique up to case there). *)
Fixpoint ci_get {V} (k : string) (d : dict V) : option V :=
  match d with
  | [] => None
  | (k', v) :: r =>
      if String.eqb (lower k) (lower k') then Some v else ci_get k r
  end.

(** *** int and str *)

(** [str(n)] for an [int]. *)
Definition str_of_int (n : Z) : string :=
  NilZero.string_of_int (Z.to_int n).

(** The white space that [int] lets surround a number: the separators
    U+001C to U+001F, white space for [str.isspace], are not among it. *)
Definition is_space (c : ascii) : bool :=
  let n := N_of_ascii c in
  ((9 <=? n) && (n <=? 13) || (n =? 32) || (n =? 133) || (n =? 160))%N.

Definition digit_of (c : ascii) : option Z :=
  let n := N_of_ascii c in
  if ((48 <=? n) && (n <=? 57))%N then Some (Z.of_N n - 48) else None.

Fixpoint lstrip (s : string) : string :=
  match s with
  | String c r => if is_space c then lstrip r else s
  | EmptyString => EmptyString
  end.

(** Digits with single underscores between them, then optional trailing
    white space; [acc] is the value read so far, [prev] tells whether the
    previous character was a digit. *)
Fixpoint int_digits (s : string) (acc : Z) (prev : bool) : option Z :=
  match s with
  | EmptyString => if prev then Some acc else None
  | String c r =>
      match digit_of c with
      | Some d => int_digits r (10 * acc + d) true
      | None =>
          if prev then
            if Ascii.eqb c "_" then
              match r with
              | String c' _ =>
                  match digit_of c' with
                  | Some _ => int_digits r acc false
                  | None => None
                  end
              | EmptyString => None
              end
            else if is_space c then
              match lstrip r with EmptyString => Some acc | _ => None end
            else None
          else None
      end
  end.

(** [int(s)] for a [str] in base 10: surrounding white space, an optional
    sign, decimal digits. *)
Definition int_of_str (s : string) : option Z :=
  match lstrip s with
  | String "-" r => option_map Z.opp (int_digits r 0 false)
  | String "+" r => int_digits r 0 false
  | r => int_digits r 0 false
  end.

(** *** sorted *)

(** The order of [sorted(..., key=str.lower)]. *)
Definition lower_leb (a b : string) : bool := String.leb (lower a) (lower b).

Fixpoint insert_by_lower (x : string) (l : list string) : list string :=
  match l with
  | [] => [x]
  | y :: r => if lower_leb x y then x :: l else y :: insert_by_lower x r
  end.

(** [sorted(l, key=str.lower)]: Python's sort is stable, and so is this
    insertion sort, so both return the same list. *)
Definition sorted_by_lower (l : list string) : list string :=
  fold_right insert_by_lower [] l.

End Py.

Import Py.

(** ** JSON values and [json.dumps] *)

Module Json.

Inductive json : Type :=
| JNull
| JBool (b : bool)
| JNum (n : Z)
| JStr (s : string)
| JArr (items : list json)
| JObj (members : list (string * json)).

Definition hex_digit (n : N) : ascii :=
  if (n <? 10)%N then ascii_of_N (48 + n) else ascii_of_N (87 + n).

(** The one-character string holding a double quote. *)
Definition dquote : string := String (ascii_of_N 34) EmptyString.

(** One character of a string literal under [ensure_ascii=True]. *)
Definition escape_char (c : ascii) : string :=
  let n := N_of_ascii c in
  if (n =? 34)%N then "\" ++ dquote
  else if (n =? 92)%N then "\\"
  else if (n =? 10)%N then "\n"
  else if (n =? 13)%N then "\r"
  else if (n =? 9)%N then "\t"
  else if (n =? 8)%N then "\b"
  else if (n =? 12)%N then "\f"
  else if ((32 <=? n) && (n <=? 126))%N then String c EmptyString
  else "\u00" ++ String (hex_digit (n / 16)) (String (hex_digit (n mod 16)) EmptyString).

Fixpoint escape (s : string) : string :=
  match s with
  | EmptyString => EmptyString
  | String c r => escape_char c ++ escape r
  end.

Definition quote (s : string) : string := dquote ++ escape s ++ dquote.

Fixpoint spaces (n : nat) : string :=
  match n with O => EmptyString | S k => String " " (spaces k) end.

(** Line break followed by the indentation of nesting depth [lvl]
    ([indent=2]). *)
Definition newline_indent (lvl : nat) : string :=
  String (ascii_of_N 10) (spaces (2 * lvl)).

(** [json.dumps(v, indent=2)] at nesting depth [lvl]. *)
Fixpoint dumps_at (lvl : nat) (v : json) : string :=
  match v with
  | JNull => "null"
  | JBool true => "true"
  | JBool false => "false"
  | JNum n => str_of_int n
  | JStr s => quote s
  | JArr [] => "[]"
  | JArr (x :: r) =>
      "[" ++ newline_indent (S lvl) ++ dumps_at (S lvl) x
      ++ (fix rest (l : list json) : string :=
            match l with
            | [] => EmptyString
            | y :: l' =>
                "," ++ newline_indent (S lvl) ++ dumps_at (S lvl) y ++ rest l'
            end) r
      ++ newline_indent lvl ++ "]"
  | JObj [] => "{}"
  | JObj ((k, x) :: r) =>
      "{" ++ newline_indent (S lvl) ++ quote k ++ ": " ++ dumps_at (S lvl) x
      ++ (fix rest (l : list (string * json)) : string :=
            match l with
            | [] => EmptyString
            | (k', y) :: l' =>
                "," ++ newline_indent (S lvl) ++ quote k' ++ ": "
                ++ dumps_at (S lvl) y ++ rest l'
            end) r
      ++ newline_indent lvl ++ "}"
  end.

Definition dumps (v : json) : string := dumps_at 0 v.

(** [v[k]] for a decoded object. *)
Definition member (k : string) (v : json) : exn + json :=
  match v with
  | JObj d =>
      match dict_get k d with
      | Some x => inr x
      | None => inl (KeyError k)
      end
  | _ => inl (TypeError "not subscriptable by str")
  end.

(** [p in s] for two strings. *)
Fixpoint substring_of (p s : string) : bool :=
  String.prefix p s
  || match s with
     | String _ r => substring_of p r
     | EmptyString => false
     end.

(** [k in v] for a string [k]: a key of an object, an item of an array, a
    part of a string. *)
Definition contains (k : string) (v : json) : exn + bool :=
  match v with
  | JObj d => inr (dict_has k d)
  | JArr l =>
      inr (existsb (fun x => match x with JStr s => String.eqb s k | _ => false end) l)
  | JStr s => inr (substring_of k s)
  | _ => inl (TypeError "not iterable")
  end.

(** The items [for x in v] goes through: the items of an array, the keys
    of an object, the characters of a string. *)
Definition iterate (v : json) : exn + list json :=
  match v with
  | JArr l => inr l
  | JObj d => inr (map JStr (keys d))
  | JStr s =>
      inr (map (fun c => JStr (String c EmptyString)) (list_ascii_of_string s))
  | _ => inl (TypeError "not iterable")
  end.

(** [v == s] for a string [s]. *)
Definition is_str (s : string) (v : json) : bool :=
  match v with
  | JStr x => String.eqb x s
  | _ => false
  end.

(** A value used where the code needs a [str]: as a dictionary key, in a
    concatenation, as a URL, as a login.  The API schema makes these
    strings; any other value is a [TypeError] here. *)
Definition as_str (v : json) : exn + string :=
  match v with
  | JStr s => inr s
  | _ => inl (TypeError "str expected")
  end.

(** [str(v)]; the [repr] of containers is not modelled and is a
    [TypeError] here. *)
Definition str_of (v : json) : exn + string :=
  match v with
  | JStr s => inr s
  | JNum n => inr (str_of_int n)
  | JNull => inr "None"
  | JBool true => inr "True"
  | JBool false => inr "False"
  | _ => inl (TypeError "repr of a container")
  end.

End Json.

Import Json.

(** ** Dates and times

    A naive [datetime] is the number of microseconds since
    0001-01-01T00:00:00, which orders datetimes as Python does; the
    conversions follow the proleptic Gregorian ordinal of Python's
    [datetime] module. *)

Module DateTime.

Definition datetime : Type := Z.

Definition us_per_second : Z := 1000000.
Definition us_per_day : Z := 86400 * us_per_second.

(** [datetime.min] and the first instant after [datetime.max]. *)
Definition dt_min : datetime := 0.
Definition dt_end : datetime := 3652059 * us_per_day.

Definition is_leap (year : Z) : bool :=
  (year mod 4 =? 0) && (negb (year mod 100 =? 0) || (year mod 400 =? 0)).

Definition days_before_year (year : Z) : Z :=
  let y := year - 1 in y * 365 + y / 4 - y / 100 + y / 400.

Definition days_in_month (year month : Z) : Z :=
  if (month =? 2) && is_leap year then 29
  else nth (Z.to_nat month) [0; 31; 28; 31; 30; 31; 30; 31; 31; 30; 31; 30; 31] 0.

Definition DAYS_BEFORE_MONTH : list Z :=
  [0; 0; 31; 59; 90; 120; 151; 181; 212; 243; 273; 304; 334].

Definition days_before_month (year month : Z) : Z :=
  nth (Z.to_nat month) DAYS_BEFORE_MONTH 0
  + (if (2 <? month) && is_leap year then 1 else 0).

Definition ymd2ord (year month day : Z) : Z :=
  days_before_year year + days_before_month year month + day.

Definition DI400Y : Z := days_before_year 401.
Definition DI100Y : Z := days_before_year 101.
Definition DI4Y : Z := days_before_year 5.

(** Ordinal to (year, month, day), with January 1 of year 1 as day 1. *)
Definition ord2ymd (ordinal : Z) : Z * Z * Z :=
  let n := ordinal - 1 in
  let n400 := n / DI400Y in
  let n := n mod DI400Y in
  let year := n400 * 400 + 1 in
  let n100 := n / DI100Y in
  let n := n mod DI100Y in
  let n4 := n / DI4Y in
  let n := n mod DI4Y in
  let n1 := n / 365 in
  let n := n mod 365 in
  let year := year + n100 * 100 + n4 * 4 + n1 in
  if (n1 =? 4) || (n100 =? 4) then (year - 1, 12, 31)
  else
    let leapyear := (n1 =? 3) && (negb (n4 =? 24) || (n100 =? 3)) in
    let month := Z.shiftr (n + 50) 5 in
    let preceding :=
      nth (Z.to_nat month) DAYS_BEFORE_MONTH 0
      + (if (2 <? month) && leapyear then 1 else 0) in
    if n <? preceding then
      let month := month - 1 in
      let preceding :=
        preceding
        - (nth (Z.to_nat month) [0; 31; 28; 31; 30; 31; 30; 31; 31; 30; 31; 30; 31] 0
           + (if (month =? 2) && leapyear then 1 else 0)) in
      (year, month, n - preceding + 1)
    else (year, month, n - preceding + 1).

Definition make (year month day hour minute second : Z) : datetime :=
  (((ymd2ord year month day - 1) * 24 + hour) * 60 + minute) * 60 * us_per_second
  + second * us_per_second.

Definition date_of (t : datetime) : Z * Z * Z := ord2ymd (t / us_per_day + 1).
Definition hour_of (t : datetime) : Z := (t mod us_per_day) / (3600 * us_per_second).
Definition minute_of (t : datetime) : Z := (t / (60 * us_per_second)) mod 60.
Definition second_of (t : datetime) : Z := (t / us_per_second) mod 60.

(** [timedelta.seconds] of a difference of [d] microseconds: the seconds
    field after normalisation, between 0 and 86399 also when [d] is
    negative. *)
Definition td_seconds (d : Z) : Z := (d mod us_per_day) / us_per_second.

Definition timedelta_days (n : Z) : Z := n * us_per_day.

(** The POSIX epoch, 1970-01-01T00:00:00. *)
Definition epoch : datetime := make 1970 1 1 0 0 0.

(** [datetime.fromtimestamp(t)] for an [int] [t], in a zone [utcoffset]
    seconds east of UTC. *)
Definition fromtimestamp (utcoffset t : Z) : exn + datetime :=
  let r := epoch + (t + utcoffset) * us_per_second in
  if (dt_min <=? r) && (r <? dt_end) then inr r
  else inl (ValueError "year out of range").

(** *** Parsing and formatting *)

(** A class of characters: those from [lo] to [hi]. *)
Definition between (lo hi c : ascii) : bool :=
  ((N_of_ascii lo <=? N_of_ascii c) && (N_of_ascii c <=? N_of_ascii hi))%N.

(** The class of a single character. *)
Definition only (c c' : ascii) : bool := Ascii.eqb c c'.

(** [\d], on code points below 256. *)
Definition digit : ascii -> bool := between "0" "9".

(** A sequence of classes at the head of a string: the text that matches
    and what follows it. *)
Fixpoint match_seq (classes : list (ascii -> bool)) (s : string)
  : option (string * string) :=
  match classes with
  | [] => Some (EmptyString, s)
  | class :: classes' =>
      match s with
      | String c r =>
          if class c : bool
          then '(t, r') ← match_seq classes' r; Some (String c t, r')
          else None
      | EmptyString => None
      end
  end.

(** An item of the regular expression that [strptime] makes of a format: a
    character of the format, or the group of a directive, which is a list
    of alternatives. *)
Inductive item : Type :=
| Lit (c : ascii)
| Group (alts : list (list (ascii -> bool))).

(** The matches of a group at the head of a string, in the order of its
    alternatives. *)
Definition group (alts : list (list (ascii -> bool))) (s : string)
  : list (string * string) :=
  omap (fun classes => match_seq classes s) alts.

(** The matches of a regular expression at the head of a string, in the
    order in which a backtracking matcher comes to them, with the texts of
    the groups and what follows the match. The expression is compiled with
    [re.IGNORECASE]: a letter of the format matches in either case. *)
Fixpoint matches (items : list item) (s : string) : list (list string * string) :=
  match items with
  | [] => [([], s)]
  | Lit c :: items' =>
      match s with
      | String c' r =>
          if Ascii.eqb (lower_char c) (lower_char c') then matches items' r else []
      | EmptyString => []
      end
  | Group alts :: items' =>
      '(t, r) ← group alts s;
      '(ts, r') ← matches items' r;
      [(t :: ts, r')]
  end.

(** The expression of ["%Y-%m-%dT%H:%M:%SZ"]:
    [(\d\d\d\d)-(1[0-2]|0[1-9]|[1-9])-(3[0-1]|[1-2]\d|0[1-9]|[1-9]| [1-9])]
    [T(2[0-3]|[0-1]\d|\d):([0-5]\d|\d):(6[0-1]|[0-5]\d|\d)Z]. *)
Definition format_regex : list item :=
  let d := digit in
  [Group [[d; d; d; d]];
   Lit "-";
   Group [[only "1"; between "0" "2"]; [only "0"; between "1" "9"]; [between "1" "9"]];
   Lit "-";
   Group [[only "3"; between "0" "1"]; [between "1" "2"; d]; [only "0"; between "1" "9"];
          [between "1" "9"]; [only " "; between "1" "9"]];
   Lit "T";
   Group [[only "2"; between "0" "3"]; [between "0" "1"; d]; [d]];
   Lit ":";
   Group [[between "0" "5"; d]; [d]];
   Lit ":";
   Group [[only "6"; between "0" "1"]; [between "0" "5"; d]; [d]];
   Lit "Z"].

(** [datetime.strptime(s, "%Y-%m-%dT%H:%M:%SZ")]: the first match of the
    expression has to take the whole of [s], and the numbers of its groups
    have to make a date and a time; anything else is a [ValueError]. *)
Definition strptime (s : string) : option datetime :=
  match matches format_regex s with
  | ([g_Y; g_m; g_d; g_H; g_M; g_S], EmptyString) :: _ =>
      year ← int_of_str g_Y;
      month ← int_of_str g_m;
      day ← int_of_str g_d;
      hour ← int_of_str g_H;
      minute ← int_of_str g_M;
      second ← int_of_str g_S;
      if (1 <=? year) && (1 <=? month) && (month <=? 12) && (1 <=? day)
         && (day <=? days_in_month year month) && (hour <=? 23)
         && (minute <=? 59) && (second <=? 59)
      then Some (make year month day hour minute second)
      else None
  | _ => None
  end.

(** A number in at least [width] digits, zero-padded. *)
Definition pad (width : nat) (n : Z) : string :=
  let s := str_of_int n in
  string_of_list_ascii (repeat "0"%char (width - String.length s)) ++ s.

(** [t.strftime("%Y-%m-%dT%H:%M:%SZ")] *)
Definition strftime_iso (t : datetime) : string :=
  let '(y, m, d) := date_of t in
  pad 4 y ++ "-" ++ pad 2 m ++ "-" ++ pad 2 d ++ "T"
  ++ pad 2 (hour_of t) ++ ":" ++ pad 2 (minute_of t) ++ ":"
  ++ pad 2 (second_of t) ++ "Z".

Definition month_abbr (m : Z) : string :=
  nth (Z.to_nat m)
    [EmptyString; "Jan"; "Feb"; "Mar"; "Apr"; "May"; "Jun"; "Jul"; "Aug"; "Sep";
     "Oct"; "Nov"; "Dec"] EmptyString.

(** [d.strftime("%d-%b-%y")] in the C locale. *)
Definition strftime_dby (t : datetime) : string :=
  let '(y, m, d) := date_of t in
  pad 2 d ++ "-" ++ month_abbr m ++ "-" ++ pad 2 (y mod 100).

End DateTime.

Import DateTime.

(** ** The world the program runs in *)

Module Sys.

(** The keyword arguments the callers pass on to [requests]. *)
Record Kwargs : Type := mkKwargs {
  kw_headers : option (dict string);
  kw_params : option (dict string);
  kw_auth : option (string * string);
  kw_json : option json
}.

Definition no_kwargs : Kwargs := mkKwargs None None None None.

Inductive verb : Type := GET | POST | PUT | PATCH | DELETE.

(** What the process does that the outside can observe. *)
Inductive event : Type :=
| EvRequest (v : verb) (url : string) (timeout : Z) (kwargs : Kwargs) (at_time : datetime)
| EvSleep (seconds : Z).

Record Response : Type := mkResponse {
  ok : bool;
  headers : dict string;
  text : string;
  body : option json
}.

(** What the network has in store for a request: a response, or a
    transport failure raised by [requests]. *)
Inductive reply : Type :=
| Answer (r : Response)
| Failure (e : exn).

Record World : Type := mkWorld {
  clock : datetime;            (* local naive time *)
  lags : list N;               (* microseconds that pass before each
                                  reading of the clock and each request *)
  utcoffset : Z;               (* of the local zone, in seconds *)
  environ : dict string;       (* os.environ *)
  wire : list reply;           (* replies to the requests to come *)
  trace : list event;          (* requests and sleeps so far *)
  output_file_data : list string   (* the validator's buffer *)
}.

Definition set_clock (t : datetime) (ls : list N) (w : World) : World :=
  mkWorld t ls (utcoffset w) (environ w) (wire w) (trace w) (output_file_data w).

Definition set_wire (rs : list reply) (w : World) : World :=
  mkWorld (clock w) (lags w) (utcoffset w) (environ w) rs (trace w) (output_file_data w).

Definition log (e : event) (w : World) : World :=
  mkWorld (clock w) (lags w) (utcoffset w) (environ w) (wire w)
    (trace w ++ [e]) (output_file_data w).

Definition set_output_file_data (d : list string) (w : World) : World :=
  mkWorld (clock w) (lags w) (utcoffset w) (environ w) (wire w) (trace w) d.

(** Time passes. *)
Definition tick (w : World) : World :=
  match lags w with
  | [] => w
  | d :: ls => set_clock (clock w + Z.of_N d) ls w
  end.

(** How a computation ends: with a value, with an exception, or not at
    all within the bound of a loop ([Hang]). *)
Inductive result (A : Type) : Type :=
| Ret (a : A)
| Raise (e : exn)
| Hang.
Arguments Ret {A} a.
Arguments Raise {A} e.
Arguments Hang {A}.

Definition M (A : Type) : Type := World -> result A * World.

#[export] Instance M_ret : MRet M := fun A a w => (Ret a, w).

#[export] Instance M_bind : MBind M := fun A B f m w =>
  match m w with
  | (Ret a, w') => f a w'
  | (Raise e, w') => (Raise e, w')
  | (Hang, w') => (Hang, w')
  end.

Definition raise {A} (e : exn) : M A := fun w => (Raise e, w).
Definition hang {A} : M A := fun w => (Hang, w).

Definition lift {A} (r : exn + A) : M A :=
  match r with inl e => raise e | inr a => mret a end.

Definition lift_opt {A} (e : exn) (o : option A) : M A :=
  match o with Some a => mret a | None => raise e end.

(** [datetime.datetime.now()], also [datetime.datetime.today()] *)
Definition now : M datetime := fun w => let w' := tick w in (Ret (clock w'), w').

(** [time.sleep(seconds)]: the process is suspended for that long at
    least; what it oversleeps shows as the lag before the next reading of
    the clock. *)
Definition sleep (seconds : Z) : M unit := fun w =>
  (Ret tt, log (EvSleep seconds) (set_clock (clock w + seconds * us_per_second) (lags w) w)).

(** [name in os.environ] *)
Definition in_environ (name : string) : M bool := fun w =>
  (Ret (dict_has name (environ w)), w).

(** [requests.get], [requests.post], ...: the request goes out and the
    next reply of the wire comes back. *)
Definition requests_call (v : verb) (url : string) (timeout : Z) (kwargs : Kwargs)
  : M Response := fun w =>
  let w := tick w in
  let w := log (EvRequest v url timeout kwargs (clock w)) w in
  match wire w with
  | [] => (Raise ConnectionError, w)
  | Answer r :: rs => (Ret r, set_wire rs w)
  | Failure e :: rs => (Raise e, set_wire rs w)
  end.

(** [response.json()] *)
Definition json_of (r : Response) : M json := lift_opt JSONDecodeError (body r).

(** [int(s)] *)
Definition int (s : string) : M Z :=
  lift_opt (ValueError "invalid literal for int()") (int_of_str s).

End Sys.

Import Sys.

(** ** adabot/github_requests.py *)

Module GithubRequests.

Definition _fix_url (url : string) : string :=
  if startswith url "/" then "https://api.github.com" ++ url else url.

Definition api_version : string :=
  "application/vnd.github.scarlet-witch-preview+json;application/vnd.github.hellcat-preview+json".

(** [_fix_kwargs(kwargs)], where [env] is [os.environ]. *)
Definition _fix_kwargs (env : dict string) (kwargs : Kwargs) : Kwargs :=
  let kwargs :=
    match kw_headers kwargs with
    | Some h =>
        match dict_get "Accept" h with
        | Some a =>
            mkKwargs (Some (dict_set "Accept" (a ++ ";" ++ api_version) h))
              (kw_params kwargs) (kw_auth kwargs) (kw_json kwargs)
        | None =>
            mkKwargs (Some (dict_set "Accept" api_version h))
              (kw_params kwargs) (kw_auth kwargs) (kw_json kwargs)
        end
    | None =>
        mkKwargs (Some [("Accept", "application/vnd.github.hellcat-preview+json")])
          (kw_params kwargs) (kw_auth kwargs) (kw_json kwargs)
    end in
  match dict_get "ADABOT_GITHUB_ACCESS_TOKEN" env, kw_auth kwargs with
  | Some access_token, None =>
      match kw_params kwargs with
      | Some p =>
          mkKwargs (kw_headers kwargs) (Some (dict_set "access_token" access_token p))
            (kw_auth kwargs) (kw_json kwargs)
      | None =>
          mkKwargs (kw_headers kwargs) (Some [("access_token", access_token)])
            (kw_auth kwargs) (kw_json kwargs)
      end
  | _, _ => kwargs
  end.

(** A verb of [requests] called the way every function of the module
    calls it: fixed URL, 30 seconds of timeout, fixed keyword arguments. *)
Definition call (v : verb) (url : string) (kwargs : Kwargs) : M Response := fun w =>
  requests_call v (_fix_url url) 30 (_fix_kwargs (environ w) kwargs) w.

(** The loop [while datetime.datetime.now() < rate_limit_reset: ...] of
    [get], run for at most [fuel] turns. *)
Fixpoint pause_loop (fuel : nat) (rate_limit_reset : datetime) : M unit :=
  match fuel with
  | O => hang
  | S fuel' =>
      t ← now;
      if t <? rate_limit_reset then
        travis ← in_environ "TRAVIS";
        (if travis : bool then sleep 300
         else
           t' ← now;
           let reset_diff := rate_limit_reset - t' in
           sleep (td_seconds reset_diff + 1));;
        pause_loop fuel' rate_limit_reset
      else mret tt
  end.

(** Every turn of the loop sleeps one second at least, so this many turns
    are enough to get past [rate_limit_reset] (see [pause_loop_returns]). *)
Definition turns (rate_limit_reset : datetime) (w : World) : nat :=
  S (Z.to_nat ((rate_limit_reset - clock w) / us_per_second + 1)).

(** The loop, with the turns it needs from the world it starts in. *)
Definition pause (rate_limit_reset : datetime) : M unit := fun w =>
  pause_loop (turns rate_limit_reset w) rate_limit_reset w.

(** [get(url, **kwargs)]; the notices it prints while it waits, and when
    [remaining % 100 == 0], are output only. *)
Definition get (url : string) (kwargs : Kwargs) : M Response :=
  response ← call GET url kwargs;
  match ci_get "X-RateLimit-Remaining" (headers response) with
  | Some h =>
      remaining ← int h;
      (if remaining <=? 1 then
         h' ← lift_opt (KeyError "x-ratelimit-reset")
                (ci_get "X-RateLimit-Reset" (headers response));
         t ← int h';
         rate_limit_reset ← (fun w => lift (fromtimestamp (utcoffset w) t) w);
         pause rate_limit_reset
       else mret tt);;
      mret response
  | None => mret response
  end.

Definition post (url : string) (kwargs : Kwargs) : M Response := call POST url kwargs.
Definition put (url : string) (kwargs : Kwargs) : M Response := call PUT url kwargs.
Definition patch (url : string) (kwargs : Kwargs) : M Response := call PATCH url kwargs.
Definition delete (url : string) (kwargs : Kwargs) : M Response := call DELETE url kwargs.

End GithubRequests.

(** ** Bytes: UTF-8 and base64 *)

Module Codec.

(** [s.encode("utf-8")], as a list of byte values. *)
Fixpoint utf8 (s : string) : list N :=
  match s with
  | EmptyString => []
  | String c r =>
      let n := N_of_ascii c in
      if (n <? 128)%N then n :: utf8 r
      else (192 + n / 64)%N :: (128 + n mod 64)%N :: utf8 r
  end.

Definition alphabet : string :=
  "ABCDEFGHIJKLMNOPQRSTUVWXYZabcdefghijklmnopqrstuvwxyz0123456789+/".

Definition sextet (n : N) : string :=
  match String.get (N.to_nat n) alphabet with
  | Some c => String c EmptyString
  | None => "="
  end.

(** [base64.b64encode(bs).decode("utf-8")] *)
Fixpoint b64encode (bs : list N) : string :=
  match bs with
  | [] => EmptyString
  | [a] => sextet (a / 4) ++ sextet (a mod 4 * 16) ++ "=="
  | [a; b] =>
      sextet (a / 4) ++ sextet (a mod 4 * 16 + b / 16) ++ sextet (b mod 16 * 4) ++ "="
  | a :: b :: c :: r =>
      sextet (a / 4) ++ sextet (a mod 4 * 16 + b / 16)
      ++ sextet (b mod 16 * 4 + c / 64) ++ sextet (c mod 64) ++ b64encode r
  end%N.

End Codec.

(** ** adabot/update_cp_org_libraries.py *)

Module UpdateCpOrgLibraries.

Module github := GithubRequests.

(** A repository descriptor of the GitHub API: [repo["name"]],
    [repo["html_url"]] and the members the collaborators look at. *)
Record Repo : Type := mkRepo {
  repo_name : string;
  repo_html_url : string;
  repo_members : dict json
}.

Definition params (p : dict string) : Kwargs := mkKwargs None (Some p) None None.
Definition json_body (v : json) : Kwargs := mkKwargs None None None (Some v).

(** A [for] loop over [l] whose body turns the state [s] into the next. *)
Fixpoint for_each {A S : Type} (l : list A) (body : A -> S -> M S) (s : S) : M S :=
  match l with
  | [] => mret s
  | x :: r => s' ← body x s; for_each r body s'
  end.

(** [{issue["html_url"]: issue["title"]}] *)
Definition url_to_title (issue : json) : M json :=
  u ← lift (member "html_url" issue);
  title ← lift (member "title" issue);
  u ← lift (as_str u);
  mret (JObj [(u, title)]).

(** The body of the loop of [get_open_issues_and_prs]; the state is
    [(open_issues, open_pull_requests)]. *)
Definition sort_issue (issue : json) (s : list json * list json)
  : M (list json * list json) :=
  let '(open_issues, open_pull_requests) := s in
  is_pr ← lift (contains "pull_request" issue);
  e ← url_to_title issue;
  if negb is_pr then mret ((open_issues ++ [e])%list, open_pull_requests)
  else mret (open_issues, (open_pull_requests ++ [e])%list).

Definition get_open_issues_and_prs (repo : Repo) : M (list json * list json) :=
  result ← github.get ("/repos/adafruit/" ++ repo_name repo ++ "/issues")
             (params [("state", "open")]);
  if negb (ok result) then mret ([], [])
  else
    issues ← json_of result;
    issues ← lift (iterate issues);
    for_each issues sort_issue ([], []).

(** [pr["user"]["login"]] and the like. *)
Definition login_of (who : string) (v : json) : M string :=
  u ← lift (member who v);
  l ← lift (member "login" u);
  lift (as_str l).

(** The body of the loop over the reviews of a pull request. *)
Definition add_approval (review : json) (reviewers : list string) : M (list string) :=
  state ← lift (member "state" review);
  state ← lift (match state with
                | JStr s => inr s
                | _ => inl (AttributeError "lower")
                end);
  if String.eqb (lower state) "approved" then
    l ← login_of "user" review;
    mret (reviewers ++ [l])%list
  else mret reviewers.

(** The body of the loop of [get_contributors]; the state is
    [(contributors, reviewers, merged_pr_count)]. *)
Definition scan_pr (today_minus_seven : datetime) (pr : json)
    (s : list string * list string * Z) : M (list string * list string * Z) :=
  let '(contributors, reviewers, merged_pr_count) := s in
  has ← lift (contains "merged_at" pr);
  if has : bool then
    m ← lift (member "merged_at" pr);
    match m with
    | JNull => mret s
    | _ =>
        m ← lift (as_str m);
        merged_at ← lift_opt (ValueError "time data does not match format") (strptime m);
        if merged_at <? today_minus_seven then mret s
        else
          l ← login_of "user" pr;
          let contributors := (contributors ++ [l])%list in
          let merged_pr_count := merged_pr_count + 1 in
          u ← lift (member "url" pr);
          u ← lift (match u with
                    | JStr u => inr u
                    | _ => inl (AttributeError "startswith")
                    end);
          single_pr ← github.get u no_kwargs;
          if negb (ok single_pr) then mret (contributors, reviewers, merged_pr_count)
          else
            pr_info ← json_of single_pr;
            l ← login_of "merged_by" pr_info;
            let reviewers := (reviewers ++ [l])%list in
            u ← lift (member "url" pr_info);
            u ← lift (str_of u);
            pr_reviews ← github.get (u ++ "/reviews") no_kwargs;
            if negb (ok pr_reviews) then mret (contributors, reviewers, merged_pr_count)
            else
              reviews ← json_of pr_reviews;
              reviews ← lift (iterate reviews);
              reviewers ← for_each reviews add_approval reviewers;
              mret (contributors, reviewers, merged_pr_count)
    end
  else mret s.

(** [t - datetime.timedelta(days=n)] *)
Definition minus_days (t : datetime) (n : Z) : M datetime :=
  let r := t - timedelta_days n in
  if r <? dt_min then raise OverflowError else mret r.

Definition get_contributors (repo : Repo) : M (list string * list string * Z) :=
  result ← github.get ("/repos/adafruit/" ++ repo_name repo ++ "/pulls")
             (params [("state", "closed"); ("sort", "updated"); ("direction", "desc")]);
  if ok result then
    today ← now;
    today_minus_seven ← minus_days today 7;
    prs ← json_of result;
    prs ← lift (iterate prs);
    for_each prs (scan_pr today_minus_seven) ([], [], 0)
  else mret ([], [], 0).

Definition nl : string := String (ascii_of_N 10) EmptyString.

Definition master_url : string := "/repos/adafruit/circuitpython-org/".
Definition fork_url : string := "/repos/adafruit-adabot/circuitpython-org/".

(** [datetime.date.today()] reads the clock as [now] does; only the date
    of [commit_date] is used. *)
Definition update_json_file (json_string : string) : M unit :=
  commit_date ← now;
  let branch_name := "libraries_update_" ++ strftime_dby commit_date in
  response ← github.get (master_url ++ "git/refs/heads/master") no_kwargs;
  (if negb (ok response)
   then raise (RuntimeError ("Failed to retrieve master sha:" ++ nl ++ text response))
   else mret tt);;
  j ← json_of response;
  o ← lift (member "object" j);
  commit_sha ← lift (member "sha" o);
  commit_sha ← lift (as_str commit_sha);
  response ← github.get (master_url ++ "contents/_data/libraries.json?ref=" ++ commit_sha)
               no_kwargs;
  (if negb (ok response)
   then raise (RuntimeError ("Failed to retrieve libraries.json sha:" ++ nl ++ text response))
   else mret tt);;
  j ← json_of response;
  blob_sha ← lift (member "sha" j);
  let branch_info :=
    JObj [("ref", JStr ("refs/heads/" ++ branch_name)); ("sha", JStr commit_sha)] in
  response ← github.post (fork_url ++ "git/refs") (json_body branch_info);
  (if negb (ok response) then
     j ← json_of response;
     message ← lift (member "message" j);
     if negb (is_str "Reference already exists" message)
     then raise (RuntimeError ("Failed to create branch:" ++ nl ++ text response))
     else mret tt
   else mret tt);;
  let commit_msg := "Automated Libraries update for " ++ strftime_dby commit_date in
  let content := (Codec.utf8 json_string ++ [10%N])%list in
  let update_json :=
    JObj [("message", JStr commit_msg);
          ("content", JStr (Codec.b64encode content));
          ("sha", blob_sha);
          ("branch", JStr branch_name)] in
  response ← github.put (fork_url ++ "contents/_data/libraries.json") (json_body update_json);
  (if negb (ok response)
   then raise (RuntimeError ("Failed to update libraries.json:" ++ nl ++ text response))
   else mret tt);;
  let pr_info :=
    JObj [("title", JStr commit_msg);
          ("head", JStr ("adafruit-adabot:" ++ branch_name));
          ("base", JStr "master");
          ("body", JStr commit_msg);
          ("maintainer_can_modify", JBool true)] in
  response ← github.post (master_url ++ "pulls") (json_body pr_info);
  if negb (ok response)
  then raise (RuntimeError ("Failed to create pull request:" ++ nl ++ text response))
  else mret tt.

(** *** The aggregation loop of [__main__] *)

(** An error signal of the validator: an error kind, or a pair of an error
    kind and a number of days. *)
Inductive error_signal : Type :=
| Bare (kind : string)
| Timed (kind : string) (days : Z).

(** The accumulators of the loop. *)
Record Totals : Type := mkTotals {
  new_libs : dict string;
  updated_libs : dict string;
  open_issues_by_repo : dict (list json);
  open_prs_by_repo : dict (list json);
  contributors : list string;
  reviewers : list string;
  merged_pr_count_total : Z;
  repos_by_error : dict (list string)
}.

Definition no_totals : Totals := mkTotals [] [] [] [] [] [] 0 [].

(** [check_releases == s], where [None] stands for every answer of the
    classifier that is not a string. *)
Definition says (s : string) (check_releases : option string) : bool :=
  match check_releases with
  | Some x => String.eqb x s
  | None => false
  end.

(** [if k not in d: d[k] = []] followed by [d[k].append(x)] *)
Definition dict_append (k x : string) (d : dict (list string)) : dict (list string) :=
  let d := if dict_has k d then d else dict_set k [] d in
  match dict_get k d with
  | Some l => dict_set k (l ++ [x])%list d
  | None => d
  end.

(** The copy of [d] filled in the order of
    [sorted(d, key=str.lower)]. *)
Definition sorted_copy {V} (d : dict V) : dict V :=
  fold_left
    (fun sorted_list k =>
       match dict_get k d with
       | Some v => dict_set k v sorted_list
       | None => sorted_list
       end)
    (sorted_by_lower (keys d)) [].

Section Collaborators.

(** What [adabot.lib] provides: the list of libraries to leave out, the
    error kind that flushes the validator's buffer, the classifier of
    releases and the validator. *)
Variable BUNDLE_IGNORE_LIST : list string.
Variable ERROR_OUTPUT_HANDLER : string.
Variable is_new_or_updated : Repo -> M (option string).
Variable run_repo_validation : Repo -> M (list error_signal).

(** The test at the head of the loop. *)
Definition skipped (repo : Repo) : bool :=
  existsb (String.eqb (repo_name repo)) BUNDLE_IGNORE_LIST
  || String.eqb (repo_name repo) "circuitpython".

(** The body of [for error in errors]. *)
Definition record_error (repo : Repo) (error : error_signal)
    (repos_by_error : dict (list string)) : M (dict (list string)) :=
  match error with
  | Bare kind =>
      (if String.eqb kind ERROR_OUTPUT_HANDLER
       then (fun w => (Ret tt, set_output_file_data [] w))
       else mret tt);;
      mret (dict_append kind (repo_html_url repo) repos_by_error)
  | Timed kind days =>
      mret (dict_append kind
              (repo_html_url repo ++ " (" ++ str_of_int days ++ " days)")
              repos_by_error)
  end.

(** The body of [for repo in repos]. *)
Definition visit (repo : Repo) (t : Totals) : M Totals :=
  if skipped repo then mret t
  else
    let name := repo_name repo in
    check_releases ← is_new_or_updated repo;
    let new_libs :=
      if says "new" check_releases
      then dict_set name (repo_html_url repo) (new_libs t)
      else new_libs t in
    let updated_libs :=
      if negb (says "new" check_releases) && says "updated" check_releases
      then dict_set name (repo_html_url repo) (updated_libs t)
      else updated_libs t in
    '(check_issues, check_prs) ← get_open_issues_and_prs repo;
    let open_issues_by_repo :=
      match check_issues with
      | [] => open_issues_by_repo t
      | _ => dict_set name check_issues (open_issues_by_repo t)
      end in
    let open_prs_by_repo :=
      match check_prs with
      | [] => open_prs_by_repo t
      | _ => dict_set name check_prs (open_prs_by_repo t)
      end in
    '(get_contribs, get_revs, get_merge_count) ← get_contributors repo;
    let contributors := (contributors t ++ get_contribs)%list in
    let reviewers := (reviewers t ++ get_revs)%list in
    let merged_pr_count_total := merged_pr_count_total t + get_merge_count in
    errors ← run_repo_validation repo;
    repos_by_error ← for_each errors (record_error repo) (repos_by_error t);
    mret (mkTotals new_libs updated_libs open_issues_by_repo open_prs_by_repo
            contributors reviewers merged_pr_count_total repos_by_error).

Definition aggregate (repos : list Repo) : M Totals :=
  for_each repos visit no_totals.

End Collaborators.

(** *** The report *)

(** [[x for x in set(l)]]: each element once, in the order of the set. *)
Definition unique (l : list string) : list string :=
  elements (list_to_set l : gset string).

Definition str_dict (d : dict string) : json :=
  JObj (map (fun kv => (fst kv, JStr (snd kv))) d).

Definition list_dict (d : dict (list json)) : json :=
  JObj (map (fun kv => (fst kv, JArr (snd kv))) d).

Definition str_list (l : list string) : json := JArr (map JStr l).

Definition str_list_dict (d : dict (list string)) : json :=
  JObj (map (fun kv => (fst kv, str_list (snd kv))) d).

(** The sorted dictionaries and [build_json]. *)
Definition build_json (run_time : datetime) (t : Totals) : json :=
  let sorted_new_list := sorted_copy (new_libs t) in
  let sorted_updated_list := sorted_copy (updated_libs t) in
  let sorted_issues_list := sorted_copy (open_issues_by_repo t) in
  let sorted_prs_list := sorted_copy (open_prs_by_repo t) in
  let sorted_repos_by_error := sorted_copy (repos_by_error t) in
  JObj [("updated_at", JStr (strftime_iso run_time));
        ("contributors", str_list (unique (contributors t)));
        ("reviewers", str_list (unique (reviewers t)));
        ("merged_pr_count", JStr (str_of_int (merged_pr_count_total t)));
        ("library_updates",
         JObj [("new", str_dict sorted_new_list);
               ("updated", str_dict sorted_updated_list)]);
        ("open_issues", list_dict sorted_issues_list);
        ("pull_requests", list_dict sorted_prs_list);
        ("repo_infrastructure_errors", str_list_dict sorted_repos_by_error)].

Section Main.

Variable BUNDLE_IGNORE_LIST : list string.
Variable ERROR_OUTPUT_HANDLER : string.
Variable is_new_or_updated : Repo -> M (option string).
Variable run_repo_validation : Repo -> M (list error_signal).

(** The report document of a run over [repos] started at [run_time]. *)
Definition report (run_time : datetime) (repos : list Repo) : M json :=
  t ← aggregate BUNDLE_IGNORE_LIST ERROR_OUTPUT_HANDLER is_new_or_updated
        run_repo_validation repos;
  mret (build_json run_time t).

(** [__main__] from the listing of the repositories on; the value is
    [json_obj], the text that is printed, written or published. *)
Definition main (run_time : datetime) (repos : list Repo) : M string :=
  doc ← report run_time repos;
  let json_obj := dumps doc in
  travis ← in_environ "TRAVIS";
  if travis : bool then update_json_file json_obj;; mret json_obj
  else mret json_obj.

End Main.

End UpdateCpOrgLibraries.

(** ** What the properties are stated with *)

Module Views.

Import UpdateCpOrgLibraries.

(** An item of the issues listing carries the pull-request marker. *)
Definition is_pull_request (issue : json) : bool :=
  match issue with
  | JObj d => dict_has "pull_request" d
  | _ => false
  end.

(** An item of the issues listing as the API documents it: an object with
    a string under [html_url] and a value under [title]. *)
Definition well_formed_issue (issue : json) : bool :=
  match issue with
  | JObj d =>
      match dict_get "html_url" d, dict_get "title" d with
      | Some (JStr _), Some _ => true
      | _, _ => false
      end
  | _ => false
  end.

(** The single-entry mapping from the URL of an item to its title. *)
Definition entry_of (issue : json) : json :=
  match issue with
  | JObj d =>
      match dict_get "html_url" d, dict_get "title" d with
      | Some (JStr u), Some title => JObj [(u, title)]
      | _, _ => JNull
      end
  | _ => JNull
  end.

(** A pull request has a [merged_at] that is not null and not earlier
    than [today_minus_seven]. *)
Definition merged_in_window (today_minus_seven : datetime) (pr : json) : bool :=
  match pr with
  | JObj d =>
      match dict_get "merged_at" d with
      | Some (JStr s) =>
          match strptime s with
          | Some merged_at => negb (merged_at <? today_minus_seven)
          | None => false
          end
      | _ => false
      end
  | _ => false
  end.

(** The login of the author of a pull request. *)
Definition author_of (pr : json) : string :=
  match pr with
  | JObj d =>
      match dict_get "user" d with
      | Some (JObj u) =>
          match dict_get "login" u with
          | Some (JStr l) => l
          | _ => EmptyString
          end
      | _ => EmptyString
      end
  | _ => EmptyString
  end.

(** The reply to the creation of the branch says that it exists. *)
Definition already_exists (r : Response) : bool :=
  match body r with
  | Some (JObj d) =>
      match dict_get "message" d with
      | Some message => is_str "Reference already exists" message
      | None => false
      end
  | _ => false
  end.

(** The requests of a trace: verb and URL, in order. *)
Fixpoint requests_of (tr : list event) : list (verb * string) :=
  match tr with
  | [] => []
  | EvRequest v url _ _ _ :: r => (v, url) :: requests_of r
  | EvSleep _ :: r => requests_of r
  end.

(** The keys of the object under [k] in [doc]. *)
Definition keys_under (k : string) (doc : json) : list string :=
  match member k doc with
  | inr (JObj d) => keys d
  | _ => []
  end.

Definition under (k : string) (doc : json) : json :=
  match member k doc with
  | inr v => v
  | inl _ => JNull
  end.

(** The key lists of the mappings of a report document that are keyed by
    repository name: new and updated libraries, open issues, open pull
    requests. *)
Definition repo_keys (doc : json) : list (list string) :=
  [keys_under "new" (under "library_updates" doc);
   keys_under "updated" (under "library_updates" doc);
   keys_under "open_issues" doc;
   keys_under "pull_requests" doc].

(** The key lists of all the mappings of a report document: the former and
    the error ledger. *)
Definition mappings_keys (doc : json) : list (list string) :=
  (repo_keys doc ++ [keys_under "repo_infrastructure_errors" doc])%list.

(** The names the loop leaves out: those of the list to ignore, and the
    name of the umbrella project. *)
Definition left_out (ignore : list string) (name : string) : bool :=
  existsb (String.eqb name) ignore || String.eqb name "circuitpython".

(** The error kind of a signal of the validator, and the text recorded
    for a repository under it. *)
Definition kind_of (error : error_signal) : string :=
  match error with
  | Bare kind => kind
  | Timed kind _ => kind
  end.

Definition note_of (repo : Repo) (error : error_signal) : string :=
  match error with
  | Bare _ => repo_html_url repo
  | Timed _ days => repo_html_url repo ++ " (" ++ str_of_int days ++ " days)"
  end.

(** The ledger [d] lists [x] under [kind]. *)
Definition listed (kind x : string) (d : dict (list string)) : Prop :=
  exists l, dict_get kind d = Some l /\ x ∈ l.


(** No key of the dictionaries keyed by repository name satisfies [p]. *)
Definition free_of (p : string -> bool) (t : Totals) : Prop :=
  forall name, p name = true ->
    (name ∉ keys (new_libs t)) /\ (name ∉ keys (updated_libs t))
    /\ (name ∉ keys (open_issues_by_repo t)) /\ (name ∉ keys (open_prs_by_repo t)).

(** The decimal rendering of an integer, as one writes it by hand: the
    digits of its absolute value, the most significant first and no zero
    before them, after a minus sign when the integer is negative.  The
    digits come out of the divisions by ten, the last one first; [fuel]
    bounds their number. *)
Definition digit_char (d : N) : ascii := ascii_of_N (48 + d).

Fixpoint digits_of (fuel : nat) (n : N) (acc : string) : string :=
  match fuel with
  | O => acc
  | S k =>
      let acc := String (digit_char (n mod 10)) acc in
      if (n / 10 =? 0)%N then acc else digits_of k (n / 10) acc
  end.

Definition decimal (n : Z) : string :=
  let s := digits_of (S (N.to_nat (Z.abs_N n))) (Z.abs_N n) EmptyString in
  if n <? 0 then String "-" s else s.

(** In the turn of the loop on [repo] that starts in the world [w0], the
    validator is called and answers [errors]: the calls of the turn before
    it return, and it is called in the world they leave. *)
Definition validator_answers
    (is_new_or_updated : Repo -> M (option string))
    (run_repo_validation : Repo -> M (list error_signal))
    (repo : Repo) (w0 : World) (errors : list error_signal) : Prop :=
  exists check_releases wa open_items wb contribs wc wd,
    is_new_or_updated repo w0 = (Ret check_releases, wa)
    /\ get_open_issues_and_prs repo wa = (Ret open_items, wb)
    /\ get_contributors repo wb = (Ret contribs, wc)
    /\ run_repo_validation repo wc = (Ret errors, wd).

(** Case-insensitive ascending order of a list of keys. *)
Definition ascending (l : list string) : Prop :=
  Sorted (fun a b => lower_leb a b = true) l.

End Views.

Import Views.

(** ** Concrete runs *)

Module Scenario.

Import UpdateCpOrgLibraries.

Definition answer (b : json) : reply :=
  Answer (mkResponse true [] EmptyString (Some b)).

Definition refusal : reply :=
  Answer (mkResponse false [] "Not Found" None).

(** A response that leaves one call, with the quota reset four seconds
    after 2019-06-01T12:34:56. *)
Definition rate_limited : Response :=
  mkResponse true
    [("X-RateLimit-Remaining", "1"); ("X-RateLimit-Reset", "1559392500")]
    EmptyString (Some (JArr [])).

Definition quiet (t : datetime) (replies : list reply) : World :=
  mkWorld t [] 0 [] replies [] [].

Definition world_rate_limited : World :=
  mkWorld (make 2019 6 1 12 34 56) [3%N; 500000%N; 7%N] 0 [] [Answer rate_limited] [] [].

Definition with_accept : Kwargs :=
  mkKwargs (Some [("Accept", "application/json")]) None None None.

Definition library : Repo :=
  mkRepo "Adafruit_CircuitPython_BME280"
    "https://github.com/adafruit/Adafruit_CircuitPython_BME280" [].

Definition pull (merged_at : json) (login url : string) : json :=
  JObj [("url", JStr url); ("user", JObj [("login", JStr login)]);
        ("merged_at", merged_at)].

(** Merged two days before 2019-06-03. *)
Definition merged_pr : json :=
  pull (JStr "2019-06-01T12:00:00Z") "alice"
    "https://api.github.com/repos/adafruit/Adafruit_CircuitPython_BME280/pulls/7".

(** Merged a month before. *)
Definition old_pr : json :=
  pull (JStr "2019-05-01T12:00:00Z") "carol"
    "https://api.github.com/repos/adafruit/Adafruit_CircuitPython_BME280/pulls/5".

(** Closed without a merge. *)
Definition unmerged_pr : json :=
  pull JNull "bob"
    "https://api.github.com/repos/adafruit/Adafruit_CircuitPython_BME280/pulls/6".

Definition june_3 : datetime := make 2019 6 3 0 0 0.

(** The listing holds one merged pull request and the request for its
    detail is refused. *)
Definition world_detail_refused : World :=
  quiet june_3 [answer (JArr [merged_pr]); refusal].

(** A page that crosses the boundary of the window; detail and reviews of
    the one pull request in the window are served. *)
Definition world_page : World :=
  quiet june_3
    [answer (JArr [merged_pr; unmerged_pr; old_pr]);
     answer (JObj [("url", JStr "https://api.github.com/repos/adafruit/Adafruit_CircuitPython_BME280/pulls/7");
                   ("merged_by", JObj [("login", JStr "dan")])]);
     answer (JArr [JObj [("state", JStr "APPROVED"); ("user", JObj [("login", JStr "erin")])];
                   JObj [("state", JStr "COMMENTED"); ("user", JObj [("login", JStr "fay")])]])].

Definition master_ref : json := JObj [("object", JObj [("sha", JStr "c0ffee")])].
Definition contents : json := JObj [("sha", JStr "b10b")].

Definition branch_exists : Response :=
  mkResponse false [] "422"
    (Some (JObj [("message", JStr "Reference already exists")])).

(** Both look-ups succeed, the branch is there already, the update and the
    pull request are accepted. *)
Definition world_branch_exists : World :=
  quiet june_3
    [answer master_ref; answer contents; Answer branch_exists;
     answer JNull; answer JNull].

Definition other_library : Repo :=
  mkRepo "adafruit_circuitpython_ads1x15"
    "https://github.com/adafruit/Adafruit_CircuitPython_ADS1x15" [].

Definition bundle : Repo :=
  mkRepo "Adafruit_CircuitPython_Bundle"
    "https://github.com/adafruit/Adafruit_CircuitPython_Bundle" [].

Definition umbrella : Repo :=
  mkRepo "circuitpython" "https://github.com/adafruit/circuitpython" [].

Definition ignore : list string := ["Adafruit_CircuitPython_Bundle"].
Definition handler : string := "output_handler".

(** A classifier that finds every library new, and a validator that
    misses a readme everywhere and a license, for five days, in
    [library]. *)
Definition classifier (repo : Repo) : M (option string) := mret (Some "new").

Definition validator (repo : Repo) : M (list error_signal) :=
  mret (if String.eqb (repo_name repo) (repo_name library)
        then [Timed "missing_license" 5; Bare "missing_readme"]
        else [Bare "missing_readme"]).

(** A network that refuses the four queries of a run over two
    libraries. *)
Definition world_refusing : World :=
  quiet june_3 [refusal; refusal; refusal; refusal].

Definition run (repos : list Repo) : result Totals * World :=
  aggregate ignore handler classifier validator repos world_refusing.

Definition totals_of (r : result Totals * World) : Totals :=
  match fst r with
  | Ret t => t
  | _ => no_totals
  end.

Definition issue (url title : string) : json :=
  JObj [("html_url", JStr url); ("title", JStr title)].

Definition pull_item (url title : string) : json :=
  JObj [("html_url", JStr url); ("title", JStr title);
        ("pull_request", JObj [("url", JStr url)])].

Definition open_items : list json :=
  [issue "https://github.com/adafruit/Adafruit_CircuitPython_BME280/issues/3" "Altitude";
   pull_item "https://github.com/adafruit/Adafruit_CircuitPython_BME280/pull/9" "Fix";
   issue "https://github.com/adafruit/Adafruit_CircuitPython_BME280/issues/4" "Docs"].

Definition world_open_items : World := quiet june_3 [answer (JArr open_items)].

Definition issues_query : Kwargs := params [("state", "open")].

Definition pulls_query : Kwargs :=
  params [("state", "closed"); ("sort", "updated"); ("direction", "desc")].

End Scenario.

(** ** The head of [__main__]: the gate of the scheduled runs *)

Module Entry.

Import UpdateCpOrgLibraries.

(** [t.toordinal()] and [t.isoweekday()]: Monday is 1, Sunday is 7. *)
Definition toordinal (t : datetime) : Z := t / us_per_day + 1.

Definition isoweekday (t : datetime) : Z :=
  let r := toordinal t mod 7 in
  if r =? 0 then 7 else r.

(** [datetime.timedelta(days=n)] *)
Definition timedelta (n : Z) : M Z :=
  if (n <? -999999999) || (999999999 <? n) then raise OverflowError
  else mret (timedelta_days n).

(** [t + d] for a datetime and a timedelta. *)
Definition plus (t : datetime) (d : Z) : M datetime :=
  let r := t + d in
  if (r <? dt_min) || (dt_end <=? r) then raise OverflowError else mret r.

(** [os.environ[name]] *)
Definition getenv (name : string) : M string := fun w =>
  lift_opt (KeyError name) (dict_get name (environ w)) w.

(** From [run_time = datetime.datetime.now()] to the end of the test of
    the day: the value is [None] when the program leaves through
    [sys.exit()], and the time of the run when it goes on. *)
Definition gate : M (option datetime) :=
  run_time ← now;
  travis ← in_environ "TRAVIS";
  if travis : bool then
    d ← getenv "CP_ORG_UPDATER_RUN_DAY";
    should_run ← int d;
    if negb (isoweekday run_time =? should_run) then
      let delta_days := should_run - isoweekday run_time in
      run_delta ← timedelta delta_days;
      should_run_date ← plus run_time run_delta;
      mret None
    else mret (Some run_time)
  else mret (Some run_time).

Section Program.

Variable BUNDLE_IGNORE_LIST : list string.
Variable ERROR_OUTPUT_HANDLER : string.
Variable is_new_or_updated : Repo -> M (option string).
Variable run_repo_validation : Repo -> M (list error_signal).

(** [common_funcs.list_repos()], and the making of the validator
    ([inspect.getmembers], [common_funcs.get_bundle_submodules()],
    [cpy_vals.library_validator(...)]). *)
Variable list_repos : M (list Repo).
Variable make_validator : M unit.

(** [__main__] as a whole; the value is the text of the report, or [None]
    after [sys.exit()]. *)
Definition program : M (option string) :=
  go ← gate;
  match go with
  | None => mret None
  | Some run_time =>
      repos ← list_repos;
      make_validator;;
      json_obj ← main BUNDLE_IGNORE_LIST ERROR_OUTPUT_HANDLER is_new_or_updated
                   run_repo_validation run_time repos;
      mret (Some json_obj)
  end.

End Program.

End Entry.

(** ** What the further properties are stated with *)

Module Observations.

Import GithubRequests UpdateCpOrgLibraries.

(** The operation of the client for a verb. *)
Definition client (v : verb) : string -> Kwargs -> M Response :=
  match v with
  | GET => get
  | POST => post
  | PUT => put
  | PATCH => patch
  | DELETE => delete
  end.

Definition hellcat : string := "application/vnd.github.hellcat-preview+json".

(** The sleeps of a trace, in seconds. *)
Fixpoint naps_of (tr : list event) : list Z :=
  match tr with
  | [] => []
  | EvSleep n :: r => n :: naps_of r
  | EvRequest _ _ _ _ _ :: r => naps_of r
  end.

(** A sleep that lasts a second at least and a day at most. *)
Definition nap_ok (n : Z) : Prop := 1 <= n <= 86400.

(** An event that changes nothing on the server: a sleep or a GET. *)
Definition reads_only (e : event) : Prop :=
  match e with
  | EvSleep _ => True
  | EvRequest GET _ _ _ _ => True
  | EvRequest _ _ _ _ _ => False
  end.

(** The events a computation adds to the trace all satisfy [P],
    however it ends. *)
Definition adds (P : event -> Prop) {A} (m : M A) : Prop :=
  forall w, exists evs, trace (snd (m w)) = (trace w ++ evs)%list /\ Forall P evs.

(** A computation leaves the environment of the process as it found it,
    however it ends. *)
Definition keeps_environ {A} (m : M A) : Prop :=
  forall w, environ (snd (m w)) = environ w.

(** A computation comes to an end, with a value or with an exception. *)
Definition settles {A} (m : M A) : Prop := forall w, fst (m w) <> Hang.

(** The number of requests between two worlds of a run. *)
Definition requests_made (w w' : World) : Z :=
  Z.of_nat (length (requests_of (trace w'))) - Z.of_nat (length (requests_of (trace w))).

(** [v[who]["login"]] is the string [l]. *)
Definition has_login (who : string) (v : json) (l : string) : Prop :=
  exists d du,
    v = JObj d /\ dict_get who d = Some (JObj du)
    /\ dict_get "login" du = Some (JStr l).

(** A review whose state, in any case, is "approved". *)
Definition approved (review : json) : bool :=
  match review with
  | JObj d =>
      match dict_get "state" d with
      | Some (JStr s) => String.eqb (lower s) "approved"
      | _ => false
      end
  | _ => false
  end.

(** The login of the author of a review. *)
Definition reviewer_of (review : json) : string := author_of review.

(** The name of the branch of a publication started at [commit_date]. *)
Definition branch_of (commit_date : datetime) : string :=
  "libraries_update_" ++ strftime_dby commit_date.

Definition commit_msg_of (commit_date : datetime) : string :=
  "Automated Libraries update for " ++ strftime_dby commit_date.

(** The bodies of the three writes of a publication. *)
Definition branch_info_of (commit_date : datetime) (commit_sha : string) : json :=
  JObj [("ref", JStr ("refs/heads/" ++ branch_of commit_date));
        ("sha", JStr commit_sha)].

Definition update_json_of (commit_date : datetime) (blob_sha : json)
    (json_string : string) : json :=
  JObj [("message", JStr (commit_msg_of commit_date));
        ("content", JStr (Codec.b64encode (Codec.utf8 json_string ++ [10%N])%list));
        ("sha", blob_sha);
        ("branch", JStr (branch_of commit_date))].

Definition pr_info_of (commit_date : datetime) : json :=
  JObj [("title", JStr (commit_msg_of commit_date));
        ("head", JStr ("adafruit-adabot:" ++ branch_of commit_date));
        ("base", JStr "master");
        ("body", JStr (commit_msg_of commit_date));
        ("maintainer_can_modify", JBool true)].

(** The two look-ups of a publication started in the world [w] succeed:
    the head of master is the commit [commit_sha], the file at that commit
    is the blob [blob_sha], and the second look-up leaves the world
    [w2]. *)
Definition looked_up (w : World) (commit_sha : string) (blob_sha : json)
    (w2 : World) : Prop :=
  exists r1 w1 j1 o r2 j2,
    github.get (master_url ++ "git/refs/heads/master") no_kwargs (tick w) = (Ret r1, w1)
    /\ ok r1 = true /\ body r1 = Some j1
    /\ member "object" j1 = inr o /\ member "sha" o = inr (JStr commit_sha)
    /\ github.get (master_url ++ "contents/_data/libraries.json?ref=" ++ commit_sha)
         no_kwargs w1 = (Ret r2, w2)
    /\ ok r2 = true /\ body r2 = Some j2 /\ member "sha" j2 = inr blob_sha.

(** [update_json_file] from the creation of the branch on. *)
Definition writes (commit_date : datetime) (commit_sha : string) (blob_sha : json)
    (json_string : string) : M unit :=
  response ← github.post (fork_url ++ "git/refs")
               (json_body (branch_info_of commit_date commit_sha));
  (if negb (ok response) then
     j ← json_of response;
     message ← lift (member "message" j);
     if negb (is_str "Reference already exists" message)
     then raise (RuntimeError ("Failed to create branch:" ++ nl ++ text response))
     else mret tt
   else mret tt);;
  response ← github.put (fork_url ++ "contents/_data/libraries.json")
               (json_body (update_json_of commit_date blob_sha json_string));
  (if negb (ok response)
   then raise (RuntimeError ("Failed to update libraries.json:" ++ nl ++ text response))
   else mret tt);;
  response ← github.post (master_url ++ "pulls") (json_body (pr_info_of commit_date));
  if negb (ok response)
  then raise (RuntimeError ("Failed to create pull request:" ++ nl ++ text response))
  else mret tt.

(** An event of the publication: a request to the upstream repository or
    to the fork, never a PATCH or a DELETE, or a sleep. *)
Definition publishes_only (e : event) : Prop :=
  match e with
  | EvSleep _ => True
  | EvRequest v url _ _ _ =>
      (v = GET \/ v = POST \/ v = PUT)
      /\ (String.prefix ("https://api.github.com" ++ master_url) url = true
          \/ String.prefix ("https://api.github.com" ++ fork_url) url = true)
  end.

(** The writes of a trace: its requests other than GET, each with its
    JSON body. *)
Fixpoint written (tr : list event) : list (verb * string * option json) :=
  match tr with
  | [] => []
  | EvSleep _ :: r => written r
  | EvRequest GET _ _ _ _ :: r => written r
  | EvRequest v url _ kwargs _ :: r => (v, url, kw_json kwargs) :: written r
  end.

(** [p] holds of the [n] numbers from [z] on. *)
Fixpoint all_from (n : nat) (z : Z) (p : Z -> bool) : bool :=
  match n with
  | O => true
  | S k => p z && all_from k (z + 1) p
  end.

(** The date of the day [n] days after 0001-01-01 is a date of the
    calendar, in the first 400 years, and [ymd2ord] leads back from it. *)
Definition date_ok (n : Z) : bool :=
  let '(y, m, d) := ord2ymd (n + 1) in
  (1 <=? y) && (y <=? 400) && (1 <=? m) && (m <=? 12) && (1 <=? d)
  && (d <=? days_in_month y m) && (ymd2ord y m d =? n + 1).

(** [strptime] reads [n] back from its [width] digits: the first
    alternative of the group that matches takes them all. *)
Definition field_ok (alts : list (list (ascii -> bool))) (width : nat) (n : Z) : bool :=
  match group alts (pad width n) with
  | (t, EmptyString) :: _ =>
      String.eqb t (pad width n)
      && match int_of_str t with Some v => v =? n | None => false end
      && (String.length t =? width)%nat
  | _ => false
  end.

(** No key of a dictionary of lists holds the empty list. *)
Definition no_empty_list {V} (d : dict (list V)) : Prop :=
  forall k l, dict_get k d = Some l -> l <> [].

(** The keys of a list are pairwise different, also up to case. *)
Definition distinct_up_to_case (l : list string) : Prop := NoDup (map lower l).

End Observations.

Import Observations.

(** ** Further concrete runs *)

Module Cases.

Import UpdateCpOrgLibraries Scenario.

(** No network. *)
Definition world_down : World := quiet june_3 [].

(** A response without rate-limit headers. *)
Definition world_served : World := quiet june_3 [answer JNull].

Definition world_refused : World := quiet june_3 [refusal].

(** The quota is used up, the reset is four seconds ahead, and nothing
    delays the process. *)
Definition world_steady : World :=
  quiet (make 2019 6 1 12 34 56) [Answer rate_limited].

(** The same, on a machine that takes one second to get the response and
    two seconds between any two readings of the clock after it. *)
Definition world_slow : World :=
  mkWorld (make 2019 6 1 12 34 56) [1000000%N; 2000000%N; 2000000%N] 0 []
    [Answer rate_limited] [] [].

(** A count of remaining calls that is no number. *)
Definition unreadable : Response :=
  mkResponse true [("X-RateLimit-Remaining", "soon")] EmptyString None.

Definition world_unreadable : World := quiet june_3 [Answer unreadable].

Definition token_env : dict string := [("ADABOT_GITHUB_ACCESS_TOKEN", "s3cret")].

(** The detail and the reviews of [merged_pr], as [world_page] serves
    them. *)
Definition world_reviews : World := quiet june_3 (tl (wire world_page)).

(** One library has open items, and the listing of its pull requests is
    refused. *)
Definition world_one_library : World :=
  quiet june_3 [answer (JArr open_items); refusal].

(** The same two bindings, in two orders. *)
Definition first_order : dict string := [("b", "1"); ("A", "2")].
Definition second_order : dict string := [("A", "2"); ("b", "1")].

(** A scheduled run on Monday 2019-06-03, with the day of the runs set
    to [day], or not set. *)
Definition world_on_travis (day : option string) : World :=
  mkWorld june_3 [] 0
    (("TRAVIS", "true")
     :: match day with
        | Some d => [("CP_ORG_UPDATER_RUN_DAY", d)]
        | None => []
        end)
    [] [] [].

(** The quota is used up; the request goes out half a second before the
    reset and the loop first reads the clock half a second after it. *)
Definition world_late : World :=
  mkWorld (make 2019 6 1 12 34 56) [3500000%N; 1000000%N] 0 []
    [Answer rate_limited] [] [].

(** Merged a day before 2019-06-03, by the author of [merged_pr]. *)
Definition second_pr : json :=
  pull (JStr "2019-06-02T08:00:00Z") "alice"
    "https://api.github.com/repos/adafruit/Adafruit_CircuitPython_BME280/pulls/8".

(** One library without open items, with two pull requests merged in the
    window whose details are refused. *)
Definition world_two_merges : World :=
  quiet june_3 [refusal; answer (JArr [merged_pr; second_pr]); refusal; refusal].

Definition listing : M (list Repo) := mret [library].
Definition making : M unit := mret tt.

(** A scheduled run over one library whose two listings are refused, and
    whose publication goes through. *)
Definition world_travis_run : World :=
  mkWorld june_3 [] 0 [("TRAVIS", "true")]
    [refusal; refusal; answer master_ref; answer contents; answer JNull;
     answer JNull; answer JNull] [] [].

End Cases.

(** * Properties of the embedding *)

Import GithubRequests UpdateCpOrgLibraries.

(** ** The models of the library functions, on known values *)

Example int_of_str_examples :
  int_of_str " 4_999 " = Some 4999 /\ int_of_str "-1" = Some (-1)
  /\ int_of_str "1__0" = None /\ int_of_str "12a" = None.
Proof. repeat split; reflexivity. Qed.

Example strptime_example :
  strptime "2019-06-01T12:34:56Z" = Some (epoch + 1559392496 * us_per_second)
  /\ strptime "2019-02-29T00:00:00Z" = None.
Proof. split; vm_compute; reflexivity. Qed.

(** [strptime] does not ask for the padding, nor for the case of the
    letters; it refuses a second 60 and what follows the match. *)
Example strptime_lenient :
  strptime "2019-6-1t2:4:6z" = strptime "2019-06-01T02:04:06Z"
  /\ strptime "2019-06- 1T02:04:06Z" = strptime "2019-06-01T02:04:06Z"
  /\ strptime "2019-06-01T02:04:06Z" = Some (make 2019 6 1 2 4 6)
  /\ strptime "2019-06-01T02:04:60Z" = None
  /\ strptime "2019-06-01T24:00:00Z" = None
  /\ strptime "2019-06-01T02:04:06Z " = None
  /\ strptime " 2019-06-01T02:04:06Z" = None.
Proof. repeat split; vm_compute; reflexivity. Qed.

Example strftime_examples :
  strftime_iso (make 2020 2 29 23 59 59) = "2020-02-29T23:59:59Z"
  /\ strftime_dby (make 2019 6 3 0 0 0) = "03-Jun-19".
Proof. split; reflexivity. Qed.

Example td_seconds_examples :
  td_seconds (-1) = 86399 /\ td_seconds (3 * us_per_day + 5500000) = 5.
Proof. split; reflexivity. Qed.

Example b64encode_examples :
  Codec.b64encode (Codec.utf8 "Man") = "TWFu"
  /\ Codec.b64encode (Codec.utf8 "Ma") = "TWE="
  /\ Codec.b64encode (Codec.utf8 "M") = "TQ==".
Proof. repeat split; reflexivity. Qed.

Example dumps_example :
  dumps (JObj [("a", JArr [JNum 1; JStr "x"; JArr []]); ("b", JObj [])])
  = "{" ++ newline_indent 1 ++ dquote ++ "a" ++ dquote ++ ": ["
    ++ newline_indent 2 ++ "1,"
    ++ newline_indent 2 ++ dquote ++ "x" ++ dquote ++ ","
    ++ newline_indent 2 ++ "[]"
    ++ newline_indent 1 ++ "],"
    ++ newline_indent 1 ++ dquote ++ "b" ++ dquote ++ ": {}"
    ++ newline_indent 0 ++ "}".
Proof. reflexivity. Qed.

Example sorted_by_lower_example :
  sorted_by_lower ["b"; "C"; "a"; "B"] = ["a"; "b"; "B"; "C"].
Proof. reflexivity. Qed.

(** ** Running computations *)

Lemma bind_run {A B} (m : M A) (f : A -> M B) (w : World) :
  (m ≫= f) w =
  match m w with
  | (Ret a, w') => f a w'
  | (Raise e, w') => (Raise e, w')
  | (Hang, w') => (Hang, w')
  end.
Proof. reflexivity. Qed.

Lemma bind_ret {A B} (m : M A) (f : A -> M B) (w w' : World) (a : A) :
  m w = (Ret a, w') -> (m ≫= f) w = f a w'.
Proof. intros H. rewrite bind_run, H. reflexivity. Qed.

(** A bind returns only if its first part does. *)
Lemma bind_inv {A B} (m : M A) (f : A -> M B) (w w' : World) (b : B) :
  (m ≫= f) w = (Ret b, w') ->
  exists a w1, m w = (Ret a, w1) /\ f a w1 = (Ret b, w').
Proof.
  rewrite bind_run. destruct (m w) as [[a | e |] w1]; intros H; try discriminate.
  exists a, w1. split; [reflexivity | exact H].
Qed.

Lemma ret_run {A} (a : A) (w : World) : (mret a : M A) w = (Ret a, w).
Proof. reflexivity. Qed.

(** Unfolds the binds and returns that are applied to a world. *)
Ltac mrun := repeat first [rewrite bind_run | rewrite ret_run | progress cbv beta].

(** The same in a hypothesis, with the pure steps on decoded values. *)
Ltac mrun_in H :=
  repeat first
    [ rewrite bind_run in H | rewrite ret_run in H
    | progress cbn [lift lift_opt raise contains member as_str str_of iterate json_of] in H
    | progress cbv beta in H ].

(** Splits a run that returned into the runs of its parts. *)
Ltac binds H :=
  repeat (let a := fresh "a" in
          let w := fresh "w" in
          let E := fresh "E" in
          apply bind_inv in H as (a & w & E & H)).

Ltac returned H :=
  first [rewrite ret_run in H | unfold mret, M_ret in H];
  inversion H; subst; clear H.

(** A list with something inserted is another list. *)
Lemma app_cons_neq {A} (l more : list A) (x : A) : (l ++ x :: more)%list <> l.
Proof.
  intros H. apply (f_equal (@length A)) in H. rewrite length_app in H.
  cbn [length] in H. lia.
Qed.

(** ** Dictionaries *)

Lemma dict_get_set_eq {V} (k : string) (v : V) (d : dict V) :
  dict_get k (dict_set k v d) = Some v.
Proof.
  induction d as [| [k' v'] r IH]; simpl.
  - rewrite String.eqb_refl. reflexivity.
  - destruct (String.eqb k k') eqn:E; simpl; rewrite E; [reflexivity | exact IH].
Qed.

Lemma dict_get_set_ne {V} (k k' : string) (v : V) (d : dict V) :
  k <> k' -> dict_get k' (dict_set k v d) = dict_get k' d.
Proof.
  intros Hne. induction d as [| [k0 v0] r IH]; simpl.
  - destruct (String.eqb_spec k' k); [congruence | reflexivity].
  - destruct (String.eqb_spec k k0) as [-> | Hk]; simpl.
    + destruct (String.eqb_spec k' k0); [congruence | reflexivity].
    + destruct (String.eqb_spec k' k0); [reflexivity | exact IH].
Qed.

Lemma dict_get_Some_keys {V} (k : string) (d : dict V) (v : V) :
  dict_get k d = Some v -> k ∈ keys d.
Proof.
  induction d as [| [k' v'] r IH]; simpl; [discriminate |].
  destruct (String.eqb_spec k k') as [-> | Hk]; intros H.
  - apply list_elem_of_here.
  - apply list_elem_of_further, IH, H.
Qed.

Lemma dict_get_None_keys {V} (k : string) (d : dict V) :
  dict_get k d = None -> k ∉ keys d.
Proof.
  induction d as [| [k' v'] r IH]; simpl; intros H Hin.
  - inversion Hin.
  - destruct (String.eqb_spec k k') as [-> | Hk]; [discriminate |].
    inversion Hin; subst; [congruence | exact (IH H ltac:(assumption))].
Qed.

Lemma keys_dict_set_in {V} (k : string) (v : V) (d : dict V) :
  k ∈ keys d -> keys (dict_set k v d) = keys d.
Proof.
  induction d as [| [k' v'] r IH]; simpl; intros Hin.
  - inversion Hin.
  - destruct (String.eqb_spec k k') as [-> | Hk]; [reflexivity |].
    simpl. f_equal. apply IH. inversion Hin; subst; [congruence | assumption].
Qed.

Lemma keys_dict_set_fresh {V} (k : string) (v : V) (d : dict V) :
  k ∉ keys d -> keys (dict_set k v d) = (keys d ++ [k])%list.
Proof.
  induction d as [| [k' v'] r IH]; simpl; intros Hin; [reflexivity |].
  destruct (String.eqb_spec k k') as [-> | Hk].
  - exfalso. apply Hin, list_elem_of_here.
  - simpl. f_equal. apply IH. intros H. apply Hin, list_elem_of_further, H.
Qed.

(** Setting a key adds no key but that one. *)
Lemma keys_dict_set_sub {V} (k : string) (v : V) (d : dict V) (x : string) :
  x ∈ keys (dict_set k v d) -> x = k \/ x ∈ keys d.
Proof.
  destruct (decide (k ∈ keys d)) as [Hin | Hin].
  - rewrite keys_dict_set_in by assumption. auto.
  - rewrite keys_dict_set_fresh by assumption.
    rewrite elem_of_app, list_elem_of_singleton. tauto.
Qed.


Lemma prefix_app (a b : string) : String.prefix a (a ++ b) = true.
Proof.
  induction a as [| c a IH]; simpl.
  - destruct b; reflexivity.
  - destruct (ascii_dec c c); [exact IH | congruence].
Qed.

(** ** The request client *)

Section Client.

Lemma tick_trace (w : World) : trace (tick w) = trace w.
Proof. unfold tick. destruct (lags w); reflexivity. Qed.

Lemma tick_wire (w : World) : wire (tick w) = wire w.
Proof. unfold tick. destruct (lags w); reflexivity. Qed.

Lemma tick_utcoffset (w : World) : utcoffset (tick w) = utcoffset w.
Proof. unfold tick. destruct (lags w); reflexivity. Qed.

(** The clock never runs backwards. *)
Lemma tick_clock (w : World) : clock w <= clock (tick w).
Proof. unfold tick. destruct (lags w) as [| d ls]; simpl; lia. Qed.

Lemma call_run (v : verb) (url : string) (kwargs : Kwargs) (w : World) :
  call v url kwargs w =
  let w1 := log (EvRequest v (_fix_url url) 30 (_fix_kwargs (environ w) kwargs)
                   (clock (tick w))) (tick w) in
  match wire w with
  | [] => (Raise ConnectionError, w1)
  | Answer r :: rs => (Ret r, set_wire rs w1)
  | Failure e :: rs => (Raise e, set_wire rs w1)
  end.
Proof.
  unfold call, requests_call. simpl. rewrite tick_wire. reflexivity.
Qed.

(** A request is stamped with a time that is not before the clock it
    starts from, and it is the one event the call adds. *)
Lemma call_trace (v : verb) (url : string) (kwargs : Kwargs) (w : World) :
  trace (snd (call v url kwargs w))
  = (trace w ++ [EvRequest v (_fix_url url) 30 (_fix_kwargs (environ w) kwargs)
                   (clock (tick w))])%list.
Proof.
  rewrite call_run. simpl.
  destruct (wire w) as [| [r | e] rs]; simpl; rewrite tick_trace; reflexivity.
Qed.

Lemma td_seconds_nonneg (d : Z) : 0 <= td_seconds d.
Proof.
  unfold td_seconds. apply Z.div_pos; [| reflexivity].
  apply Z.mod_pos_bound. reflexivity.
Qed.

(** The loop of [get] ends within the turns it is given, past the reset
    time, having done nothing but sleep. *)
Lemma pause_loop_returns (rate_limit_reset : datetime) (fuel : nat) :
  forall w : World,
    (Z.to_nat ((rate_limit_reset - clock w) / us_per_second + 1) < fuel)%nat ->
    exists w' naps,
      pause_loop fuel rate_limit_reset w = (Ret tt, w')
      /\ rate_limit_reset <= clock w'
      /\ trace w' = (trace w ++ map EvSleep naps)%list
      /\ wire w' = wire w.
Proof.
  induction fuel as [| fuel IH]; intros w Hfuel; [lia |].
  simpl. rewrite bind_run. unfold now at 1.
  pose proof (tick_clock w) as Hc.
  destruct (clock (tick w) <? rate_limit_reset) eqn:Hlt.
  - apply Z.ltb_lt in Hlt.
    rewrite bind_run. unfold in_environ at 1.
    assert (Hstep : forall w2 nap,
               clock w + us_per_second <= clock w2 ->
               trace w2 = (trace w ++ [EvSleep nap])%list ->
               wire w2 = wire w ->
               exists w' naps,
                 pause_loop fuel rate_limit_reset w2 = (Ret tt, w')
                 /\ rate_limit_reset <= clock w'
                 /\ trace w' = (trace w ++ map EvSleep naps)%list
                 /\ wire w' = wire w).
    { intros w2 nap Hc2 Ht2 Hw2.
      destruct (IH w2) as (w' & naps & Hr & Hp & Htr & Hwi).
      - unfold us_per_second in *.
        assert ((rate_limit_reset - clock w2) / 1000000
                <= (rate_limit_reset - clock w) / 1000000 - 1).
        { transitivity ((rate_limit_reset - clock w + (-1) * 1000000) / 1000000).
          - apply Z.div_le_mono; lia.
          - rewrite Z.div_add by lia. lia. }
        assert (0 <= (rate_limit_reset - clock w) / 1000000)
          by (apply Z.div_pos; lia).
        lia.
      - exists w', (nap :: naps). repeat split; try assumption.
        + rewrite Htr, Ht2. rewrite <- app_assoc. reflexivity.
        + congruence. }
    destruct (dict_has "TRAVIS" (environ (tick w))).
    + rewrite bind_run. simpl.
      eapply Hstep; simpl.
      * unfold us_per_second in *. lia.
      * rewrite tick_trace. reflexivity.
      * apply tick_wire.
    + rewrite bind_run. rewrite bind_run. unfold now at 1. simpl.
      pose proof (tick_clock (tick w)) as Hc'.
      pose proof (td_seconds_nonneg (rate_limit_reset - clock (tick (tick w)))) as Hs.
      eapply Hstep; simpl.
      * unfold us_per_second in *. nia.
      * rewrite !tick_trace. reflexivity.
      * rewrite !tick_wire. reflexivity.
  - apply Z.ltb_ge in Hlt. exists (tick w), []. simpl.
    rewrite app_nil_r, tick_trace, tick_wire. auto.
Qed.

Lemma pause_loop_S (fuel : nat) (rate_limit_reset : datetime) :
  pause_loop (S fuel) rate_limit_reset
  = (t ← now;
     if t <? rate_limit_reset then
       travis ← in_environ "TRAVIS";
       (if travis : bool then sleep 300
        else
          t' ← now;
          let reset_diff := rate_limit_reset - t' in
          sleep (td_seconds reset_diff + 1));;
       pause_loop fuel rate_limit_reset
     else mret tt).
Proof. reflexivity. Qed.

(** The bound on the turns does not show in the outcome: a loop that ends
    within [fuel] turns ends the same way within more. *)
Lemma pause_loop_more_fuel (rate_limit_reset : datetime) (fuel : nat) :
  forall (w w' : World) (r : result unit),
    pause_loop fuel rate_limit_reset w = (r, w') ->
    r <> Hang ->
    pause_loop (S fuel) rate_limit_reset w = (r, w').
Proof.
  induction fuel as [| fuel IH]; intros w w' r H Hr.
  - cbn in H. injection H as <- _. contradiction.
  - rewrite pause_loop_S in H. rewrite pause_loop_S.
    rewrite bind_run in H. rewrite bind_run.
    destruct (now w) as [[t | e |] w1]; try exact H.
    destruct (t <? rate_limit_reset); [| exact H].
    rewrite bind_run in H. rewrite bind_run.
    destruct (in_environ "TRAVIS" w1) as [[travis | e |] w2]; try exact H.
    rewrite bind_run in H. rewrite bind_run.
    match type of H with
    | (let (_, _) := ?m in _) = _ => destruct m as [[u | e |] w3]; try exact H
    end.
    apply IH; assumption.
Qed.

(** The pause always comes to an end. *)
Lemma pause_returns (rate_limit_reset : datetime) (w : World) :
  exists w', pause rate_limit_reset w = (Ret tt, w') /\ rate_limit_reset <= clock w'.
Proof.
  destruct (pause_loop_returns rate_limit_reset (turns rate_limit_reset w) w)
    as (w' & naps & H & Hc & _); [unfold turns; lia |].
  exists w'. split; assumption.
Qed.

(** [get] never stays in its loop for ever: [Hang] is not an outcome of
    it. *)
Lemma get_never_hangs (url : string) (kwargs : Kwargs) (w : World) :
  fst (get url kwargs w) <> Hang.
Proof.
  unfold get. rewrite bind_run, call_run. cbv zeta.
  destruct (wire w) as [| [response | e] rs]; try discriminate.
  destruct (ci_get "X-RateLimit-Remaining" (headers response)) as [h |];
    [| discriminate].
  rewrite bind_run. unfold int at 1.
  destruct (int_of_str h) as [remaining |]; [| discriminate].
  cbn [lift_opt]. rewrite ret_run, bind_run.
  destruct (remaining <=? 1); [| discriminate].
  rewrite bind_run.
  destruct (ci_get "X-RateLimit-Reset" (headers response)) as [h' |]; [| discriminate].
  cbn [lift_opt]. rewrite ret_run, bind_run. unfold int at 1.
  destruct (int_of_str h') as [t |]; [| discriminate].
  cbn [lift_opt]. rewrite ret_run, bind_run. cbv beta.
  match goal with
  | |- context [fromtimestamp ?o t] => destruct (fromtimestamp o t) as [e | reset]
  end; [discriminate |].
  cbn [lift]. rewrite ret_run.
  match goal with
  | |- context [pause reset ?w1] =>
      destruct (pause_returns reset w1) as (w' & Hp & _); rewrite Hp
  end.
  discriminate.
Qed.

(** C1. When the response to a GET carries a remaining-calls header whose
    value is at most 1, and the companion reset header gives the time
    [rate_limit_reset], then [get] returns that response only once the clock
    has reached [rate_limit_reset]: after its own request it does nothing but
    sleep, turn after turn of its loop, and the next request of the client,
    whatever its verb, is stamped at or after the reset time. *)
Theorem get_blocks_until_reset
    (url : string) (kwargs : Kwargs) (w : World)
    (response : Response) (rest : list reply)
    (h h' : string) (remaining t : Z) (rate_limit_reset : datetime) :
  wire w = Answer response :: rest ->
  ci_get "X-RateLimit-Remaining" (headers response) = Some h ->
  int_of_str h = Some remaining ->
  remaining <= 1 ->
  ci_get "X-RateLimit-Reset" (headers response) = Some h' ->
  int_of_str h' = Some t ->
  fromtimestamp (utcoffset w) t = inr rate_limit_reset ->
  exists w' naps,
    get url kwargs w = (Ret response, w')
    /\ rate_limit_reset <= clock w'
    /\ trace w'
       = (trace w
          ++ EvRequest GET (_fix_url url) 30 (_fix_kwargs (environ w) kwargs)
               (clock (tick w))
          :: map EvSleep naps)%list
    /\ wire w' = rest
    /\ forall (v : verb) (url2 : string) (kwargs2 : Kwargs),
         exists sent stamp,
           trace (snd (call v url2 kwargs2 w'))
           = (trace w' ++ [EvRequest v (_fix_url url2) 30 sent stamp])%list
           /\ rate_limit_reset <= stamp.
Proof.
  intros Hwire Hrem Hn Hle Hreset Ht Hfrom.
  set (w1 := set_wire rest
               (log (EvRequest GET (_fix_url url) 30
                       (_fix_kwargs (environ w) kwargs) (clock (tick w)))
                  (tick w))).
  destruct (pause_loop_returns rate_limit_reset (turns rate_limit_reset w1) w1)
    as (w' & naps & Hrun & Hpast & Htrace & Hw').
  { unfold turns. lia. }
  exists w', naps.
  assert (Hget : get url kwargs w = (Ret response, w')).
  { assert (Hu : utcoffset w1 = utcoffset w) by apply tick_utcoffset.
    unfold get. rewrite bind_run, call_run, Hwire. simpl. fold w1.
    rewrite Hrem. unfold int, lift_opt. rewrite bind_run, Hn. simpl.
    apply Z.leb_le in Hle. rewrite Hle.
    rewrite !bind_run. rewrite Hreset. simpl. rewrite Ht. simpl.
    mrun. rewrite Hu, Hfrom.
    simpl. unfold pause. rewrite Hrun. reflexivity. }
  split; [exact Hget |]. split; [exact Hpast |].
  split.
  { rewrite Htrace. subst w1. simpl. rewrite tick_trace, <- app_assoc. reflexivity. }
  split.
  { rewrite Hw'. reflexivity. }
  intros v url2 kwargs2.
  exists (_fix_kwargs (environ w') kwargs2), (clock (tick w')).
  split; [apply call_trace |].
  pose proof (tick_clock w'). lia.
Qed.

(** C9. When the caller's keyword arguments carry an [Accept] header, the
    request that goes out, whatever its verb, carries that value followed
    by a semicolon and the preview media types: the caller's value is kept
    as a prefix, not replaced. *)
Theorem accept_header_is_appended
    (v : verb) (url : string) (kwargs : Kwargs) (w : World)
    (h : dict string) (a : string) :
  kw_headers kwargs = Some h ->
  dict_get "Accept" h = Some a ->
  exists sent h',
    trace (snd (call v url kwargs w))
      = (trace w ++ [EvRequest v (_fix_url url) 30 sent (clock (tick w))])%list
    /\ kw_headers sent = Some h'
    /\ dict_get "Accept" h' = Some (a ++ ";" ++ api_version)
    /\ String.prefix a (a ++ ";" ++ api_version) = true.
Proof.
  intros Hh Ha.
  exists (_fix_kwargs (environ w) kwargs),
         (dict_set "Accept" (a ++ ";" ++ api_version) h).
  split; [apply call_trace | split; [| split]].
  - unfold _fix_kwargs. rewrite Hh, Ha. simpl.
    destruct (dict_get "ADABOT_GITHUB_ACCESS_TOKEN" (environ w)); [| reflexivity].
    destruct (kw_auth kwargs); [reflexivity |].
    destruct (kw_params kwargs); reflexivity.
  - apply dict_get_set_eq.
  - apply prefix_app.
Qed.

End Client.

(** A run of [get_blocks_until_reset]: one call left, the reset four
    seconds ahead. *)
Lemma get_blocks_until_reset_witness :
  exists w' naps,
    get "/rate_limit" no_kwargs Scenario.world_rate_limited
      = (Ret Scenario.rate_limited, w')
    /\ make 2019 6 1 12 35 0 <= clock w'
    /\ trace w'
       = (trace Scenario.world_rate_limited
          ++ EvRequest GET (_fix_url "/rate_limit") 30
               (_fix_kwargs (environ Scenario.world_rate_limited) no_kwargs)
               (clock (tick Scenario.world_rate_limited))
          :: map EvSleep naps)%list
    /\ wire w' = []
    /\ forall (v : verb) (url2 : string) (kwargs2 : Kwargs),
         exists sent stamp,
           trace (snd (call v url2 kwargs2 w'))
           = (trace w' ++ [EvRequest v (_fix_url url2) 30 sent stamp])%list
           /\ make 2019 6 1 12 35 0 <= stamp.
Proof.
  apply (get_blocks_until_reset "/rate_limit" no_kwargs Scenario.world_rate_limited
           Scenario.rate_limited [] "1" "1559392500" 1 1559392500
           (make 2019 6 1 12 35 0));
    first [reflexivity | vm_compute; discriminate].
Defined.

Lemma accept_header_is_appended_witness :
  exists sent h',
    trace (snd (call POST "/repos/adafruit/x/issues" Scenario.with_accept
                  (Scenario.quiet 0 [])))
      = [EvRequest POST (_fix_url "/repos/adafruit/x/issues") 30 sent
           (clock (tick (Scenario.quiet 0 [])))]
    /\ kw_headers sent = Some h'
    /\ dict_get "Accept" h' = Some ("application/json" ++ ";" ++ api_version)
    /\ String.prefix "application/json" ("application/json" ++ ";" ++ api_version) = true.
Proof.
  apply (accept_header_is_appended POST "/repos/adafruit/x/issues"
           Scenario.with_accept (Scenario.quiet 0 [])
           [("Accept", "application/json")] "application/json");
    reflexivity.
Defined.

(** ** The queries of the aggregator *)

Section Queries.

Lemma well_formed_issue_inv (issue : json) :
  well_formed_issue issue = true ->
  exists d u title,
    issue = JObj d /\ dict_get "html_url" d = Some (JStr u)
    /\ dict_get "title" d = Some title.
Proof.
  destruct issue as [| | | | | d]; simpl; try discriminate.
  destruct (dict_get "html_url" d) as [[| | | u | |] |] eqn:Hu; try discriminate.
  destruct (dict_get "title" d) as [title |] eqn:Ht; try discriminate.
  intros _. exists d, u, title. auto.
Qed.

(** One turn of the loop of [get_open_issues_and_prs] on a well-formed
    item: the entry goes to one list or to the other. *)
Lemma sort_issue_run (issue : json) (a b : list json) (w : World) :
  well_formed_issue issue = true ->
  sort_issue issue (a, b) w
  = (Ret (if is_pull_request issue then (a, (b ++ [entry_of issue])%list)
          else ((a ++ [entry_of issue])%list, b)), w).
Proof.
  intros Hwf. destruct (well_formed_issue_inv issue Hwf) as (d & u & title & -> & Hu & Ht).
  unfold sort_issue, url_to_title. simpl. mrun. simpl. rewrite Hu, Ht. simpl.
  mrun. simpl. mrun. destruct (dict_has "pull_request" d); reflexivity.
Qed.

Lemma sort_issues_run (issues : list json) :
  forall (a b : list json) (w : World),
    forallb well_formed_issue issues = true ->
    for_each issues sort_issue (a, b) w
    = (Ret ((a ++ map entry_of (List.filter (fun i => negb (is_pull_request i)) issues))%list,
            (b ++ map entry_of (List.filter is_pull_request issues))%list), w).
Proof.
  induction issues as [| issue issues IH]; intros a b w Hwf.
  - simpl. rewrite !app_nil_r. reflexivity.
  - apply andb_true_iff in Hwf as [Hwf Hrest].
    cbn [for_each]. mrun. rewrite sort_issue_run by exact Hwf.
    cbn [List.filter map].
    destruct (is_pull_request issue); cbn [negb map]; rewrite IH by exact Hrest;
      rewrite <- ?app_assoc; reflexivity.
Qed.

(** C6. Given the response to the query of the open issues of a
    repository: when the response is not successful the function returns
    two empty sequences and raises nothing; when it is successful and
    carries an array of well-formed items, the function returns the entries
    of the items without the pull-request marker and the entries of the
    items with it, both in the order of the response, each entry being the
    single-entry mapping from the URL of the item to its title. *)
Theorem open_issues_are_partitioned
    (repo : Repo) (w w1 : World) (result : Response) :
  github.get ("/repos/adafruit/" ++ repo_name repo ++ "/issues")
    (params [("state", "open")]) w = (Ret result, w1) ->
  (ok result = false -> get_open_issues_and_prs repo w = (Ret ([], []), w1))
  /\ (forall issues : list json,
        ok result = true ->
        body result = Some (JArr issues) ->
        forallb well_formed_issue issues = true ->
        get_open_issues_and_prs repo w
        = (Ret (map entry_of (List.filter (fun i => negb (is_pull_request i)) issues),
                map entry_of (List.filter is_pull_request issues)), w1)
        /\ forall issue, issue ∈ issues ->
             exists u title,
               member "html_url" issue = inr (JStr u)
               /\ member "title" issue = inr title
               /\ entry_of issue = JObj [(u, title)]).
Proof.
  intros Hget. split.
  - intros Hok. unfold get_open_issues_and_prs.
    rewrite (bind_ret _ _ _ _ _ Hget), Hok. reflexivity.
  - intros issues Hok Hbody Hwf. split.
    + unfold get_open_issues_and_prs.
      rewrite (bind_ret _ _ _ _ _ Hget), Hok. simpl.
      unfold json_of. rewrite Hbody. simpl. mrun. simpl. mrun.
      rewrite sort_issues_run by exact Hwf. reflexivity.
    + intros issue Hin.
      rewrite forallb_forall in Hwf.
      apply list_elem_of_In in Hin.
      destruct (well_formed_issue_inv issue (Hwf issue Hin))
        as (d & u & title & -> & Hu & Ht).
      exists u, title. simpl. rewrite Hu, Ht. auto.
Qed.

End Queries.

(** ** Contributors and reviewers *)

Section Contributors.

Lemma login_of_user (d : dict json) (l : string) (w w1 : World) :
  login_of "user" (JObj d) w = (Ret l, w1) -> author_of (JObj d) = l.
Proof.
  unfold login_of, author_of. intros H. mrun_in H.
  destruct (dict_get "user" d) as [u |]; mrun_in H; [| discriminate].
  destruct u as [| | | | | du]; mrun_in H; try discriminate.
  destruct (dict_get "login" du) as [[| | | s | |] |]; mrun_in H; try discriminate.
  congruence.
Qed.

(** A pull request that was not merged within the window leaves the
    accumulators, and the world, as they are. *)
Lemma scan_pr_skip (t7 : datetime) (pr : json) (s s' : list string * list string * Z)
    (w w' : World) :
  scan_pr t7 pr s w = (Ret s', w') ->
  merged_in_window t7 pr = false ->
  s' = s /\ w' = w.
Proof.
  intros H Hwin. destruct s as [[cs rs] n]. unfold scan_pr in H.
  destruct pr as [| | | str | l | d]; mrun_in H; try discriminate.
  - destruct (substring_of "merged_at" str); mrun_in H; [discriminate |].
    inversion H. auto.
  - destruct (existsb _ l); mrun_in H; [discriminate |]. inversion H. auto.
  - simpl in Hwin. unfold dict_has in H.
    destruct (dict_get "merged_at" d) as [m |]; mrun_in H.
    + destruct m as [| | | m | |]; mrun_in H; try discriminate.
      * inversion H. auto.
      * destruct (strptime m) as [merged_at |]; mrun_in H; [| discriminate].
        destruct (merged_at <? t7); [| discriminate].
        mrun_in H. inversion H. auto.
    + inversion H. auto.
Qed.

(** A pull request merged within the window adds its author to the
    contributors and one to the count, whatever becomes of the requests for
    its reviewers. *)
Lemma scan_pr_keep (t7 : datetime) (pr : json) (cs rs : list string) (n : Z)
    (w w' : World) (cs' rs' : list string) (n' : Z) :
  scan_pr t7 pr (cs, rs, n) w = (Ret (cs', rs', n'), w') ->
  merged_in_window t7 pr = true ->
  cs' = (cs ++ [author_of pr])%list /\ n' = n + 1.
Proof.
  intros H Hwin.
  destruct pr as [| | | | | d]; simpl in Hwin; try discriminate.
  destruct (dict_get "merged_at" d) as [[| | | m | |] |] eqn:Hm; try discriminate.
  destruct (strptime m) as [merged_at |] eqn:Hp; try discriminate.
  apply negb_true_iff in Hwin.
  unfold scan_pr in H. mrun_in H.
  unfold dict_has in H. rewrite Hm in H. mrun_in H.
  rewrite Hp in H. mrun_in H. rewrite Hwin in H.
  binds H. rewrite (login_of_user _ _ _ _ E).
  destruct (negb (ok a2)); [returned H; auto |].
  binds H.
  destruct (negb (ok a7)); [returned H; auto |].
  binds H. returned H. auto.
Qed.

Lemma login_of_world (who : string) (v : json) (l : string) (w w1 : World) :
  login_of who v w = (Ret l, w1) -> w1 = w.
Proof.
  unfold login_of. intros H. rewrite bind_run in H.
  destruct (member who v) as [e | u]; cbn [lift] in H; [discriminate |].
  mrun_in H.
  destruct (member "login" u) as [e | x]; cbn [lift] in H; [discriminate |].
  mrun_in H.
  destruct x; cbn [as_str lift] in H; try discriminate.
  rewrite ret_run in H. congruence.
Qed.

(** The loop over a page: the contributors and the count come from the
    pull requests merged within the window, and the whole outcome is that
    of the loop over those pull requests alone. *)
Lemma scan_page (t7 : datetime) (prs : list json) :
  forall (cs0 rs0 : list string) (n0 : Z) (w w' : World)
         (cs rs : list string) (n : Z),
    for_each prs (scan_pr t7) (cs0, rs0, n0) w = (Ret (cs, rs, n), w') ->
    cs = (cs0 ++ map author_of (List.filter (merged_in_window t7) prs))%list
    /\ n = n0 + Z.of_nat (length (List.filter (merged_in_window t7) prs))
    /\ for_each (List.filter (merged_in_window t7) prs) (scan_pr t7) (cs0, rs0, n0) w
       = (Ret (cs, rs, n), w').
Proof.
  induction prs as [| pr prs IH]; intros cs0 rs0 n0 w w' cs rs n H.
  - cbn [for_each] in H. returned H. simpl. rewrite app_nil_r.
    split; [reflexivity | split; [lia | reflexivity]].
  - cbn [for_each] in H. apply bind_inv in H as ([[cs1 rs1] n1] & w1 & Hpr & H).
    cbn [List.filter]. destruct (merged_in_window t7 pr) eqn:Hwin.
    + destruct (scan_pr_keep _ _ _ _ _ _ _ _ _ _ Hpr Hwin) as [-> ->].
      destruct (IH _ _ _ _ _ _ _ _ H) as (Hcs & Hn & Hrun).
      cbn [map length for_each].
      split; [rewrite Hcs, <- app_assoc; reflexivity | split; [lia |]].
      rewrite (bind_ret _ _ _ _ _ Hpr). exact Hrun.
    + destruct (scan_pr_skip _ _ _ _ _ _ Hpr Hwin) as [Hs ->].
      inversion Hs; subst. exact (IH _ _ _ _ _ _ _ _ H).
Qed.

End Contributors.

(** The claim C3 as it stands fails: this pull request was merged within
    the window, its author is counted, and yet it adds nothing to the
    reviewers, because the request for its detail is refused. *)
Lemma merged_pr_without_reviewer :
  merged_in_window (Scenario.june_3 - timedelta_days 7) Scenario.merged_pr = true
  /\ fst (get_contributors Scenario.library Scenario.world_detail_refused)
     = Ret (["alice"], [], 1).
Proof. split; vm_compute; reflexivity. Qed.

(** ** Publishing *)

Section Publish.

Lemma requests_of_app (a b : list event) :
  requests_of (a ++ b) = (requests_of a ++ requests_of b)%list.
Proof.
  induction a as [| [v u t k s | n] a IH]; simpl; [reflexivity | | exact IH].
  rewrite IH. reflexivity.
Qed.

(** What a call does, by what the wire holds. *)
Lemma call_cases (v : verb) (url : string) (kwargs : Kwargs) (w : World) :
  exists w',
    requests_of (trace w') = (requests_of (trace w) ++ [(v, _fix_url url)])%list
    /\ ((exists r rs, wire w = Answer r :: rs /\ wire w' = rs
                      /\ call v url kwargs w = (Ret r, w'))
        \/ ((forall r rs, wire w <> Answer r :: rs)
            /\ exists e, call v url kwargs w = (Raise e, w'))).
Proof.
  assert (Htr : forall rs,
             requests_of
               (trace (set_wire rs
                         (log (EvRequest v (_fix_url url) 30
                                 (_fix_kwargs (environ w) kwargs) (clock (tick w)))
                            (tick w))))
             = (requests_of (trace w) ++ [(v, _fix_url url)])%list).
  { intros rs. cbn [trace log set_wire]. rewrite tick_trace, requests_of_app.
    reflexivity. }
  rewrite call_run. cbv zeta.
  destruct (wire w) as [| [r | e] rs] eqn:Hw.
  - eexists. split; [apply (Htr (wire (tick w))) |].
    right. split; [discriminate |]. exists ConnectionError.
    f_equal; try (destruct (tick w); reflexivity).
  - eexists. split; [apply (Htr rs) |]. left. exists r, rs. auto.
  - eexists. split; [apply (Htr rs) |]. right. split; [discriminate | eauto].
Qed.

(** C5. In [update_json_file], once the two look-ups have succeeded and
    the creation of the branch is answered by a failure: if the failure says
    that the reference already exists, the update of the file is requested
    next, and, when that succeeds, the creation of the pull request, after
    which a success ends the publication normally; any other failure of the
    creation ends the run with an exception, the creation of the branch
    being the last request made; when the failure carries another message
    the exception is the [RuntimeError] of the step. *)
Theorem branch_conflict_is_tolerated
    (json_string : string) (w wb wc : World) (r1 r2 r3 : Response)
    (rest : list reply) (j1 o j2 blob_sha : json) (commit_sha : string) :
  github.get (master_url ++ "git/refs/heads/master") no_kwargs (tick w) = (Ret r1, wb) ->
  ok r1 = true -> body r1 = Some j1 ->
  member "object" j1 = inr o -> member "sha" o = inr (JStr commit_sha) ->
  github.get (master_url ++ "contents/_data/libraries.json?ref=" ++ commit_sha)
    no_kwargs wb = (Ret r2, wc) ->
  ok r2 = true -> body r2 = Some j2 -> member "sha" j2 = inr blob_sha ->
  wire wc = Answer r3 :: rest ->
  ok r3 = false ->
  let create := (POST, _fix_url (fork_url ++ "git/refs")) in
  let update := (PUT, _fix_url (fork_url ++ "contents/_data/libraries.json")) in
  let open := (POST, _fix_url (master_url ++ "pulls")) in
  let done := requests_of (trace (snd (update_json_file json_string w))) in
  (already_exists r3 = true ->
     (exists more, done = (requests_of (trace wc) ++ create :: update :: more)%list)
     /\ forall r4 rest',
          rest = Answer r4 :: rest' -> ok r4 = true ->
          done = (requests_of (trace wc) ++ [create; update; open])%list
          /\ forall r5 rest'',
               rest' = Answer r5 :: rest'' -> ok r5 = true ->
               fst (update_json_file json_string w) = Ret tt)
  /\ (already_exists r3 = false ->
        (exists e, fst (update_json_file json_string w) = Raise e)
        /\ done = (requests_of (trace wc) ++ [create])%list)
  /\ (forall j3 message,
        body r3 = Some j3 -> member "message" j3 = inr message ->
        is_str "Reference already exists" message = false ->
        fst (update_json_file json_string w)
        = Raise (RuntimeError ("Failed to create branch:" ++ nl ++ text r3))).
Proof.
  intros H1 Hok1 Hb1 Ho Hsha H2 Hok2 Hb2 Hblob Hwire Hok3 create update open done.
  assert (Hrun : update_json_file json_string w = update_json_file json_string w) by reflexivity.
  unfold update_json_file at 2 in Hrun.
  rewrite bind_run in Hrun. unfold now at 1 in Hrun.
  rewrite (bind_ret _ _ _ _ _ H1) in Hrun. rewrite Hok1 in Hrun.
  cbn [negb] in Hrun. rewrite bind_run, ret_run in Hrun.
  rewrite bind_run in Hrun. unfold json_of at 1 in Hrun. rewrite Hb1 in Hrun.
  cbn [lift_opt] in Hrun. rewrite ret_run in Hrun.
  rewrite bind_run, Ho in Hrun. cbn [lift] in Hrun. rewrite ret_run in Hrun.
  rewrite bind_run, Hsha in Hrun. cbn [lift] in Hrun. rewrite ret_run in Hrun.
  rewrite bind_run in Hrun. cbn [lift as_str] in Hrun. rewrite ret_run in Hrun.
  rewrite (bind_ret _ _ _ _ _ H2) in Hrun. rewrite Hok2 in Hrun.
  cbn [negb] in Hrun. rewrite bind_run, ret_run in Hrun.
  rewrite bind_run in Hrun. unfold json_of at 1 in Hrun. rewrite Hb2 in Hrun.
  cbn [lift_opt] in Hrun. rewrite ret_run in Hrun.
  rewrite bind_run, Hblob in Hrun. cbn [lift] in Hrun. rewrite ret_run in Hrun.
  rewrite bind_run in Hrun. unfold github.post at 1 in Hrun.
  match type of Hrun with
  | context [call POST ?u ?k wc] =>
      destruct (call_cases POST u k wc) as (w3 & Htr3 & [(r & rs & Hw & Hw3 & Hc) | [Hw _]])
  end; [| exfalso; exact (Hw _ _ Hwire)].
  rewrite Hwire in Hw. injection Hw as <- <-.
  rewrite Hc in Hrun. rewrite Hok3 in Hrun. cbn [negb] in Hrun.
  rewrite bind_run in Hrun.
  match type of Hrun with
  | context [let (r, w') := ?c in _] => set (check := c) in Hrun
  end.
  assert (Hother : forall j3 message,
             body r3 = Some j3 -> member "message" j3 = inr message ->
             is_str "Reference already exists" message = false ->
             check
             = (Raise (RuntimeError ("Failed to create branch:" ++ nl ++ text r3)), w3)).
  { intros j3 message Hb3 Hm Hne. subst check. unfold json_of. rewrite Hb3.
    cbn [lift_opt]. mrun. rewrite Hm. cbn [lift]. mrun. rewrite Hne. reflexivity. }
  assert (Hcheck : (already_exists r3 = true -> check = (Ret tt, w3))
                   /\ (already_exists r3 = false -> exists e, check = (Raise e, w3))).
  { subst check. unfold already_exists, json_of.
    destruct (body r3) as [j3 |]; cbn [lift_opt]; mrun;
      [| split; [discriminate | intros _; eexists; reflexivity]].
    destruct j3 as [| | | | | d]; cbn [member lift]; mrun;
      try (split; [discriminate | intros _; eexists; reflexivity]).
    destruct (dict_get "message" d) as [message |]; cbn [lift]; mrun;
      [| split; [discriminate | intros _; eexists; reflexivity]].
    destruct (is_str "Reference already exists" message); cbn [negb];
      split; try discriminate; intros _; try reflexivity.
    eexists; reflexivity. }
  destruct Hcheck as [Hyes Hno]. split; [| split].
  - intros Hex. rewrite (Hyes Hex) in Hrun. clear check Hyes Hno Hother.
    unfold github.put at 1 in Hrun. rewrite bind_run in Hrun.
    match type of Hrun with
    | context [call PUT ?u ?k w3] =>
        destruct (call_cases PUT u k w3)
          as (w4 & Htr4 & [(r & rs & Hw & Hw4 & Hc4) | [Hw [e Hc4]]])
    end.
    + rewrite Hc4 in Hrun. rewrite Hw3 in Hw.
      destruct (ok r) eqn:Hok4; cbn [negb] in Hrun.
      * mrun_in Hrun. unfold github.post at 1 in Hrun.
        match type of Hrun with
        | context [call POST ?u ?k w4] =>
            destruct (call_cases POST u k w4)
              as (w5 & Htr5 & [(r' & rs' & Hw' & Hw5 & Hc5) | [Hw' [e Hc5]]])
        end.
        -- rewrite Hc5 in Hrun.
           assert (Hdone : done = (requests_of (trace wc) ++ [create; update; open])%list).
           { subst done. rewrite Hrun.
             destruct (negb (ok r')); cbn [snd raise]; mrun; cbn [snd];
               rewrite Htr5, Htr4, Htr3, <- !app_assoc; reflexivity. }
           split; [exists [open]; exact Hdone |].
           intros r4 rest' Heq _. rewrite Hw in Heq. injection Heq as <- <-.
           split; [exact Hdone |].
           intros r5 rest'' Heq5 Hok5. rewrite Hw4, Heq5 in Hw'.
           injection Hw' as <- <-. rewrite Hrun, Hok5. reflexivity.
        -- rewrite Hc5 in Hrun.
           assert (Hdone : done = (requests_of (trace wc) ++ [create; update; open])%list).
           { subst done. rewrite Hrun. cbn [snd].
             rewrite Htr5, Htr4, Htr3, <- !app_assoc. reflexivity. }
           split; [exists [open]; exact Hdone |].
           intros r4 rest' Heq _. rewrite Hw in Heq. injection Heq as <- <-.
           split; [exact Hdone |].
           intros r5 rest'' Heq5 _. exfalso. rewrite Hw4 in Hw'.
           exact (Hw' _ _ Heq5).
      * mrun_in Hrun. split.
        -- exists []. subst done. rewrite Hrun. cbn [snd].
           rewrite Htr4, Htr3, <- !app_assoc. reflexivity.
        -- intros r4 rest' Heq Hok4'. rewrite Hw in Heq. injection Heq as <- <-. congruence.
    + rewrite Hc4 in Hrun. split.
      * exists []. subst done. rewrite Hrun. cbn [snd].
        rewrite Htr4, Htr3, <- !app_assoc. reflexivity.
      * intros r4 rest' Heq _. exfalso. rewrite Hw3 in Hw. exact (Hw _ _ Heq).
  - intros Hex. destruct (Hno Hex) as [e He]. rewrite He in Hrun.
    split.
    + exists e. rewrite Hrun. reflexivity.
    + subst done. rewrite Hrun. cbn [snd]. exact Htr3.
  - intros j3 message Hb3 Hm Hne.
    rewrite (Hother _ _ Hb3 Hm Hne) in Hrun. rewrite Hrun. reflexivity.
Qed.

End Publish.

Lemma branch_conflict_is_tolerated_witness :
  let w := Scenario.world_branch_exists in
  requests_of (trace (snd (update_json_file "{}" w)))
  = [(GET, _fix_url (master_url ++ "git/refs/heads/master"));
     (GET, _fix_url (master_url ++ "contents/_data/libraries.json?ref=c0ffee"));
     (POST, _fix_url (fork_url ++ "git/refs"));
     (PUT, _fix_url (fork_url ++ "contents/_data/libraries.json"));
     (POST, _fix_url (master_url ++ "pulls"))]
  /\ fst (update_json_file "{}" w) = Ret tt.
Proof.
  destruct (branch_conflict_is_tolerated "{}" Scenario.world_branch_exists
           (snd (github.get (master_url ++ "git/refs/heads/master") no_kwargs
                   (tick Scenario.world_branch_exists)))
           (snd (github.get
                   (master_url ++ "contents/_data/libraries.json?ref=" ++ "c0ffee")
                   no_kwargs
                   (snd (github.get (master_url ++ "git/refs/heads/master") no_kwargs
                           (tick Scenario.world_branch_exists)))))
           (mkResponse true [] EmptyString (Some Scenario.master_ref))
           (mkResponse true [] EmptyString (Some Scenario.contents))
           Scenario.branch_exists
           [Scenario.answer JNull; Scenario.answer JNull]
           Scenario.master_ref (JObj [("sha", JStr "c0ffee")])
           Scenario.contents (JStr "b10b") "c0ffee") as [Hyes _];
    try (vm_compute; reflexivity).
  destruct (Hyes eq_refl) as [_ Hnext].
  destruct (Hnext _ _ eq_refl eq_refl) as [Hdone Hend].
  split; [exact Hdone | exact (Hend _ _ eq_refl eq_refl)].
Defined.

(** ** Sorting the dictionaries *)

Section Sorting.

Lemma lower_leb_total (a b : string) : lower_leb a b = false -> lower_leb b a = true.
Proof.
  unfold lower_leb. intros H.
  destruct (String.leb_total (lower a) (lower b)) as [H' | H']; congruence.
Qed.

Lemma insert_by_lower_perm (x : string) (l : list string) :
  Permutation (insert_by_lower x l) (x :: l).
Proof.
  induction l as [| y l IH]; simpl; [reflexivity |].
  destruct (lower_leb x y); [reflexivity |].
  rewrite IH. apply perm_swap.
Qed.

Lemma sorted_by_lower_perm (l : list string) : Permutation (sorted_by_lower l) l.
Proof.
  induction l as [| x l IH]; simpl; [reflexivity |].
  rewrite insert_by_lower_perm. constructor. exact IH.
Qed.

Lemma insert_by_lower_ascending (x : string) (l : list string) :
  ascending l -> ascending (insert_by_lower x l).
Proof.
  unfold ascending. induction l as [| y l IH]; intros Hs; simpl.
  - repeat constructor.
  - destruct (lower_leb x y) eqn:Hxy.
    + constructor; [exact Hs | constructor; exact Hxy].
    + apply Sorted_inv in Hs as [Hs Hhd]. constructor; [exact (IH Hs) |].
      destruct l as [| z l]; simpl.
      * constructor. apply lower_leb_total, Hxy.
      * destruct (lower_leb x z); constructor.
        -- apply lower_leb_total, Hxy.
        -- apply HdRel_inv in Hhd. exact Hhd.
Qed.

Lemma sorted_by_lower_ascending (l : list string) : ascending (sorted_by_lower l).
Proof.
  induction l as [| x l IH]; simpl; [constructor |].
  apply insert_by_lower_ascending, IH.
Qed.



(** Every key keeps its value. *)
Lemma dict_get_filled {V} (d : dict V) (k : string) (l : list string) :
  forall acc : dict V,
    dict_get k
      (fold_left
         (fun sorted_list k =>
            match dict_get k d with
            | Some v => dict_set k v sorted_list
            | None => sorted_list
            end) l acc)
    = if decide (k ∈ l) then
        match dict_get k d with Some v => Some v | None => dict_get k acc end
      else dict_get k acc.
Proof.
  induction l as [| k' l IH]; intros acc; simpl.
  - destruct (decide (k ∈ [])) as [H | _]; [inversion H | reflexivity].
  - rewrite IH.
    assert (Hstep :
      dict_get k match dict_get k' d with
                 | Some v => dict_set k' v acc
                 | None => acc
                 end
      = if decide (k = k')
        then match dict_get k d with Some v => Some v | None => dict_get k acc end
        else dict_get k acc).
    { destruct (decide (k = k')) as [-> | Hne].
      - destruct (dict_get k' d) as [v |]; [apply dict_get_set_eq | reflexivity].
      - destruct (dict_get k' d) as [v |]; [| reflexivity].
        apply dict_get_set_ne. congruence. }
    rewrite Hstep. clear Hstep IH.
    destruct (decide (k ∈ l)) as [Hl | Hl];
      destruct (decide (k = k')) as [Hk | Hk];
      destruct (decide (k ∈ k' :: l)) as [Hin | Hin];
      try reflexivity.
    + destruct (dict_get k d); reflexivity.
    + exfalso. apply Hin, list_elem_of_further, Hl.
    + exfalso. apply Hin, list_elem_of_further, Hl.
    + exfalso. apply Hin. subst. apply list_elem_of_here.
    + exfalso. inversion Hin; subst; [congruence | contradiction].
Qed.

Lemma dict_get_sorted_copy {V} (d : dict V) (k : string) :
  dict_get k (sorted_copy d) = dict_get k d.
Proof.
  unfold sorted_copy. rewrite dict_get_filled. simpl.
  destruct (decide (k ∈ sorted_by_lower (keys d))) as [Hin | Hin].
  - destruct (dict_get k d); reflexivity.
  - destruct (dict_get k d) as [v |] eqn:Hk; [| reflexivity].
    exfalso. apply Hin. rewrite (sorted_by_lower_perm (keys d)).
    exact (dict_get_Some_keys _ _ _ Hk).
Qed.

Lemma keys_sorted_copy_sub {V} (d : dict V) (k : string) :
  k ∈ keys (sorted_copy d) -> k ∈ keys d.
Proof.
  intros Hin. destruct (dict_get k (sorted_copy d)) as [v |] eqn:Hk.
  - rewrite dict_get_sorted_copy in Hk. exact (dict_get_Some_keys _ _ _ Hk).
  - exfalso. exact (dict_get_None_keys _ _ Hk Hin).
Qed.

End Sorting.

(** ** The error ledger *)

Section Ledger.

Lemma dict_append_get_eq (k x : string) (d : dict (list string)) :
  dict_get k (dict_append k x d)
  = Some (match dict_get k d with Some l => l | None => [] end ++ [x])%list.
Proof.
  unfold dict_append, dict_has.
  destruct (dict_get k d) as [l |] eqn:Hk.
  - rewrite Hk. apply dict_get_set_eq.
  - rewrite dict_get_set_eq. apply dict_get_set_eq.
Qed.

Lemma dict_append_get_ne (k k' x : string) (d : dict (list string)) :
  k <> k' -> dict_get k' (dict_append k x d) = dict_get k' d.
Proof.
  intros Hne. unfold dict_append, dict_has.
  destruct (dict_get k d) as [l |] eqn:Hk.
  - rewrite Hk. apply dict_get_set_ne, Hne.
  - rewrite dict_get_set_eq. rewrite !dict_get_set_ne by exact Hne. reflexivity.
Qed.


(** Appending lists the new text and loses none. *)
Lemma dict_append_listed (k x : string) (d : dict (list string)) :
  listed k x (dict_append k x d).
Proof.
  eexists. split; [apply dict_append_get_eq |].
  apply elem_of_app. right. apply list_elem_of_here.
Qed.

Lemma dict_append_keeps (k x k' x' : string) (d : dict (list string)) :
  listed k' x' d -> listed k' x' (dict_append k x d).
Proof.
  intros (l & Hl & Hin). destruct (decide (k = k')) as [-> | Hne].
  - eexists. split; [apply dict_append_get_eq |].
    rewrite Hl. apply elem_of_app. left. exact Hin.
  - exists l. split; [| exact Hin]. rewrite dict_append_get_ne by exact Hne. exact Hl.
Qed.

Variable ERROR_OUTPUT_HANDLER : string.

(** Recording a signal never fails. *)
Lemma record_error_run (repo : Repo) (error : error_signal)
    (d : dict (list string)) (w : World) :
  exists w',
    record_error ERROR_OUTPUT_HANDLER repo error d w
    = (Ret (dict_append (kind_of error) (note_of repo error) d), w').
Proof.
  destruct error as [kind | kind days]; unfold record_error; simpl.
  - destruct (String.eqb kind ERROR_OUTPUT_HANDLER); eexists; reflexivity.
  - eexists. reflexivity.
Qed.

Lemma record_errors_run (repo : Repo) (errors : list error_signal) :
  forall (d : dict (list string)) (w : World),
  exists w',
    for_each errors (record_error ERROR_OUTPUT_HANDLER repo) d w
    = (Ret (fold_left (fun d e => dict_append (kind_of e) (note_of repo e) d) errors d),
       w').
Proof.
  induction errors as [| e errors IH]; intros d w; cbn [for_each fold_left].
  - eexists. reflexivity.
  - destruct (record_error_run repo e d w) as [w1 H1].
    rewrite (bind_ret _ _ _ _ _ H1). apply IH.
Qed.


Lemma recorded_keeps (repo : Repo) (errors : list error_signal) (k x : string) :
  forall d : dict (list string),
    listed k x d ->
    listed k x (fold_left (fun d e => dict_append (kind_of e) (note_of repo e) d)
                  errors d).
Proof.
  induction errors as [| e errors IH]; intros d Hl; simpl; [exact Hl |].
  apply IH, dict_append_keeps, Hl.
Qed.

Lemma recorded_listed (repo : Repo) (errors : list error_signal) (e : error_signal) :
  forall d : dict (list string),
    e ∈ errors ->
    listed (kind_of e) (note_of repo e)
      (fold_left (fun d e => dict_append (kind_of e) (note_of repo e) d) errors d).
Proof.
  induction errors as [| e' errors IH]; intros d Hin; simpl; [inversion Hin |].
  inversion Hin; subst.
  - apply recorded_keeps, dict_append_listed.
  - apply IH. assumption.
Qed.

End Ledger.

(** ** The aggregation loop *)

Section Aggregation.

Variable BUNDLE_IGNORE_LIST : list string.
Variable ERROR_OUTPUT_HANDLER : string.
Variable is_new_or_updated : Repo -> M (option string).
Variable run_repo_validation : Repo -> M (list error_signal).

Local Abbreviation skipped := (UpdateCpOrgLibraries.skipped BUNDLE_IGNORE_LIST).
Local Abbreviation visit :=
  (UpdateCpOrgLibraries.visit BUNDLE_IGNORE_LIST ERROR_OUTPUT_HANDLER
     is_new_or_updated run_repo_validation).
Local Abbreviation aggregate :=
  (UpdateCpOrgLibraries.aggregate BUNDLE_IGNORE_LIST ERROR_OUTPUT_HANDLER
     is_new_or_updated run_repo_validation).

Local Abbreviation left_out := (Views.left_out BUNDLE_IGNORE_LIST).

Lemma left_out_iff (name : string) :
  left_out name = true <-> name ∈ BUNDLE_IGNORE_LIST \/ name = "circuitpython".
Proof.
  unfold Views.left_out. rewrite orb_true_iff, existsb_exists, String.eqb_eq.
  split; intros [H | H]; auto; left.
  - destruct H as (x & Hx & Heq). apply String.eqb_eq in Heq. subst.
    apply list_elem_of_In, Hx.
  - exists name. split; [apply list_elem_of_In, H | apply String.eqb_refl].
Qed.

(** What a turn of the loop on a repository that is not left out amounts
    to, when it returns. *)
Lemma visit_inv (repo : Repo) (t t' : Totals) (w w' : World) :
  visit repo t w = (Ret t', w') ->
  skipped repo = false ->
  exists check_releases check_issues check_prs get_contribs get_revs get_merge_count
         errors w1 w2,
    run_repo_validation repo w1 = (Ret errors, w2)
    /\ t' =
       mkTotals
         (if says "new" check_releases
          then dict_set (repo_name repo) (repo_html_url repo) (new_libs t)
          else new_libs t)
         (if negb (says "new" check_releases) && says "updated" check_releases
          then dict_set (repo_name repo) (repo_html_url repo) (updated_libs t)
          else updated_libs t)
         (match check_issues with
          | [] => open_issues_by_repo t
          | _ => dict_set (repo_name repo) check_issues (open_issues_by_repo t)
          end)
         (match check_prs with
          | [] => open_prs_by_repo t
          | _ => dict_set (repo_name repo) check_prs (open_prs_by_repo t)
          end)
         (contributors t ++ get_contribs)%list
         (reviewers t ++ get_revs)%list
         (merged_pr_count_total t + get_merge_count)
         (fold_left (fun d e => dict_append (kind_of e) (note_of repo e) d) errors
            (repos_by_error t)).
Proof.
  intros H Hskip. unfold UpdateCpOrgLibraries.visit in H. rewrite Hskip in H.
  apply bind_inv in H as (check_releases & wa & _ & H).
  apply bind_inv in H as ([check_issues check_prs] & wb & _ & H).
  apply bind_inv in H as ([[get_contribs get_revs] get_merge_count] & wc & _ & H).
  apply bind_inv in H as (errors & wd & Hval & H).
  apply bind_inv in H as (ledger & we & Hrec & H).
  destruct (record_errors_run ERROR_OUTPUT_HANDLER repo errors (repos_by_error t) wd)
    as [w'' Hrun].
  rewrite Hrun in Hrec. injection Hrec as <- _.
  cbv zeta in H. returned H.
  exists check_releases, check_issues, check_prs, get_contribs, get_revs,
         get_merge_count, errors, wc, wd.
  split; [exact Hval | reflexivity].
Qed.

Lemma visit_skipped (repo : Repo) (t : Totals) (w : World) :
  skipped repo = true -> visit repo t w = (Ret t, w).
Proof. intros H. unfold UpdateCpOrgLibraries.visit. rewrite H. reflexivity. Qed.

(** The loop over a list is the loop over the repositories of the list
    that are not left out. *)
Lemma aggregate_filter (repos : list Repo) :
  forall (t : Totals) (w : World),
    for_each repos visit t w
    = for_each (List.filter (fun r => negb (skipped r)) repos) visit t w.
Proof.
  induction repos as [| repo repos IH]; intros t w; [reflexivity |].
  cbn [List.filter for_each]. destruct (skipped repo) eqn:Hs; cbn [negb].
  - rewrite (bind_ret _ _ _ _ _ (visit_skipped repo t w Hs)). apply IH.
  - cbn [for_each]. rewrite !bind_run.
    destruct (visit repo t w) as [[t1 | e |] w1]; [apply IH | reflexivity ..].
Qed.

(** An invariant of the turns of the loop holds of what the loop
    returns. *)
Lemma aggregate_invariant (P : Totals -> Prop) :
  (forall repo t t' w w', visit repo t w = (Ret t', w') -> P t -> P t') ->
  forall (repos : list Repo) (t t' : Totals) (w w' : World),
    for_each repos visit t w = (Ret t', w') -> P t -> P t'.
Proof.
  intros Hstep. induction repos as [| repo repos IH]; intros t t' w w' H HP.
  - returned H. exact HP.
  - cbn [for_each] in H. apply bind_inv in H as (t1 & w1 & H1 & H).
    exact (IH _ _ _ _ H (Hstep _ _ _ _ _ H1 HP)).
Qed.


Lemma visit_free_of_left_out (repo : Repo) (t t' : Totals) (w w' : World) :
  visit repo t w = (Ret t', w') -> free_of left_out t -> free_of left_out t'.
Proof.
  intros H Ht. destruct (skipped repo) eqn:Hs.
  - rewrite visit_skipped in H by exact Hs. injection H as <- _. exact Ht.
  - destruct (visit_inv _ _ _ _ _ H Hs)
      as (c & i & p & gc & gr & gm & errs & w1 & w2 & _ & ->).
    intros name Hname. destruct (Ht name Hname) as (H1 & H2 & H3 & H4).
    assert (Hne : name <> repo_name repo).
    { intros ->. unfold Views.left_out, UpdateCpOrgLibraries.skipped in *. congruence. }
    assert (Hset : forall V (v : V) (d : dict V),
               name ∉ keys d -> name ∉ keys (dict_set (repo_name repo) v d)).
    { intros V v d Hd Hin. apply keys_dict_set_sub in Hin as [? | ?]; contradiction. }
    cbn. repeat split.
    + destruct (says "new" c); [apply Hset |]; exact H1.
    + destruct (negb (says "new" c) && says "updated" c); [apply Hset |]; exact H2.
    + destruct i; [| apply Hset]; exact H3.
    + destruct p; [| apply Hset]; exact H4.
Qed.

Lemma visit_keeps_listed (repo : Repo) (t t' : Totals) (w w' : World) (k x : string) :
  visit repo t w = (Ret t', w') ->
  listed k x (repos_by_error t) -> listed k x (repos_by_error t').
Proof.
  intros H Ht. destruct (skipped repo) eqn:Hs.
  - rewrite visit_skipped in H by exact Hs. injection H as <- _. exact Ht.
  - destruct (visit_inv _ _ _ _ _ H Hs)
      as (c & i & p & gc & gr & gm & errs & w1 & w2 & _ & ->).
    cbn. apply recorded_keeps, Ht.
Qed.

Lemma keys_map_values {V W} (f : V -> W) (d : dict V) :
  keys (map (fun kv => (fst kv, f (snd kv))) d) = keys d.
Proof. unfold keys. rewrite map_map. reflexivity. Qed.

Lemma dict_get_map_values {V W} (f : V -> W) (k : string) (d : dict V) :
  dict_get k (map (fun kv => (fst kv, f (snd kv))) d) = option_map f (dict_get k d).
Proof.
  induction d as [| [k' v] d IH]; simpl; [reflexivity |].
  destruct (String.eqb k k'); [reflexivity | exact IH].
Qed.

(** The key lists of the mappings of the document are those of the
    sorted copies. *)
Lemma mappings_keys_build_json (run_time : datetime) (t : Totals) :
  mappings_keys (build_json run_time t)
  = [keys (sorted_copy (new_libs t)); keys (sorted_copy (updated_libs t));
     keys (sorted_copy (open_issues_by_repo t));
     keys (sorted_copy (open_prs_by_repo t));
     keys (sorted_copy (repos_by_error t))].
Proof.
  unfold mappings_keys, repo_keys, keys_under, under, build_json.
  cbn [member dict_get String.eqb Ascii.eqb Bool.eqb app].
  unfold str_dict, list_dict, str_list_dict.
  rewrite !keys_map_values. reflexivity.
Qed.

(** C4. The loop over a list of repositories does what the loop over the
    list without the repositories it leaves out does: same accumulators
    (libraries, issues, pull requests, contributors, reviewers, count,
    error ledger), same requests, same outcome.  And in the document built
    from what the loop returns, no name of the list to ignore, nor the name
    of the umbrella project, is a key of a mapping keyed by repository. *)
Theorem left_out_repos_never_appear (repos : list Repo) (w : World) :
  aggregate repos w
  = aggregate (List.filter (fun r => negb (skipped r)) repos) w
  /\ forall (t : Totals) (w' : World) (run_time : datetime) (name : string),
       aggregate repos w = (Ret t, w') ->
       name ∈ BUNDLE_IGNORE_LIST \/ name = "circuitpython" ->
       Forall (fun ks => name ∉ ks) (repo_keys (build_json run_time t)).
Proof.
  split; [apply aggregate_filter |].
  intros t w' run_time name Hrun Hname.
  apply left_out_iff in Hname.
  assert (Hfree : free_of left_out t).
  { refine (aggregate_invariant (free_of left_out) _ _ _ _ _ _ Hrun _).
    - intros repo t0 t1 w0 w1. apply visit_free_of_left_out.
    - intros n _. cbn. repeat split; intros H; inversion H. }
  destruct (Hfree name Hname) as (H1 & H2 & H3 & H4).
  pose proof (mappings_keys_build_json run_time t) as Hkeys.
  unfold mappings_keys in Hkeys.
  assert (Hrepo : repo_keys (build_json run_time t)
                  = [keys (sorted_copy (new_libs t)); keys (sorted_copy (updated_libs t));
                     keys (sorted_copy (open_issues_by_repo t));
                     keys (sorted_copy (open_prs_by_repo t))]).
  { unfold repo_keys in *. cbn [app] in Hkeys. congruence. }
  rewrite Hrepo.
  repeat constructor; intros Hin; apply keys_sorted_copy_sub in Hin; contradiction.
Qed.


End Aggregation.

(** ** The report document *)

Section Report.

Lemma unique_NoDup (l : list string) : NoDup (unique l).
Proof. unfold unique. apply NoDup_elements. Qed.

Lemma unique_elem (l : list string) (x : string) : x ∈ unique l <-> x ∈ l.
Proof. unfold unique. rewrite elem_of_elements, elem_of_list_to_set. reflexivity. Qed.

(** C8. In the document built from any accumulators, the contributors
    and the reviewers are arrays of strings in which no login occurs twice,
    and every login accumulated occurs, however many times it was
    accumulated. *)
Theorem contributors_and_reviewers_are_unique (run_time : datetime) (t : Totals) :
  exists cs rs : list string,
    member "contributors" (build_json run_time t) = inr (JArr (map JStr cs))
    /\ NoDup cs /\ NoDup (map JStr cs)
    /\ (forall x, x ∈ cs <-> x ∈ contributors t)
    /\ member "reviewers" (build_json run_time t) = inr (JArr (map JStr rs))
    /\ NoDup rs /\ NoDup (map JStr rs)
    /\ (forall x, x ∈ rs <-> x ∈ reviewers t).
Proof.
  assert (Hinj : forall l : list string, NoDup l -> NoDup (map JStr l)).
  { intros l Hl. apply NoDup_fmap_2; [| exact Hl]. intros a b H. congruence. }
  exists (unique (contributors t)), (unique (reviewers t)).
  repeat split; try reflexivity;
    try apply unique_NoDup; try apply Hinj, unique_NoDup; apply unique_elem.
Qed.

Lemma escape_uint (d : Decimal.uint) :
  escape (NilEmpty.string_of_uint d) = NilEmpty.string_of_uint d.
Proof. induction d; simpl; try rewrite IHd; reflexivity. Qed.

(** The decimal rendering of an integer holds nothing to escape. *)
Lemma escape_str_of_int (n : Z) : escape (str_of_int n) = str_of_int n.
Proof.
  unfold str_of_int, NilZero.string_of_int, NilZero.string_of_uint.
  destruct (Z.to_int n) as [d | d]; destruct d; simpl;
    rewrite ?escape_uint; reflexivity.
Qed.

End Report.

(** ** Runs of the theorems on the scenarios *)

Lemma open_issues_are_partitioned_witness :
  get_open_issues_and_prs Scenario.library Scenario.world_open_items
  = (Ret ([JObj [("https://github.com/adafruit/Adafruit_CircuitPython_BME280/issues/3",
                  JStr "Altitude")];
           JObj [("https://github.com/adafruit/Adafruit_CircuitPython_BME280/issues/4",
                  JStr "Docs")]],
          [JObj [("https://github.com/adafruit/Adafruit_CircuitPython_BME280/pull/9",
                  JStr "Fix")]]),
     snd (github.get ("/repos/adafruit/" ++ repo_name Scenario.library ++ "/issues")
            Scenario.issues_query Scenario.world_open_items)).
Proof.
  destruct (open_issues_are_partitioned Scenario.library Scenario.world_open_items
              (snd (github.get
                      ("/repos/adafruit/" ++ repo_name Scenario.library ++ "/issues")
                      Scenario.issues_query Scenario.world_open_items))
              (mkResponse true [] EmptyString (Some (JArr Scenario.open_items))))
    as [_ Hok]; [vm_compute; reflexivity |].
  destruct (Hok Scenario.open_items eq_refl eq_refl eq_refl) as [Hrun _].
  exact Hrun.
Defined.

Lemma left_out_repos_never_appear_witness :
  Scenario.run [Scenario.bundle; Scenario.library; Scenario.umbrella;
                Scenario.other_library]
  = Scenario.run [Scenario.library; Scenario.other_library]
  /\ Forall (fun ks => "circuitpython" ∉ ks)
       (repo_keys
          (build_json Scenario.june_3
             (Scenario.totals_of
                (Scenario.run [Scenario.bundle; Scenario.library; Scenario.umbrella;
                               Scenario.other_library])))).
Proof.
  destruct (left_out_repos_never_appear Scenario.ignore Scenario.handler
              Scenario.classifier Scenario.validator
              [Scenario.bundle; Scenario.library; Scenario.umbrella;
               Scenario.other_library]
              Scenario.world_refusing) as [Hsame Hkeys].
  split; [exact Hsame |].
  apply (Hkeys _ (snd (Scenario.run [Scenario.bundle; Scenario.library;
                                      Scenario.umbrella; Scenario.other_library]))).
  - vm_compute. reflexivity.
  - right. reflexivity.
Defined.



(** * Further properties *)

(** ** The client, whatever the response *)

Section ClientAtLarge.

Lemma tick_environ (w : World) : environ (tick w) = environ w.
Proof. unfold tick. destruct (lags w); reflexivity. Qed.

Lemma td_seconds_lt (d : Z) : td_seconds d < 86400.
Proof.
  unfold td_seconds, us_per_day, us_per_second.
  apply Z.div_lt_upper_bound; [lia |].
  pose proof (Z.mod_pos_bound d (86400 * 1000000) ltac:(lia)) as H.
  change (1000000 * 86400) with (86400 * 1000000). lia.
Qed.

(** What the loop adds to the trace, however it ends: sleeps, each within
    bounds, and of 300 seconds each under TRAVIS. *)
Lemma pause_loop_naps (rate_limit_reset : datetime) (fuel : nat) :
  forall w : World,
  exists naps,
    trace (snd (pause_loop fuel rate_limit_reset w))
    = (trace w ++ map EvSleep naps)%list
    /\ Forall nap_ok naps
    /\ (dict_has "TRAVIS" (environ w) = true -> Forall (fun n => n = 300) naps).
Proof.
  induction fuel as [| fuel IH]; intros w.
  - exists []. cbn. rewrite app_nil_r. auto.
  - rewrite pause_loop_S, bind_run. unfold now at 1.
    destruct (clock (tick w) <? rate_limit_reset).
    + rewrite bind_run. unfold in_environ at 1. rewrite tick_environ.
      assert (Hnext : forall (n : Z) (w2 : World),
                 nap_ok n ->
                 (dict_has "TRAVIS" (environ w) = true -> n = 300) ->
                 trace w2 = (trace w ++ [EvSleep n])%list ->
                 environ w2 = environ w ->
                 exists naps,
                   trace (snd (pause_loop fuel rate_limit_reset w2))
                   = (trace w ++ map EvSleep naps)%list
                   /\ Forall nap_ok naps
                   /\ (dict_has "TRAVIS" (environ w) = true ->
                       Forall (fun n => n = 300) naps)).
      { intros n w2 Hn H300 Ht He. destruct (IH w2) as (naps & Htr & Hok & Htravis).
        exists (n :: naps). split; [| split].
        - rewrite Htr, Ht, <- app_assoc. reflexivity.
        - constructor; assumption.
        - intros Hyes. constructor; [auto |]. apply Htravis. rewrite He. exact Hyes. }
      destruct (dict_has "TRAVIS" (environ w)) eqn:Htravis.
      * rewrite bind_run. cbn [sleep].
        eapply (Hnext 300); [unfold nap_ok; lia | reflexivity | |].
        -- cbn. rewrite tick_trace. reflexivity.
        -- cbn. apply tick_environ.
      * rewrite bind_run, bind_run. unfold now at 1. cbv beta zeta. cbn [sleep].
        eapply (Hnext (td_seconds (rate_limit_reset - clock (tick (tick w))) + 1));
          [| discriminate | |].
        -- pose proof (td_seconds_nonneg (rate_limit_reset - clock (tick (tick w)))).
           pose proof (td_seconds_lt (rate_limit_reset - clock (tick (tick w)))).
           unfold nap_ok. lia.
        -- cbn. rewrite !tick_trace. reflexivity.
        -- cbn. rewrite !tick_environ. reflexivity.
    + exists []. cbn. rewrite app_nil_r, tick_trace. auto.
Qed.

(** What [get] adds to the trace, however it ends: its request, then
    sleeps. *)
Lemma get_trace (url : string) (kwargs : Kwargs) (w : World) :
  exists naps,
    trace (snd (get url kwargs w))
    = (trace w
       ++ EvRequest GET (_fix_url url) 30 (_fix_kwargs (environ w) kwargs)
            (clock (tick w))
       :: map EvSleep naps)%list
    /\ Forall nap_ok naps
    /\ (dict_has "TRAVIS" (environ w) = true -> Forall (fun n => n = 300) naps).
Proof.
  assert (Hnone : forall w1 : World,
             trace w1
             = (trace w ++ [EvRequest GET (_fix_url url) 30
                              (_fix_kwargs (environ w) kwargs) (clock (tick w))])%list ->
             exists naps,
               trace w1
               = (trace w
                  ++ EvRequest GET (_fix_url url) 30 (_fix_kwargs (environ w) kwargs)
                       (clock (tick w))
                  :: map EvSleep naps)%list
               /\ Forall nap_ok naps
               /\ (dict_has "TRAVIS" (environ w) = true ->
                   Forall (fun n => n = 300) naps)).
  { intros w1 H. exists []. rewrite H. auto. }
  pose proof (call_trace GET url kwargs w) as Hcall.
  unfold get. rewrite bind_run.
  destruct (call GET url kwargs w) as [[response | e |] w1] eqn:Hc;
    cbn [snd] in Hcall; try (apply Hnone; exact Hcall).
  assert (Henv : environ w1 = environ w).
  { rewrite call_run in Hc. cbv zeta in Hc.
    destruct (wire w) as [| [r | e] rs]; inversion Hc; subst; cbn; apply tick_environ. }
  destruct (ci_get "X-RateLimit-Remaining" (headers response)) as [h |];
    [| apply Hnone; exact Hcall].
  rewrite bind_run. unfold int at 1.
  destruct (int_of_str h) as [remaining |]; cbn [lift_opt];
    [| apply Hnone; exact Hcall].
  rewrite ret_run, bind_run.
  destruct (remaining <=? 1); [| rewrite ret_run; apply Hnone; exact Hcall].
  rewrite bind_run.
  destruct (ci_get "X-RateLimit-Reset" (headers response)) as [h' |]; cbn [lift_opt];
    [| apply Hnone; exact Hcall].
  rewrite ret_run, bind_run. unfold int at 1.
  destruct (int_of_str h') as [t |]; cbn [lift_opt]; [| apply Hnone; exact Hcall].
  rewrite ret_run, bind_run. cbv beta.
  destruct (fromtimestamp (utcoffset w1) t) as [e | reset]; cbn [lift];
    [apply Hnone; exact Hcall |].
  rewrite ret_run. unfold pause.
  destruct (pause_loop_naps reset (turns reset w1) w1) as (naps & Htr & Hok & Htravis).
  exists naps. split; [| split; [exact Hok | rewrite <- Henv; exact Htravis]].
  destruct (pause_loop (turns reset w1) reset w1) as [[u | e |] w2];
    rewrite ?ret_run; cbn [snd] in *; rewrite Htr, Hcall, <- app_assoc; reflexivity.
Qed.

Lemma requests_of_naps (naps : list Z) : requests_of (map EvSleep naps) = [].
Proof. induction naps; simpl; auto. Qed.

Lemma naps_of_app (a b : list event) : naps_of (a ++ b) = (naps_of a ++ naps_of b)%list.
Proof.
  induction a as [| [v u t k s | n] a IH]; simpl; [reflexivity | exact IH |].
  rewrite IH. reflexivity.
Qed.

Lemma naps_of_naps (naps : list Z) : naps_of (map EvSleep naps) = naps.
Proof. induction naps as [| n naps IH]; simpl; [reflexivity | rewrite IH; reflexivity]. Qed.

(** The requests of a [get], however it ends. *)
Lemma get_requests (url : string) (kwargs : Kwargs) (w : World) :
  requests_of (trace (snd (get url kwargs w)))
  = (requests_of (trace w) ++ [(GET, _fix_url url)])%list.
Proof.
  destruct (get_trace url kwargs w) as (naps & Htr & _).
  rewrite Htr, requests_of_app. cbn [requests_of]. rewrite requests_of_naps.
  reflexivity.
Qed.

(** X1. Every operation of the client makes one request and no more,
    however it ends: it never tries again; and a failure of the transport
    comes out of the operation as it is. *)
Theorem client_makes_one_request
    (v : verb) (url : string) (kwargs : Kwargs) (w : World) :
  requests_of (trace (snd (client v url kwargs w)))
  = (requests_of (trace w) ++ [(v, _fix_url url)])%list
  /\ (forall e rs, wire w = Failure e :: rs -> fst (client v url kwargs w) = Raise e)
  /\ (wire w = [] -> fst (client v url kwargs w) = Raise ConnectionError).
Proof.
  assert (Hcall : forall v',
             requests_of (trace (snd (call v' url kwargs w)))
             = (requests_of (trace w) ++ [(v', _fix_url url)])%list).
  { intros v'. rewrite call_trace, requests_of_app. reflexivity. }
  assert (Hfail : forall v' e rs,
             wire w = Failure e :: rs -> fst (call v' url kwargs w) = Raise e).
  { intros v' e rs Hw. rewrite call_run, Hw. reflexivity. }
  assert (Hempty : forall v', wire w = [] -> fst (call v' url kwargs w) = Raise ConnectionError).
  { intros v' Hw. rewrite call_run, Hw. reflexivity. }
  destruct v; cbn [client]; try (split; [apply Hcall | split; [apply Hfail | apply Hempty]]).
  split; [| split].
  - apply get_requests.
  - intros e rs Hw. unfold get. rewrite bind_run, call_run, Hw. reflexivity.
  - intros Hw. unfold get. rewrite bind_run, call_run, Hw. reflexivity.
Qed.

(** X2. Whatever the response, [get] sleeps a second at least and a day at
    most at a time, so that [time.sleep] is never given a negative number;
    under TRAVIS each sleep lasts 300 seconds. *)
Theorem get_sleeps_within_bounds (url : string) (kwargs : Kwargs) (w : World) :
  exists naps,
    naps_of (trace (snd (get url kwargs w))) = (naps_of (trace w) ++ naps)%list
    /\ Forall nap_ok naps
    /\ (dict_has "TRAVIS" (environ w) = true -> Forall (fun n => n = 300) naps).
Proof.
  destruct (get_trace url kwargs w) as (naps & Htr & Hok & Htravis).
  exists naps. split; [| split; assumption].
  rewrite Htr, naps_of_app. cbn [naps_of]. rewrite naps_of_naps. reflexivity.
Qed.

(** X3. When the response carries no count of remaining calls, or a
    count above 1, [get] is the plain request: it hands the response over
    at once, without a sleep. *)
Theorem get_with_quota_is_a_plain_request
    (url : string) (kwargs : Kwargs) (w : World) (response : Response)
    (rest : list reply) :
  wire w = Answer response :: rest ->
  ci_get "X-RateLimit-Remaining" (headers response) = None
  \/ (exists h remaining,
        ci_get "X-RateLimit-Remaining" (headers response) = Some h
        /\ int_of_str h = Some remaining /\ 1 < remaining) ->
  get url kwargs w = call GET url kwargs w
  /\ fst (get url kwargs w) = Ret response
  /\ naps_of (trace (snd (get url kwargs w))) = naps_of (trace w).
Proof.
  intros Hw Hquota.
  assert (Hc : call GET url kwargs w
               = (Ret response,
                  set_wire rest
                    (log (EvRequest GET (_fix_url url) 30
                            (_fix_kwargs (environ w) kwargs) (clock (tick w)))
                       (tick w)))).
  { rewrite call_run, Hw. reflexivity. }
  assert (Hget : get url kwargs w = call GET url kwargs w).
  { unfold get. rewrite (bind_ret _ _ _ _ _ Hc), Hc.
    destruct Hquota as [-> | (h & remaining & -> & Hh & Hlt)]; [reflexivity |].
    rewrite bind_run. unfold int. rewrite Hh. cbn [lift_opt]. rewrite ret_run, bind_run.
    apply Z.leb_gt in Hlt. rewrite Hlt. reflexivity. }
  rewrite Hget, Hc. cbn [fst snd trace set_wire log].
  split; [reflexivity | split; [reflexivity |]].
  rewrite naps_of_app, tick_trace. cbn. apply app_nil_r.
Qed.

(** [get] on a response that asks for a pause: the response comes back
    when the pause is over. *)
Lemma get_pauses
    (url : string) (kwargs : Kwargs) (w w' : World)
    (response : Response) (rest : list reply)
    (h h' : string) (remaining t : Z) (rate_limit_reset : datetime) :
  wire w = Answer response :: rest ->
  ci_get "X-RateLimit-Remaining" (headers response) = Some h ->
  int_of_str h = Some remaining ->
  remaining <= 1 ->
  ci_get "X-RateLimit-Reset" (headers response) = Some h' ->
  int_of_str h' = Some t ->
  fromtimestamp (utcoffset w) t = inr rate_limit_reset ->
  pause rate_limit_reset
    (set_wire rest
       (log (EvRequest GET (_fix_url url) 30 (_fix_kwargs (environ w) kwargs)
               (clock (tick w))) (tick w)))
  = (Ret tt, w') ->
  get url kwargs w = (Ret response, w').
Proof.
  intros Hwire Hrem Hn Hle Hreset Ht Hfrom Hpause.
  unfold get. rewrite bind_run, call_run, Hwire. cbv zeta iota beta.
  rewrite Hrem. unfold int, lift_opt. rewrite bind_run, Hn. rewrite ret_run.
  apply Z.leb_le in Hle. rewrite Hle.
  rewrite !bind_run. rewrite Hreset. rewrite ret_run. rewrite !bind_run, Ht, ret_run.
  rewrite !bind_run. cbv beta. cbn [utcoffset set_wire log].
  rewrite tick_utcoffset, Hfrom. cbn [lift]. rewrite ret_run, Hpause. reflexivity.
Qed.

Lemma pause_loop_exit (rate_limit_reset : datetime) (fuel : nat) (w : World) :
  rate_limit_reset <= clock (tick w) ->
  pause_loop (S fuel) rate_limit_reset w = (Ret tt, tick w).
Proof.
  intros H. rewrite pause_loop_S, bind_run. unfold now at 1.
  apply Z.ltb_ge in H. rewrite H. reflexivity.
Qed.

(** A turn of the loop outside TRAVIS. *)
Lemma pause_loop_turn (rate_limit_reset : datetime) (fuel : nat) (w : World) :
  dict_has "TRAVIS" (environ w) = false ->
  clock (tick w) < rate_limit_reset ->
  pause_loop (S fuel) rate_limit_reset w
  = pause_loop fuel rate_limit_reset
      (snd (sleep (td_seconds (rate_limit_reset - clock (tick (tick w))) + 1)
              (tick (tick w)))).
Proof.
  intros Htravis Hlt. rewrite pause_loop_S, bind_run. unfold now at 1.
  apply Z.ltb_lt in Hlt. rewrite Hlt.
  rewrite bind_run. unfold in_environ at 1. rewrite tick_environ, Htravis.
  rewrite bind_run, bind_run. unfold now at 1. reflexivity.
Qed.

(** A loop that finds the clock before the reset at its first reading
    sleeps. *)
Lemma pause_loop_sleeps (rate_limit_reset : datetime) (fuel : nat) (w : World) :
  clock (tick w) < rate_limit_reset ->
  exists nap naps,
    naps_of (trace (snd (pause_loop (S fuel) rate_limit_reset w)))
    = (naps_of (trace w) ++ nap :: naps)%list.
Proof.
  intros Hlt. rewrite pause_loop_S, bind_run. unfold now at 1.
  apply Z.ltb_lt in Hlt. rewrite Hlt.
  rewrite bind_run. unfold in_environ at 1.
  destruct (dict_has "TRAVIS" (environ (tick w))).
  - rewrite bind_run. unfold sleep at 1.
    match goal with
    | |- context [pause_loop fuel rate_limit_reset ?w2] =>
        destruct (pause_loop_naps rate_limit_reset fuel w2) as (naps & Htr & _)
    end.
    exists 300, naps. rewrite Htr. cbn [trace log set_clock].
    rewrite !naps_of_app, naps_of_naps, tick_trace, <- app_assoc. reflexivity.
  - rewrite !bind_run. unfold now at 1. cbv zeta. unfold sleep at 1.
    match goal with
    | |- context [pause_loop fuel rate_limit_reset ?w2] =>
        destruct (pause_loop_naps rate_limit_reset fuel w2) as (naps & Htr & _)
    end.
    eexists _, naps. rewrite Htr. cbn [trace log set_clock].
    rewrite !naps_of_app, naps_of_naps, !tick_trace, <- app_assoc. reflexivity.
Qed.

(** X4. With at most one call left, [get] returns the response, and it
    does so without a sleep exactly when the reset time has passed already
    at the first reading of the clock by its loop, which is the first
    reading after the request. *)
Theorem get_does_not_wait_for_a_past_reset
    (url : string) (kwargs : Kwargs) (w w2 : World)
    (response : Response) (rest : list reply)
    (h h' : string) (remaining t : Z) (rate_limit_reset first_reading : datetime) :
  wire w = Answer response :: rest ->
  ci_get "X-RateLimit-Remaining" (headers response) = Some h ->
  int_of_str h = Some remaining ->
  remaining <= 1 ->
  ci_get "X-RateLimit-Reset" (headers response) = Some h' ->
  int_of_str h' = Some t ->
  fromtimestamp (utcoffset w) t = inr rate_limit_reset ->
  now (snd (call GET url kwargs w)) = (Ret first_reading, w2) ->
  fst (get url kwargs w) = Ret response
  /\ (rate_limit_reset <= first_reading <->
      naps_of (trace (snd (get url kwargs w))) = naps_of (trace w)).
Proof.
  intros Hwire Hrem Hn Hle Hreset Ht Hfrom Hnow.
  rewrite call_run, Hwire in Hnow. cbv zeta iota in Hnow. cbn [snd] in Hnow.
  unfold now in Hnow. cbv zeta in Hnow. injection Hnow as <- _.
  set (w1 := set_wire rest _).
  assert (Hw1 : naps_of (trace w1) = naps_of (trace w)).
  { unfold w1. cbn [trace set_wire log].
    rewrite naps_of_app, tick_trace. cbn. apply app_nil_r. }
  destruct (pause_returns rate_limit_reset w1) as (w' & Hp & _).
  pose proof (get_pauses url kwargs w w' response rest h h' remaining t
                rate_limit_reset Hwire Hrem Hn Hle Hreset Ht Hfrom Hp) as Hget.
  rewrite Hget. cbn [fst snd].
  split; [reflexivity |].
  unfold pause, turns in Hp.
  split.
  - intros Hpast. rewrite pause_loop_exit in Hp by exact Hpast.
    injection Hp as <-. rewrite tick_trace. exact Hw1.
  - intros Hnaps. apply Z.nlt_ge. intros Hlt.
    destruct (pause_loop_sleeps rate_limit_reset
                (Z.to_nat ((rate_limit_reset - clock w1) / us_per_second + 1)) w1 Hlt)
      as (nap & naps & Hs).
    rewrite Hp in Hs. cbn [snd] in Hs. rewrite Hnaps, Hw1 in Hs.
    symmetry in Hs. exact (app_cons_neq _ _ _ Hs).
Qed.

(** X5. The errors of the inspection of the headers: a count of remaining
    calls that is no integer, and, with at most one call left, a reset
    header that is missing or is no integer, make [get] raise after the
    request was made: the caller does not get the response. *)
Theorem get_raises_on_unreadable_headers
    (url : string) (kwargs : Kwargs) (w : World)
    (response : Response) (rest : list reply) (h : string) :
  wire w = Answer response :: rest ->
  ci_get "X-RateLimit-Remaining" (headers response) = Some h ->
  (int_of_str h = None ->
     get url kwargs w
     = (Raise (ValueError "invalid literal for int()"), snd (call GET url kwargs w)))
  /\ (forall remaining,
        int_of_str h = Some remaining -> remaining <= 1 ->
        ci_get "X-RateLimit-Reset" (headers response) = None ->
        get url kwargs w
        = (Raise (KeyError "x-ratelimit-reset"), snd (call GET url kwargs w)))
  /\ (forall remaining h',
        int_of_str h = Some remaining -> remaining <= 1 ->
        ci_get "X-RateLimit-Reset" (headers response) = Some h' ->
        int_of_str h' = None ->
        get url kwargs w
        = (Raise (ValueError "invalid literal for int()"), snd (call GET url kwargs w))).
Proof.
  intros Hwire Hrem.
  assert (Hc : call GET url kwargs w
               = (Ret response, snd (call GET url kwargs w))).
  { rewrite call_run, Hwire. reflexivity. }
  split; [| split].
  - intros Hn. unfold get. rewrite (bind_ret _ _ _ _ _ Hc), Hrem.
    rewrite bind_run. unfold int. rewrite Hn. reflexivity.
  - intros remaining Hn Hle Hreset. apply Z.leb_le in Hle.
    unfold get. rewrite (bind_ret _ _ _ _ _ Hc), Hrem.
    rewrite bind_run. unfold int at 1. rewrite Hn. cbn [lift_opt].
    rewrite ret_run, bind_run, Hle, bind_run, Hreset. reflexivity.
  - intros remaining h' Hn Hle Hreset Hn'. apply Z.leb_le in Hle.
    unfold get. rewrite (bind_ret _ _ _ _ _ Hc), Hrem.
    rewrite bind_run. unfold int at 1. rewrite Hn. cbn [lift_opt].
    rewrite ret_run, bind_run, Hle, bind_run, Hreset. cbn [lift_opt].
    rewrite ret_run, bind_run. unfold int at 1. rewrite Hn'. reflexivity.
Qed.

(** X6. Outside TRAVIS, when nothing delays the process between its
    readings of the clock and the reset is less than a day ahead, [get]
    sleeps once, for the whole seconds that remain and one more, and
    returns less than a second after the reset. *)
Theorem get_sleeps_once_on_a_steady_clock
    (url : string) (kwargs : Kwargs) (w : World)
    (response : Response) (rest : list reply)
    (h h' : string) (remaining t : Z) (rate_limit_reset : datetime) :
  wire w = Answer response :: rest ->
  ci_get "X-RateLimit-Remaining" (headers response) = Some h ->
  int_of_str h = Some remaining ->
  remaining <= 1 ->
  ci_get "X-RateLimit-Reset" (headers response) = Some h' ->
  int_of_str h' = Some t ->
  fromtimestamp (utcoffset w) t = inr rate_limit_reset ->
  lags w = [] ->
  dict_has "TRAVIS" (environ w) = false ->
  clock w < rate_limit_reset < clock w + us_per_day ->
  let nap := (rate_limit_reset - clock w) / us_per_second + 1 in
  fst (get url kwargs w) = Ret response
  /\ naps_of (trace (snd (get url kwargs w))) = (naps_of (trace w) ++ [nap])%list
  /\ clock (snd (get url kwargs w)) = clock w + nap * us_per_second
  /\ rate_limit_reset < clock (snd (get url kwargs w)) <= rate_limit_reset + us_per_second.
Proof.
  intros Hwire Hrem Hn Hle Hreset Ht Hfrom Hlags Htravis [Hlo Hhi] nap.
  assert (Htick : tick w = w) by (unfold tick; rewrite Hlags; reflexivity).
  set (w1 := set_wire rest
               (log (EvRequest GET (_fix_url url) 30 (_fix_kwargs (environ w) kwargs)
                       (clock (tick w))) (tick w))).
  assert (Htick1 : forall e c, tick (log e (set_clock c (lags w1) w1))
                               = log e (set_clock c (lags w1) w1)).
  { intros e c. unfold tick. subst w1. cbn. rewrite Htick, Hlags. reflexivity. }
  assert (Ht1 : tick w1 = w1).
  { unfold tick. subst w1. cbn. rewrite Htick, Hlags. reflexivity. }
  assert (Hc1 : clock w1 = clock w) by (subst w1; cbn; rewrite Htick; reflexivity).
  assert (Hsec : td_seconds (rate_limit_reset - clock w1) + 1 = nap).
  { subst nap. rewrite Hc1. unfold td_seconds. rewrite Z.mod_small by lia. reflexivity. }
  assert (Hnap : rate_limit_reset < clock w + nap * us_per_second
                 <= rate_limit_reset + us_per_second).
  { subst nap. unfold us_per_second in *.
    pose proof (Z.div_mod (rate_limit_reset - clock w) 1000000 ltac:(lia)).
    pose proof (Z.mod_pos_bound (rate_limit_reset - clock w) 1000000 ltac:(lia)).
    lia. }
  assert (Hpause : pause rate_limit_reset w1
                   = (Ret tt,
                      log (EvSleep nap)
                        (set_clock (clock w1 + nap * us_per_second) (lags w1) w1))).
  { unfold pause, turns.
    destruct (Z.to_nat ((rate_limit_reset - clock w1) / us_per_second + 1))
      as [| k] eqn:Hk.
    { exfalso. rewrite Hc1 in Hk.
      assert (0 <= (rate_limit_reset - clock w) / us_per_second)
        by (apply Z.div_pos; unfold us_per_second; lia).
      lia. }
    rewrite pause_loop_turn.
    - rewrite !Ht1, Hsec. cbn [sleep snd].
      rewrite pause_loop_exit; rewrite Htick1; [reflexivity |].
      cbn. rewrite ?Htick. lia.
    - subst w1. cbn. rewrite tick_environ. exact Htravis.
    - rewrite Ht1, Hc1. exact Hlo. }
  erewrite get_pauses; try eassumption.
  cbn [fst snd]. split; [reflexivity | split; [| split]].
  - cbn [trace log set_clock]. subst w1. cbn [trace log set_wire].
    rewrite tick_trace, !naps_of_app. cbn. rewrite app_nil_r. reflexivity.
  - cbn. rewrite Htick. reflexivity.
  - cbn. rewrite Htick. exact Hnap.
Qed.

Lemma tick_cons (w : World) (l : N) (ls : list N) :
  lags w = l :: ls -> tick w = set_clock (clock w + Z.of_N l) ls w.
Proof. intros H. unfold tick. rewrite H. reflexivity. Qed.

(** The [seconds] of a negative difference of less than a day. *)
Lemma td_seconds_negative (d : Z) :
  - us_per_day <= d < 0 -> td_seconds d = (d + us_per_day) / us_per_second.
Proof.
  intros H. unfold td_seconds. f_equal.
  rewrite <- (Z.mod_add d 1 us_per_day) by (unfold us_per_day, us_per_second; lia).
  apply Z.mod_small. lia.
Qed.

Lemma pause_oversleeps (rate_limit_reset : datetime) (v : World)
    (l1 l2 : N) (ls : list N) :
  lags v = l1 :: l2 :: ls ->
  dict_has "TRAVIS" (environ v) = false ->
  clock v + Z.of_N l1 < rate_limit_reset ->
  rate_limit_reset < clock v + Z.of_N l1 + Z.of_N l2
    <= rate_limit_reset + 3600 * us_per_second ->
  exists nap v',
    pause rate_limit_reset v = (Ret tt, v')
    /\ trace v' = (trace v ++ [EvSleep nap])%list
    /\ 82800 < nap
    /\ rate_limit_reset + 82800 * us_per_second < clock v'.
Proof.
  intros Hlags Htravis Hbefore [Hafter Hhour].
  set (t2 := clock v + Z.of_N l1 + Z.of_N l2).
  set (nap := td_seconds (rate_limit_reset - t2) + 1).
  assert (Hnap : 82800 < nap).
  { subst nap. rewrite td_seconds_negative
      by (unfold us_per_day, us_per_second in *; lia).
    assert (82800 <= (rate_limit_reset - t2 + us_per_day) / us_per_second).
    { apply Z.div_le_lower_bound; unfold us_per_day, us_per_second in *; lia. }
    lia. }
  assert (Ht1 : tick v = set_clock (clock v + Z.of_N l1) (l2 :: ls) v)
    by (apply tick_cons, Hlags).
  assert (Ht2 : tick (tick v) = set_clock t2 ls v).
  { rewrite Ht1. rewrite (tick_cons _ l2 ls) by reflexivity. reflexivity. }
  set (v2 := log (EvSleep nap) (set_clock (t2 + nap * us_per_second) ls v)).
  exists nap, (tick v2).
  assert (Hclock : rate_limit_reset + 82800 * us_per_second < clock (tick v2)).
  { pose proof (tick_clock v2) as H. subst v2. cbn in *.
    unfold us_per_second in *. lia. }
  split; [| split; [| split; [exact Hnap | exact Hclock]]].
  - unfold pause, turns.
    destruct (Z.to_nat ((rate_limit_reset - clock v) / us_per_second + 1))
      as [| k] eqn:Hk.
    { exfalso.
      assert (0 <= (rate_limit_reset - clock v) / us_per_second)
        by (apply Z.div_pos; unfold us_per_second; lia).
      lia. }
    rewrite pause_loop_turn; [| exact Htravis | rewrite Ht1; cbn; lia].
    rewrite Ht2. cbn [sleep snd clock set_clock lags]. fold t2. fold nap. fold v2.
    apply pause_loop_exit. unfold us_per_second in *. lia.
  - rewrite tick_trace. reflexivity.
Qed.

(** X7. Outside TRAVIS, when the reset time passes between the test of the
    loop and the reading of the clock that gives the time to sleep, the
    difference is negative, its [seconds] are those of a difference a day
    longer, and [get] sleeps for almost a day: with the reset at most an
    hour behind, for more than 23 hours. *)
Theorem get_oversleeps_when_the_reset_passes_in_between
    (url : string) (kwargs : Kwargs) (w : World)
    (response : Response) (rest : list reply)
    (h h' : string) (remaining t : Z) (rate_limit_reset : datetime)
    (l0 l1 l2 : N) (ls : list N) :
  wire w = Answer response :: rest ->
  ci_get "X-RateLimit-Remaining" (headers response) = Some h ->
  int_of_str h = Some remaining ->
  remaining <= 1 ->
  ci_get "X-RateLimit-Reset" (headers response) = Some h' ->
  int_of_str h' = Some t ->
  fromtimestamp (utcoffset w) t = inr rate_limit_reset ->
  lags w = l0 :: l1 :: l2 :: ls ->
  dict_has "TRAVIS" (environ w) = false ->
  clock w + Z.of_N l0 + Z.of_N l1 < rate_limit_reset ->
  rate_limit_reset < clock w + Z.of_N l0 + Z.of_N l1 + Z.of_N l2
    <= rate_limit_reset + 3600 * us_per_second ->
  exists nap,
    fst (get url kwargs w) = Ret response
    /\ naps_of (trace (snd (get url kwargs w))) = (naps_of (trace w) ++ [nap])%list
    /\ 82800 < nap
    /\ rate_limit_reset + 82800 * us_per_second < clock (snd (get url kwargs w)).
Proof.
  intros Hwire Hrem Hn Hle Hreset Ht Hfrom Hlags Htravis Hbefore Hafter.
  set (w1 := set_wire rest
               (log (EvRequest GET (_fix_url url) 30 (_fix_kwargs (environ w) kwargs)
                       (clock (tick w))) (tick w))).
  assert (Htick : tick w = set_clock (clock w + Z.of_N l0) (l1 :: l2 :: ls) w)
    by (apply tick_cons, Hlags).
  destruct (pause_oversleeps rate_limit_reset w1 l1 l2 ls)
    as (nap & w' & Hpause & Htr & Hnap & Hclock).
  - subst w1. cbn. rewrite Htick. reflexivity.
  - subst w1. cbn. rewrite tick_environ. exact Htravis.
  - subst w1. cbn. rewrite Htick. cbn. exact Hbefore.
  - subst w1. cbn. rewrite Htick. cbn. exact Hafter.
  - exists nap. erewrite get_pauses; try eassumption.
    cbn [fst snd]. split; [reflexivity | split; [| split; assumption]].
    rewrite Htr. subst w1. cbn [trace set_wire log].
    rewrite tick_trace, !naps_of_app. cbn. rewrite <- app_assoc. reflexivity.
Qed.

End ClientAtLarge.

(** ** What the client sends *)

Section Sent.

Lemma append_assoc (a b c : string) : (a ++ b) ++ c = a ++ (b ++ c).
Proof.
  induction a as [| x a IH]; [reflexivity |].
  change (String x ((a ++ b) ++ c) = String x (a ++ b ++ c)). f_equal. exact IH.
Qed.

(** X8. A URL that went through [_fix_url] does not start with a slash,
    and going through it again changes nothing. *)
Theorem fixed_url_is_absolute (url : string) :
  startswith (_fix_url url) "/" = false
  /\ _fix_url (_fix_url url) = _fix_url url.
Proof.
  assert (H : startswith (_fix_url url) "/" = false).
  { unfold _fix_url. destruct (startswith url "/") eqn:Hs; [reflexivity | exact Hs]. }
  split; [exact H |].
  unfold _fix_url at 1. rewrite H. reflexivity.
Qed.

(** The headers that [_fix_kwargs] hands on. *)
Lemma fix_kwargs_headers (env : dict string) (kwargs : Kwargs) :
  kw_headers (_fix_kwargs env kwargs)
  = Some match kw_headers kwargs with
         | Some given =>
             dict_set "Accept"
               match dict_get "Accept" given with
               | Some a => a ++ ";" ++ api_version
               | None => api_version
               end given
         | None => [("Accept", hellcat)]
         end
  /\ kw_json (_fix_kwargs env kwargs) = kw_json kwargs
  /\ kw_auth (_fix_kwargs env kwargs) = kw_auth kwargs.
Proof.
  unfold _fix_kwargs. cbv zeta.
  destruct (kw_headers kwargs) as [given |];
    [destruct (dict_get "Accept" given) |];
    cbn [kw_auth kw_params kw_headers kw_json];
    destruct (dict_get "ADABOT_GITHUB_ACCESS_TOKEN" env);
    destruct (kw_auth kwargs); destruct (kw_params kwargs);
    repeat split; reflexivity.
Qed.

(** X9. [_fix_kwargs] keeps what the caller gave: the body, the
    credentials and every header but [Accept]; and what it hands on always
    has an [Accept] header, which ends with the hellcat preview media
    type. *)
Theorem fix_kwargs_keeps_the_rest (env : dict string) (kwargs : Kwargs) :
  kw_json (_fix_kwargs env kwargs) = kw_json kwargs
  /\ kw_auth (_fix_kwargs env kwargs) = kw_auth kwargs
  /\ (exists sent accept before,
        kw_headers (_fix_kwargs env kwargs) = Some sent
        /\ dict_get "Accept" sent = Some accept
        /\ accept = before ++ hellcat
        /\ forall name,
             name <> "Accept" ->
             dict_get name sent
             = match kw_headers kwargs with
               | Some given => dict_get name given
               | None => None
               end).
Proof.
  destruct (fix_kwargs_headers env kwargs) as (Hh & Hj & Ha).
  split; [exact Hj | split; [exact Ha |]]. rewrite Hh.
  destruct (kw_headers kwargs) as [given |] eqn:Hgiven.
  - destruct (dict_get "Accept" given) as [a |] eqn:Haccept.
    + exists (dict_set "Accept" (a ++ ";" ++ api_version) given),
             (a ++ ";" ++ api_version),
             (a ++ ";" ++ "application/vnd.github.scarlet-witch-preview+json;").
      split; [reflexivity | split; [apply dict_get_set_eq | split]].
      * rewrite !append_assoc. reflexivity.
      * intros name Hne. apply dict_get_set_ne. congruence.
    + exists (dict_set "Accept" api_version given), api_version,
             "application/vnd.github.scarlet-witch-preview+json;".
      split; [reflexivity | split; [apply dict_get_set_eq | split; [reflexivity |]]].
      intros name Hne. apply dict_get_set_ne. congruence.
  - exists [("Accept", hellcat)], hellcat, EmptyString.
    split; [reflexivity | split; [reflexivity | split; [reflexivity |]]].
    intros name Hne. cbn. destruct (String.eqb_spec name "Accept"); [contradiction | reflexivity].
Qed.

(** X10. The access token of the environment goes into the query
    parameters exactly when the caller gave no credentials: it is then the
    value of [access_token], in place of one the caller may have given,
    beside the other parameters of the caller; with credentials, or without
    a token in the environment, the parameters go out as they came. *)
Theorem token_goes_into_the_parameters (env : dict string) (kwargs : Kwargs) :
  (forall access_token,
      dict_get "ADABOT_GITHUB_ACCESS_TOKEN" env = Some access_token ->
      kw_auth kwargs = None ->
      exists sent,
        kw_params (_fix_kwargs env kwargs) = Some sent
        /\ dict_get "access_token" sent = Some access_token
        /\ forall name,
             name <> "access_token" ->
             dict_get name sent
             = match kw_params kwargs with
               | Some given => dict_get name given
               | None => None
               end)
  /\ (dict_get "ADABOT_GITHUB_ACCESS_TOKEN" env = None \/ kw_auth kwargs <> None ->
      kw_params (_fix_kwargs env kwargs) = kw_params kwargs).
Proof.
  split.
  - intros access_token Htoken Hauth. unfold _fix_kwargs. cbv zeta.
    rewrite Htoken.
    assert (Ha : forall k : Kwargs, kw_auth k = kw_auth kwargs ->
               kw_params k = kw_params kwargs ->
               exists sent,
                 kw_params
                   match kw_auth k with
                   | Some _ => k
                   | None =>
                       match kw_params k with
                       | Some p =>
                           mkKwargs (kw_headers k)
                             (Some (dict_set "access_token" access_token p))
                             (kw_auth k) (kw_json k)
                       | None =>
                           mkKwargs (kw_headers k) (Some [("access_token", access_token)])
                             (kw_auth k) (kw_json k)
                       end
                   end = Some sent
                 /\ dict_get "access_token" sent = Some access_token
                 /\ forall name,
                      name <> "access_token" ->
                      dict_get name sent
                      = match kw_params kwargs with
                        | Some given => dict_get name given
                        | None => None
                        end).
    { intros k Hk Hp. rewrite Hk, Hauth, Hp.
      destruct (kw_params kwargs) as [given |]; cbn [kw_params].
      - eexists. split; [reflexivity | split; [apply dict_get_set_eq |]].
        intros name Hne. apply dict_get_set_ne. congruence.
      - eexists. split; [reflexivity | split; [reflexivity |]].
        intros name Hne. cbn.
        destruct (String.eqb_spec name "access_token"); [contradiction | reflexivity]. }
    destruct (kw_headers kwargs) as [given |]; [destruct (dict_get "Accept" given) |];
      apply Ha; reflexivity.
  - intros Hno. unfold _fix_kwargs. cbv zeta.
    destruct (kw_headers kwargs) as [given |]; [destruct (dict_get "Accept" given) |];
      cbn [kw_auth kw_params];
      (destruct (dict_get "ADABOT_GITHUB_ACCESS_TOKEN" env); [| reflexivity];
       destruct (kw_auth kwargs); [reflexivity |];
       destruct Hno as [Hno | Hno]; [discriminate | contradiction]).
Qed.

End Sent.

(** ** What the computations add to the trace *)

Section Adding.

Context (P : event -> Prop).

Lemma adds_ret {A} (a : A) : adds P (mret a : M A).
Proof. intros w. exists []. cbn. rewrite app_nil_r. auto. Qed.

Lemma adds_raise {A} (e : exn) : adds P (raise e : M A).
Proof. intros w. exists []. cbn. rewrite app_nil_r. auto. Qed.

Lemma adds_lift {A} (r : exn + A) : adds P (lift r).
Proof. destruct r; [apply adds_raise | apply adds_ret]. Qed.

Lemma adds_lift_opt {A} (e : exn) (o : option A) : adds P (lift_opt e o).
Proof. destruct o; [apply adds_ret | apply adds_raise]. Qed.

Lemma adds_now : adds P now.
Proof. intros w. exists []. cbn. rewrite app_nil_r, tick_trace. auto. Qed.

Lemma adds_in_environ (name : string) : adds P (in_environ name).
Proof. intros w. exists []. cbn. rewrite app_nil_r. auto. Qed.

Lemma adds_bind {A B} (m : M A) (f : A -> M B) :
  adds P m -> (forall a, adds P (f a)) -> adds P (m ≫= f).
Proof.
  intros Hm Hf w. rewrite bind_run. destruct (Hm w) as (evs & Htr & Hall).
  destruct (m w) as [[a | e |] w1]; cbn [snd] in *; try solve [exists evs; auto].
  destruct (Hf a w1) as (evs' & Htr' & Hall').
  exists (evs ++ evs')%list. split.
  - rewrite Htr', Htr, app_assoc. reflexivity.
  - apply Forall_app. auto.
Qed.

Lemma adds_for_each {A S} (body : A -> S -> M S) (l : list A) :
  (forall x s, adds P (body x s)) -> forall s, adds P (for_each l body s).
Proof.
  intros Hbody. induction l as [| x l IH]; intros s; cbn [for_each].
  - apply adds_ret.
  - apply adds_bind; [apply Hbody | exact IH].
Qed.

Lemma adds_call (v : verb) (url : string) (kwargs : Kwargs) :
  (forall kw t, P (EvRequest v (_fix_url url) 30 kw t)) -> adds P (call v url kwargs).
Proof.
  intros HP w. eexists. split; [apply call_trace |]. repeat constructor. apply HP.
Qed.

Lemma adds_get (url : string) (kwargs : Kwargs) :
  (forall kw t, P (EvRequest GET (_fix_url url) 30 kw t)) ->
  (forall n, P (EvSleep n)) ->
  adds P (get url kwargs).
Proof.
  intros HP Hs w. destruct (get_trace url kwargs w) as (naps & Htr & _).
  eexists. split; [exact Htr |]. constructor; [apply HP |].
  clear Htr. induction naps as [| n naps IH]; constructor; [apply Hs | exact IH].
Qed.

End Adding.

(** Takes a computation apart down to its requests. *)
Ltac adds_steps leaf :=
  repeat first
    [ leaf | apply adds_ret | apply adds_raise | apply adds_lift | apply adds_lift_opt
    | apply adds_now | apply adds_in_environ
    | apply adds_bind; [| intros]
    | apply adds_for_each; intros
    | match goal with
      | |- adds _ (if ?b then _ else _) => destruct b
      | |- adds _ (match ?x with _ => _ end) => destruct x
      | |- adds _ (let (_, _) := ?x in _) => destruct x
      end ].

Section Reading.

(** X11. The two queries of a repository only read: whatever the answers
    and however the queries end, the events they add are GET requests and
    sleeps. *)
Theorem queries_only_read (repo : Repo) :
  adds reads_only (get_open_issues_and_prs repo)
  /\ adds reads_only (get_contributors repo).
Proof.
  assert (Hget : forall url kwargs, adds reads_only (get url kwargs)).
  { intros url kwargs. apply adds_get; intros; exact I. }
  split.
  - unfold get_open_issues_and_prs, sort_issue, url_to_title.
    adds_steps ltac:(apply Hget).
  - unfold get_contributors, minus_days, scan_pr, login_of, add_approval.
    adds_steps ltac:(apply Hget).
Qed.

End Reading.

(** ** The cost and the yield of the query of the contributors *)

Lemma lift_world {A} (x : exn + A) (a : A) (w w' : World) :
  lift x w = (Ret a, w') -> w' = w.
Proof. destruct x; cbn; intros H; inversion H; reflexivity. Qed.

Lemma lift_opt_world {A} (e : exn) (o : option A) (a : A) (w w' : World) :
  lift_opt e o w = (Ret a, w') -> w' = w.
Proof. destruct o; cbn; intros H; inversion H; reflexivity. Qed.

Lemma lift_inv {A} (x : exn + A) (a : A) (w w' : World) :
  lift x w = (Ret a, w') -> x = inr a /\ w' = w.
Proof. destruct x; cbn; intros H; inversion H; auto. Qed.

Lemma lift_opt_inv {A} (e : exn) (o : option A) (a : A) (w w' : World) :
  lift_opt e o w = (Ret a, w') -> o = Some a /\ w' = w.
Proof. destruct o; cbn; intros H; inversion H; auto. Qed.

Lemma as_str_inv (v : json) (s : string) : as_str v = inr s -> v = JStr s.
Proof. destruct v; cbn; intros H; inversion H; reflexivity. Qed.

Lemma requests_made_refl (w : World) : requests_made w w = 0.
Proof. unfold requests_made. lia. Qed.

Lemma requests_made_trans (w w1 w2 : World) :
  requests_made w w2 = requests_made w w1 + requests_made w1 w2.
Proof. unfold requests_made. lia. Qed.

Lemma requests_made_tick (w : World) : requests_made w (tick w) = 0.
Proof. unfold requests_made. rewrite tick_trace. lia. Qed.

(** A [get] that returns has made one request. *)
Lemma get_made (url : string) (kwargs : Kwargs) (w w' : World) (r : Response) :
  get url kwargs w = (Ret r, w') -> requests_made w w' = 1.
Proof.
  intros H. pose proof (get_requests url kwargs w) as Hreq. rewrite H in Hreq. cbn [snd] in Hreq.
  unfold requests_made. rewrite Hreq, length_app. cbn. lia.
Qed.

(** Splits a run that returned at a step that leaves the world alone. *)
Ltac step_pure H :=
  let a := fresh "a" in
  let w1 := fresh "w" in
  let E := fresh "E" in
  apply bind_inv in H as (a & w1 & E & H);
  first [ apply lift_world in E | apply lift_opt_world in E
        | apply login_of_world in E ];
  subst w1.

Section Cost.

Lemma add_approval_world (review : json) (rs rs' : list string) (w w' : World) :
  add_approval review rs w = (Ret rs', w') -> w' = w.
Proof.
  unfold add_approval. intros H. step_pure H. step_pure H.
  destruct (String.eqb (lower a0) "approved").
  - step_pure H. returned H. reflexivity.
  - returned H. reflexivity.
Qed.

Lemma add_approvals_world (reviews : list json) :
  forall (rs rs' : list string) (w w' : World),
    for_each reviews add_approval rs w = (Ret rs', w') -> w' = w.
Proof.
  induction reviews as [| review reviews IH]; intros rs rs' w w' H; cbn [for_each] in H.
  - returned H. reflexivity.
  - apply bind_inv in H as (rs1 & w1 & E & H).
    apply add_approval_world in E. subst w1. exact (IH _ _ _ _ H).
Qed.

(** A turn of the loop of [get_contributors] costs no request for a pull
    request that is not counted, and one or two for one that is. *)
Lemma scan_pr_cost (t7 : datetime) (pr : json) (s s' : list string * list string * Z)
    (w w' : World) :
  scan_pr t7 pr s w = (Ret s', w') ->
  if merged_in_window t7 pr
  then 1 <= requests_made w w' <= 2
  else requests_made w w' = 0.
Proof.
  intros H. destruct (merged_in_window t7 pr) eqn:Hwin.
  - destruct s as [[cs rs] n].
    destruct pr as [| | | | | d]; simpl in Hwin; try discriminate.
    destruct (dict_get "merged_at" d) as [[| | | m | |] |] eqn:Hm; try discriminate.
    destruct (strptime m) as [merged_at |] eqn:Hp; try discriminate.
    apply negb_true_iff in Hwin.
    unfold scan_pr in H. mrun_in H.
    unfold dict_has in H. rewrite Hm in H. mrun_in H.
    rewrite Hp in H. mrun_in H. rewrite Hwin in H.
    step_pure H. step_pure H. step_pure H.
    apply bind_inv in H as (single_pr & w1 & Eget & H).
    pose proof (get_made _ _ _ _ _ Eget) as H1.
    destruct (negb (ok single_pr)); [returned H; lia |].
    step_pure H. step_pure H. step_pure H. step_pure H.
    apply bind_inv in H as (pr_reviews & w2 & Eget2 & H).
    pose proof (get_made _ _ _ _ _ Eget2) as H2.
    rewrite (requests_made_trans w w1).
    destruct (negb (ok pr_reviews)); [returned H; lia |].
    step_pure H. step_pure H.
    apply bind_inv in H as (rs' & w3 & Eloop & H).
    apply add_approvals_world in Eloop. subst w3. returned H. lia.
  - destruct (scan_pr_skip _ _ _ _ _ _ H Hwin) as [_ ->]. apply requests_made_refl.
Qed.

Lemma scan_page_cost (t7 : datetime) (prs : list json) :
  forall (cs0 rs0 : list string) (n0 : Z) (w w' : World)
         (cs rs : list string) (n : Z),
    for_each prs (scan_pr t7) (cs0, rs0, n0) w = (Ret (cs, rs, n), w') ->
    n - n0 <= requests_made w w' <= 2 * (n - n0).
Proof.
  induction prs as [| pr prs IH]; intros cs0 rs0 n0 w w' cs rs n H.
  - cbn [for_each] in H. returned H. rewrite requests_made_refl. lia.
  - cbn [for_each] in H. apply bind_inv in H as ([[cs1 rs1] n1] & w1 & Hpr & H).
    pose proof (scan_pr_cost _ _ _ _ _ _ Hpr) as Hcost.
    pose proof (IH _ _ _ _ _ _ _ _ H) as Hrest.
    rewrite (requests_made_trans w w1).
    destruct (merged_in_window t7 pr) eqn:Hwin.
    + destruct (scan_pr_keep _ _ _ _ _ _ _ _ _ _ Hpr Hwin) as [_ ->]. lia.
    + destruct (scan_pr_skip _ _ _ _ _ _ Hpr Hwin) as [Hs _].
      injection Hs as _ _ ->. lia.
Qed.

(** The count that [get_contributors] gives, and what the query costs. *)
Lemma get_contributors_run
    (repo : Repo) (w w' : World) (cs rs : list string) (n : Z) :
  get_contributors repo w = (Ret (cs, rs, n), w') ->
  n = Z.of_nat (length cs)
  /\ 1 + n <= requests_made w w' <= 1 + 2 * n.
Proof.
  intros H. unfold get_contributors in H.
  apply bind_inv in H as (result & w1 & Eget & H).
  pose proof (get_made _ _ _ _ _ Eget) as H1.
  destruct (ok result).
  - apply bind_inv in H as (today & w2 & Enow & H).
    assert (w2 = tick w1) by (unfold now in Enow; cbv zeta in Enow; congruence).
    subst w2.
    apply bind_inv in H as (t7 & w3 & Eminus & H).
    assert (w3 = tick w1).
    { unfold minus_days in Eminus. cbv zeta in Eminus.
      destruct (today - timedelta_days 7 <? dt_min);
        [discriminate | unfold mret, M_ret in Eminus; congruence]. }
    subst w3. step_pure H. step_pure H.
    destruct (scan_page _ _ _ _ _ _ _ _ _ _ H) as (Hcs & Hn & _).
    pose proof (scan_page_cost _ _ _ _ _ _ _ _ _ _ H) as Hcost.
    split.
    + rewrite Hcs, Hn. cbn [app]. rewrite length_map. lia.
    + rewrite (requests_made_trans w w1), (requests_made_trans w1 (tick w1)),
        requests_made_tick. lia.
  - returned H. cbn. lia.
Qed.

(** X12. When [get_contributors] returns, the count it gives is the number
    of the contributors it gives, and the requests it has made are at least
    one more than that count and at most one more than twice that count:
    the listing, and one or two requests for each pull request counted. *)
Theorem get_contributors_cost
    (repo : Repo) (w w' : World) (cs rs : list string) (n : Z) :
  get_contributors repo w = (Ret (cs, rs, n), w') ->
  n = Z.of_nat (length cs)
  /\ 1 + n <= requests_made w w' <= 1 + 2 * n.
Proof. apply get_contributors_run. Qed.

(** X13. A refused listing is no error to the two queries of a
    repository: on a refusal of the listing of the open issues
    [get_open_issues_and_prs] returns two empty lists, and on a refusal of
    the listing of the closed pull requests [get_contributors] returns no
    contributor, no reviewer and a count of 0; neither makes another
    request. *)
Theorem refused_listings_give_empty_results
    (repo : Repo) (w w1 : World) (result : Response) :
  ok result = false ->
  (github.get ("/repos/adafruit/" ++ repo_name repo ++ "/issues")
     (params [("state", "open")]) w = (Ret result, w1) ->
   get_open_issues_and_prs repo w = (Ret ([], []), w1))
  /\ (github.get ("/repos/adafruit/" ++ repo_name repo ++ "/pulls")
        (params [("state", "closed"); ("sort", "updated"); ("direction", "desc")]) w
      = (Ret result, w1) ->
      get_contributors repo w = (Ret ([], [], 0), w1)).
Proof.
  intros Hok. split; intros Hget.
  - unfold get_open_issues_and_prs. rewrite (bind_ret _ _ _ _ _ Hget), Hok. reflexivity.
  - unfold get_contributors. rewrite (bind_ret _ _ _ _ _ Hget), Hok. reflexivity.
Qed.

End Cost.

(** ** What a run reads and what a publication writes *)

Section Writing.

Variable BUNDLE_IGNORE_LIST : list string.
Variable ERROR_OUTPUT_HANDLER : string.
Variable is_new_or_updated : Repo -> M (option string).
Variable run_repo_validation : Repo -> M (list error_signal).

Lemma adds_record_error (P : event -> Prop) (repo : Repo) (error : error_signal)
    (ledger : dict (list string)) :
  adds P (record_error ERROR_OUTPUT_HANDLER repo error ledger).
Proof.
  intros w. exists []. rewrite app_nil_r. split; [| constructor].
  unfold record_error. destruct error as [kind | kind days]; [| reflexivity].
  destruct (String.eqb kind ERROR_OUTPUT_HANDLER); reflexivity.
Qed.

(** The making of the report only reads, as long as the classifier and
    the validator do. *)
Lemma adds_report (run_time : datetime) (repos : list Repo) :
  (forall repo, adds reads_only (is_new_or_updated repo)) ->
  (forall repo, adds reads_only (run_repo_validation repo)) ->
  adds reads_only
    (report BUNDLE_IGNORE_LIST ERROR_OUTPUT_HANDLER is_new_or_updated
       run_repo_validation run_time repos).
Proof.
  intros Hclass Hval.
  assert (Hget : forall url kwargs, adds reads_only (get url kwargs)).
  { intros url kwargs. apply adds_get; intros; exact I. }
  unfold report, aggregate. apply adds_bind; [| intros; apply adds_ret].
  apply adds_for_each. intros repo t. unfold visit.
  destruct (skipped BUNDLE_IGNORE_LIST repo); [apply adds_ret |].
  apply adds_bind; [apply Hclass | intros check_releases].
  apply adds_bind.
  { unfold get_open_issues_and_prs, sort_issue, url_to_title.
    adds_steps ltac:(apply Hget). }
  intros [check_issues check_prs]. apply adds_bind.
  { unfold get_contributors, minus_days, scan_pr, login_of, add_approval.
    adds_steps ltac:(apply Hget). }
  intros [[get_contribs get_revs] get_merge_count].
  apply adds_bind; [apply Hval | intros errors].
  apply adds_bind; [| intros; apply adds_ret].
  apply adds_for_each. intros. apply adds_record_error.
Qed.

Lemma fix_url_master (rest : string) :
  _fix_url (master_url ++ rest) = ("https://api.github.com" ++ master_url) ++ rest.
Proof. reflexivity. Qed.

Lemma fix_url_fork (rest : string) :
  _fix_url (fork_url ++ rest) = ("https://api.github.com" ++ fork_url) ++ rest.
Proof. reflexivity. Qed.

(** X15. A publication talks to the upstream repository of the site and
    to the fork of the bot only, and never deletes or patches: whatever the
    answers and however it ends, its requests are GET, POST or PUT requests
    under one of the two. *)
Theorem publication_stays_in_its_repositories (json_string : string) :
  adds publishes_only (update_json_file json_string).
Proof.
  assert (Hm : forall v rest kw t,
             v = GET \/ v = POST \/ v = PUT ->
             publishes_only (EvRequest v (_fix_url (master_url ++ rest)) 30 kw t)).
  { intros v rest kw t Hv. split; [exact Hv | left].
    rewrite fix_url_master. apply prefix_app. }
  assert (Hf : forall v rest kw t,
             v = GET \/ v = POST \/ v = PUT ->
             publishes_only (EvRequest v (_fix_url (fork_url ++ rest)) 30 kw t)).
  { intros v rest kw t Hv. split; [exact Hv | right].
    rewrite fix_url_fork. apply prefix_app. }
  unfold update_json_file, github.post, github.put, post, put.
  adds_steps ltac:(first
    [ apply adds_get; [intros; apply Hm; auto | intros; exact I]
    | apply adds_call; intros; first [apply Hm; auto | apply Hf; auto] ]).
Qed.

End Writing.

(** ** The requests of a publication that succeeds *)

Section Published.

Lemma written_app (a b : list event) : written (a ++ b) = (written a ++ written b)%list.
Proof.
  induction a as [| e a IH]; [reflexivity |].
  destruct e as [v u t k s | n]; [destruct v |]; simpl; rewrite ?IH; reflexivity.
Qed.

Lemma written_naps (naps : list Z) : written (map EvSleep naps) = [].
Proof. induction naps; simpl; auto. Qed.

Lemma get_written (url : string) (kwargs : Kwargs) (w w' : World) (r : Response) :
  get url kwargs w = (Ret r, w') ->
  written (trace w') = written (trace w)
  /\ requests_of (trace w') = (requests_of (trace w) ++ [(GET, _fix_url url)])%list.
Proof.
  intros H. pose proof (get_requests url kwargs w) as Hreq.
  destruct (get_trace url kwargs w) as (naps & Htr & _).
  rewrite H in Hreq, Htr. cbn [snd] in Hreq, Htr. split; [| exact Hreq].
  rewrite Htr, written_app. cbn [written]. rewrite written_naps. apply app_nil_r.
Qed.

Lemma call_written (v : verb) (url : string) (kwargs : Kwargs) (w w' : World)
    (r : Response) :
  v <> GET ->
  call v url kwargs w = (Ret r, w') ->
  written (trace w') = (written (trace w) ++ [(v, _fix_url url, kw_json kwargs)])%list
  /\ requests_of (trace w') = (requests_of (trace w) ++ [(v, _fix_url url)])%list.
Proof.
  intros Hv H. pose proof (call_trace v url kwargs w) as Htr.
  rewrite H in Htr. cbn [snd] in Htr. rewrite Htr, written_app, requests_of_app.
  destruct (fix_kwargs_headers (environ w) kwargs) as (_ & Hj & _).
  split; [| reflexivity]. cbn [written]. rewrite Hj.
  destruct v; try reflexivity. contradiction.
Qed.

(** A test of a response that let the run go on left the world alone. *)
Lemma check_world (response : Response) (msg : string) (w w' : World) :
  (if negb (ok response) then raise (RuntimeError msg) else mret tt) w = (Ret tt, w') ->
  w' = w /\ ok response = true.
Proof.
  destruct (ok response); cbn [negb]; intros H; [| discriminate].
  returned H. auto.
Qed.

(** The run of a publication that returns. *)
Lemma update_json_file_run (json_string : string) (w w' : World) :
  update_json_file json_string w = (Ret tt, w') ->
  exists (commit_sha : string) (blob_sha : json) (w2 : World),
    looked_up w commit_sha blob_sha w2
    /\ requests_of (trace w')
       = (requests_of (trace w)
          ++ [(GET, _fix_url (master_url ++ "git/refs/heads/master"));
              (GET, _fix_url (master_url ++ "contents/_data/libraries.json?ref="
                                ++ commit_sha));
              (POST, _fix_url (fork_url ++ "git/refs"));
              (PUT, _fix_url (fork_url ++ "contents/_data/libraries.json"));
              (POST, _fix_url (master_url ++ "pulls"))])%list
    /\ written (trace w')
       = (written (trace w)
          ++ [(POST, _fix_url (fork_url ++ "git/refs"),
               Some (branch_info_of (clock (tick w)) commit_sha));
              (PUT, _fix_url (fork_url ++ "contents/_data/libraries.json"),
               Some (update_json_of (clock (tick w)) blob_sha json_string));
              (POST, _fix_url (master_url ++ "pulls"),
               Some (pr_info_of (clock (tick w))))])%list.
Proof.
  intros H. unfold update_json_file in H.
  apply bind_inv in H as (commit_date & w0 & Enow & H).
  unfold now in Enow. cbv zeta in Enow. injection Enow as <- <-.
  cbv zeta in H.
  apply bind_inv in H as (r1 & w1 & Eg1 & H).
  pose proof Eg1 as G1.
  apply get_written in Eg1 as [Hw1 Hr1]. rewrite tick_trace in Hw1, Hr1.
  apply bind_inv in H as ([] & w1' & E1 & H). apply check_world in E1 as [-> Ok1].
  apply bind_inv in H as (j1 & w1' & B1 & H).
  apply lift_opt_inv in B1 as [B1 ->].
  apply bind_inv in H as (o & w1' & Mo & H). apply lift_inv in Mo as [Mo ->].
  apply bind_inv in H as (sha & w1' & Ms & H). apply lift_inv in Ms as [Ms ->].
  apply bind_inv in H as (commit_sha & w1' & Es & H). apply lift_inv in Es as [Es ->].
  apply as_str_inv in Es. subst sha.
  apply bind_inv in H as (r2 & w2 & Eg2 & H).
  pose proof Eg2 as G2.
  apply get_written in Eg2 as [Hw2 Hr2].
  apply bind_inv in H as ([] & w2' & E2 & H). apply check_world in E2 as [-> Ok2].
  apply bind_inv in H as (j2 & w2' & B2 & H).
  apply lift_opt_inv in B2 as [B2 ->].
  apply bind_inv in H as (blob_sha & w2' & Mb & H). apply lift_inv in Mb as [Mb ->].
  apply bind_inv in H as (r3 & w3 & Ep1 & H).
  apply call_written in Ep1 as [Hw3 Hr3]; [| discriminate].
  apply bind_inv in H as ([] & w3' & E & H).
  assert (w3' = w3) as ->.
  { destruct (ok r3); cbn [negb] in E; [returned E; reflexivity |].
    step_pure E. step_pure E.
    destruct (negb (is_str "Reference already exists" _)); [discriminate |].
    returned E. reflexivity. }
  apply bind_inv in H as (r4 & w4 & Ep2 & H).
  apply call_written in Ep2 as [Hw4 Hr4]; [| discriminate].
  apply bind_inv in H as ([] & w4' & E3 & H). apply check_world in E3 as [-> _].
  apply bind_inv in H as (r5 & w5 & Ep3 & H).
  apply call_written in Ep3 as [Hw5 Hr5]; [| discriminate].
  destruct (negb (ok r5)); [discriminate |]. returned H.
  exists commit_sha, blob_sha, w2. split; [| split].
  - exists r1, w1, j1, o, r2, j2. unfold json_of in *. auto 10.
  - rewrite Hr5, Hr4, Hr3, Hr2, Hr1, <- !app_assoc. reflexivity.
  - rewrite Hw5, Hw4, Hw3, Hw2, Hw1, <- !app_assoc. reflexivity.
Qed.

(** X16. A publication that returns has made five requests: the look-up
    of the head of master, which answered with the commit, the look-up of
    the file at that commit, which answered with the blob, then three
    writes, which are the creation of a branch named after the day at that
    commit, the update of the file on that branch with the text followed by
    a newline, in base64, against that blob, and the opening of a pull
    request from that branch onto master. *)
Theorem publication_makes_five_requests (json_string : string) (w w' : World) :
  update_json_file json_string w = (Ret tt, w') ->
  exists (commit_sha : string) (blob_sha : json) (w2 : World),
    looked_up w commit_sha blob_sha w2
    /\ requests_of (trace w')
       = (requests_of (trace w)
          ++ [(GET, _fix_url (master_url ++ "git/refs/heads/master"));
              (GET, _fix_url (master_url ++ "contents/_data/libraries.json?ref="
                                ++ commit_sha));
              (POST, _fix_url (fork_url ++ "git/refs"));
              (PUT, _fix_url (fork_url ++ "contents/_data/libraries.json"));
              (POST, _fix_url (master_url ++ "pulls"))])%list
    /\ written (trace w')
       = (written (trace w)
          ++ [(POST, _fix_url (fork_url ++ "git/refs"),
               Some (branch_info_of (clock (tick w)) commit_sha));
              (PUT, _fix_url (fork_url ++ "contents/_data/libraries.json"),
               Some (update_json_of (clock (tick w)) blob_sha json_string));
              (POST, _fix_url (master_url ++ "pulls"),
               Some (pr_info_of (clock (tick w))))])%list.
Proof. apply update_json_file_run. Qed.

End Published.

(** ** The order of the keys of the report *)

Section KeyOrder.

Lemma lower_leb_trans (a b c : string) :
  lower_leb a b = true -> lower_leb b c = true -> lower_leb a c = true.
Proof.
  unfold lower_leb. intros Hab Hbc. apply Is_true_true.
  apply Is_true_true in Hab, Hbc.
  exact (PreOrder_Transitive (R := String.le) _ _ _ Hab Hbc).
Qed.

Lemma lower_leb_antisym (a b : string) :
  lower_leb a b = true -> lower_leb b a = true -> lower a = lower b.
Proof. unfold lower_leb. apply String.leb_antisym. Qed.

Lemma ascending_head (a : string) (l : list string) :
  ascending (a :: l) -> forall x, x ∈ l -> lower_leb a x = true.
Proof.
  intros Hs. apply Sorted_StronglySorted in Hs.
  - inversion Hs as [| ? ? _ Hall]; subst. intros x Hx.
    rewrite Forall_forall in Hall. exact (Hall x Hx).
  - intros x y z. apply lower_leb_trans.
Qed.

(** Two ascending lists with the same elements, which differ also up to
    case, are the same list. *)
Lemma ascending_unique (l1 : list string) :
  forall l2 : list string,
    ascending l1 -> ascending l2 -> Permutation l1 l2 ->
    distinct_up_to_case l1 -> l1 = l2.
Proof.
  induction l1 as [| a t1 IH]; intros l2 H1 H2 Hperm Hnd.
  - apply Permutation_nil in Hperm. congruence.
  - destruct l2 as [| b t2].
    { symmetry in Hperm. apply Permutation_nil in Hperm. discriminate. }
    assert (Hab : a = b).
    { destruct (decide (a = b)) as [| Hne]; [assumption | exfalso].
      assert (Ha : a ∈ t2).
      { assert (Hin : a ∈ b :: t2) by (rewrite <- Hperm; apply list_elem_of_here).
        inversion Hin; subst; [congruence | assumption]. }
      assert (Hb : b ∈ t1).
      { assert (Hin : b ∈ a :: t1) by (rewrite Hperm; apply list_elem_of_here).
        inversion Hin; subst; [congruence | assumption]. }
      pose proof (lower_leb_antisym _ _ (ascending_head _ _ H1 _ Hb)
                    (ascending_head _ _ H2 _ Ha)) as Heq.
      unfold distinct_up_to_case in Hnd. cbn [map] in Hnd.
      inversion Hnd as [| ? ? Hnotin _]; subst. apply Hnotin.
      rewrite Heq. apply (list_elem_of_fmap_2 lower), Hb. }
    subst b. f_equal. apply IH.
    + inversion H1; assumption.
    + inversion H2; assumption.
    + exact (Permutation_cons_inv Hperm).
    + unfold distinct_up_to_case in *. cbn [map] in Hnd. inversion Hnd; assumption.
Qed.

Lemma distinct_up_to_case_NoDup (l : list string) : distinct_up_to_case l -> NoDup l.
Proof. unfold distinct_up_to_case. apply (NoDup_fmap_1 lower). Qed.

(** X17. When the keys of a dictionary differ also up to case, the sorted
    copy that goes into the report does not depend on the order in which
    the keys came in: two dictionaries with the same values under the same
    keys have the same sorted copy. *)
Theorem sorted_copy_forgets_the_order {V} (d1 d2 : dict V) :
  distinct_up_to_case (keys d1) ->
  NoDup (keys d2) ->
  (forall k, dict_get k d1 = dict_get k d2) ->
  sorted_copy d1 = sorted_copy d2.
Proof.
  intros Hcase Hnd2 Hsame.
  assert (Hperm : Permutation (keys d1) (keys d2)).
  { apply NoDup_Permutation;
      [apply distinct_up_to_case_NoDup, Hcase | exact Hnd2 |].
    intros k. split; intros Hin.
    - destruct (dict_get k d2) as [v |] eqn:Hk;
        [exact (dict_get_Some_keys _ _ _ Hk) | exfalso].
      rewrite <- Hsame in Hk. exact (dict_get_None_keys _ _ Hk Hin).
    - destruct (dict_get k d1) as [v |] eqn:Hk;
        [exact (dict_get_Some_keys _ _ _ Hk) | exfalso].
      rewrite Hsame in Hk. exact (dict_get_None_keys _ _ Hk Hin). }
  assert (Hkeys : sorted_by_lower (keys d1) = sorted_by_lower (keys d2)).
  { apply ascending_unique.
    - apply sorted_by_lower_ascending.
    - apply sorted_by_lower_ascending.
    - rewrite !sorted_by_lower_perm. exact Hperm.
    - unfold distinct_up_to_case.
      rewrite (Permutation_map lower (sorted_by_lower_perm (keys d1))). exact Hcase. }
  unfold sorted_copy. rewrite Hkeys.
  generalize (sorted_by_lower (keys d2)). generalize (@nil (string * V)).
  intros acc l. revert acc. induction l as [| k l IH]; intros acc; [reflexivity |].
  cbn [fold_left]. rewrite Hsame. apply IH.
Qed.

End KeyOrder.

(** ** The loop over the repositories, as a whole *)

Section Loop.

Variable BUNDLE_IGNORE_LIST : list string.
Variable ERROR_OUTPUT_HANDLER : string.
Variable is_new_or_updated : Repo -> M (option string).
Variable run_repo_validation : Repo -> M (list error_signal).

Local Abbreviation visit :=
  (UpdateCpOrgLibraries.visit BUNDLE_IGNORE_LIST ERROR_OUTPUT_HANDLER
     is_new_or_updated run_repo_validation).
Local Abbreviation aggregate :=
  (UpdateCpOrgLibraries.aggregate BUNDLE_IGNORE_LIST ERROR_OUTPUT_HANDLER
     is_new_or_updated run_repo_validation).
Local Abbreviation main :=
  (UpdateCpOrgLibraries.main BUNDLE_IGNORE_LIST ERROR_OUTPUT_HANDLER
     is_new_or_updated run_repo_validation).

(** A loop that raises in one of its turns stops there. *)
Lemma for_each_raises {A S} (body : A -> S -> M S) (x : A) (post : list A) (e : exn) :
  forall (pre : list A) (s s1 : S) (w w1 w2 : World),
    for_each pre body s w = (Ret s1, w1) ->
    body x s1 w1 = (Raise e, w2) ->
    for_each (pre ++ x :: post) body s w = (Raise e, w2).
Proof.
  induction pre as [| y pre IH]; intros s s1 w w1 w2 Hpre Hx.
  - returned Hpre. cbn [app for_each]. rewrite bind_run, Hx. reflexivity.
  - cbn [app for_each] in *. apply bind_inv in Hpre as (s' & w' & Hy & Hpre).
    rewrite (bind_ret _ _ _ _ _ Hy). exact (IH _ _ _ _ _ Hpre Hx).
Qed.

(** X18. An exception in the turn of one repository ends the whole run
    with that exception, in the world the turn left: no later repository
    is visited, no report is made and nothing is published. *)
Theorem a_failing_repository_ends_the_run
    (run_time : datetime) (pre post : list Repo) (repo : Repo)
    (t : Totals) (e : exn) (w w1 w2 : World) :
  aggregate pre w = (Ret t, w1) ->
  visit repo t w1 = (Raise e, w2) ->
  aggregate (pre ++ repo :: post) w = (Raise e, w2)
  /\ main run_time (pre ++ repo :: post) w = (Raise e, w2).
Proof.
  intros Hpre Hrepo.
  assert (H : aggregate (pre ++ repo :: post) w = (Raise e, w2)).
  { exact (for_each_raises _ _ _ _ _ _ _ _ _ _ Hpre Hrepo). }
  split; [exact H |].
  unfold UpdateCpOrgLibraries.main, report. rewrite !bind_run, H. reflexivity.
Qed.

(** A turn of the loop keeps the count of the merged pull requests equal
    to the number of the contributors accumulated. *)
Lemma visit_counts (repo : Repo) (t t' : Totals) (w w' : World) :
  visit repo t w = (Ret t', w') ->
  merged_pr_count_total t = Z.of_nat (length (contributors t)) ->
  merged_pr_count_total t' = Z.of_nat (length (contributors t')).
Proof.
  intros H Ht. unfold UpdateCpOrgLibraries.visit in H.
  destruct (skipped BUNDLE_IGNORE_LIST repo); [returned H; exact Ht |].
  apply bind_inv in H as (check_releases & wa & _ & H).
  apply bind_inv in H as ([check_issues check_prs] & wb & _ & H).
  apply bind_inv in H as ([[get_contribs get_revs] get_merge_count] & wc & Hc & H).
  apply bind_inv in H as (errors & wd & _ & H).
  apply bind_inv in H as (ledger & we & _ & H).
  cbv zeta in H. returned H. cbn [merged_pr_count_total contributors].
  destruct (get_contributors_run _ _ _ _ _ _ Hc) as [-> _].
  rewrite length_app. lia.
Qed.

(** X19. In the accumulators of a run, the count of the merged pull
    requests is the number of the contributors accumulated, repetitions
    included; so the [merged_pr_count] of the report is never below the
    number of the contributors it lists. *)
Theorem merged_count_is_the_number_of_contributions
    (repos : list Repo) (t : Totals) (w w' : World) :
  aggregate repos w = (Ret t, w') ->
  merged_pr_count_total t = Z.of_nat (length (contributors t))
  /\ Z.of_nat (length (unique (contributors t))) <= merged_pr_count_total t.
Proof.
  intros H.
  assert (Hcount : merged_pr_count_total t = Z.of_nat (length (contributors t))).
  { refine (aggregate_invariant BUNDLE_IGNORE_LIST ERROR_OUTPUT_HANDLER
              is_new_or_updated run_repo_validation
              (fun t => merged_pr_count_total t = Z.of_nat (length (contributors t)))
              visit_counts repos no_totals t w w' H _).
    reflexivity. }
  split; [exact Hcount |]. rewrite Hcount. apply inj_le.
  apply submseteq_length, NoDup_submseteq; [apply unique_NoDup |].
  intros x. apply unique_elem.
Qed.

End Loop.

(** ** The environment of the process *)

Section Environment.

Lemma keeps_ret {A} (a : A) : keeps_environ (mret a : M A).
Proof. intros w. reflexivity. Qed.

Lemma keeps_raise {A} (e : exn) : keeps_environ (raise e : M A).
Proof. intros w. reflexivity. Qed.

Lemma keeps_lift {A} (r : exn + A) : keeps_environ (lift r).
Proof. destruct r; [apply keeps_raise | apply keeps_ret]. Qed.

Lemma keeps_lift_opt {A} (e : exn) (o : option A) : keeps_environ (lift_opt e o).
Proof. destruct o; [apply keeps_ret | apply keeps_raise]. Qed.

Lemma keeps_now : keeps_environ now.
Proof. intros w. cbn. apply tick_environ. Qed.

Lemma keeps_in_environ (name : string) : keeps_environ (in_environ name).
Proof. intros w. reflexivity. Qed.

Lemma keeps_sleep (seconds : Z) : keeps_environ (sleep seconds).
Proof. intros w. reflexivity. Qed.

Lemma keeps_bind {A B} (m : M A) (f : A -> M B) :
  keeps_environ m -> (forall a, keeps_environ (f a)) -> keeps_environ (m ≫= f).
Proof.
  intros Hm Hf w. rewrite bind_run. specialize (Hm w).
  destruct (m w) as [[a | e |] w1]; cbn [snd] in *; try exact Hm.
  rewrite (Hf a w1). exact Hm.
Qed.

Lemma keeps_for_each {A S} (body : A -> S -> M S) (l : list A) :
  (forall x s, keeps_environ (body x s)) -> forall s, keeps_environ (for_each l body s).
Proof.
  intros Hbody. induction l as [| x l IH]; intros s; cbn [for_each].
  - apply keeps_ret.
  - apply keeps_bind; [apply Hbody | exact IH].
Qed.

Lemma keeps_call (v : verb) (url : string) (kwargs : Kwargs) :
  keeps_environ (call v url kwargs).
Proof.
  intros w. rewrite call_run. cbv zeta.
  destruct (wire w) as [| [r | e] rs]; cbn; apply tick_environ.
Qed.

Lemma keeps_pause_loop (rate_limit_reset : datetime) (fuel : nat) :
  keeps_environ (pause_loop fuel rate_limit_reset).
Proof.
  induction fuel as [| fuel IH]; [intros w; reflexivity |].
  cbn [pause_loop]. apply keeps_bind; [apply keeps_now | intros t].
  destruct (t <? rate_limit_reset); [| apply keeps_ret].
  apply keeps_bind; [apply keeps_in_environ | intros travis].
  apply keeps_bind; [| intros; exact IH].
  destruct travis; [apply keeps_sleep |].
  apply keeps_bind; [apply keeps_now | intros t']. apply keeps_sleep.
Qed.

Lemma keeps_get (url : string) (kwargs : Kwargs) : keeps_environ (get url kwargs).
Proof.
  unfold get. apply keeps_bind; [apply keeps_call | intros response].
  destruct (ci_get "X-RateLimit-Remaining" (headers response)); [| apply keeps_ret].
  apply keeps_bind; [apply keeps_lift_opt | intros remaining].
  apply keeps_bind; [| intros; apply keeps_ret].
  destruct (remaining <=? 1); [| apply keeps_ret].
  apply keeps_bind; [apply keeps_lift_opt | intros h'].
  apply keeps_bind; [apply keeps_lift_opt | intros t].
  apply keeps_bind.
  - intros w. destruct (fromtimestamp (utcoffset w) t); reflexivity.
  - intros reset w. apply keeps_pause_loop.
Qed.

End Environment.

(** Takes a computation apart down to its requests. *)
Ltac keeps_steps leaf :=
  repeat first
    [ leaf | apply keeps_get | apply keeps_call
    | apply keeps_ret | apply keeps_raise | apply keeps_lift | apply keeps_lift_opt
    | apply keeps_now | apply keeps_in_environ
    | apply keeps_bind; [| intros]
    | apply keeps_for_each; intros
    | match goal with
      | |- keeps_environ (if ?b then _ else _) => destruct b
      | |- keeps_environ (match ?x with _ => _ end) => destruct x
      | |- keeps_environ (let (_, _) := ?x in _) => destruct x
      end ].

Section Unpublished.

Variable BUNDLE_IGNORE_LIST : list string.
Variable ERROR_OUTPUT_HANDLER : string.
Variable is_new_or_updated : Repo -> M (option string).
Variable run_repo_validation : Repo -> M (list error_signal).

Local Abbreviation report :=
  (UpdateCpOrgLibraries.report BUNDLE_IGNORE_LIST ERROR_OUTPUT_HANDLER
     is_new_or_updated run_repo_validation).
Local Abbreviation main :=
  (UpdateCpOrgLibraries.main BUNDLE_IGNORE_LIST ERROR_OUTPUT_HANDLER
     is_new_or_updated run_repo_validation).

Lemma keeps_record_error (repo : Repo) (error : error_signal)
    (ledger : dict (list string)) :
  keeps_environ (record_error ERROR_OUTPUT_HANDLER repo error ledger).
Proof.
  intros w. unfold record_error. destruct error as [kind | kind days]; [| reflexivity].
  destruct (String.eqb kind ERROR_OUTPUT_HANDLER); reflexivity.
Qed.

Lemma keeps_report (run_time : datetime) (repos : list Repo) :
  (forall repo, keeps_environ (is_new_or_updated repo)) ->
  (forall repo, keeps_environ (run_repo_validation repo)) ->
  keeps_environ (report run_time repos).
Proof.
  intros Hclass Hval.
  unfold UpdateCpOrgLibraries.report, aggregate.
  apply keeps_bind; [| intros; apply keeps_ret].
  apply keeps_for_each. intros repo t. unfold visit.
  destruct (skipped BUNDLE_IGNORE_LIST repo); [apply keeps_ret |].
  apply keeps_bind; [apply Hclass | intros check_releases].
  apply keeps_bind.
  { unfold get_open_issues_and_prs, sort_issue, url_to_title.
    keeps_steps fail. }
  intros [check_issues check_prs]. apply keeps_bind.
  { unfold get_contributors, minus_days, scan_pr, login_of, add_approval.
    keeps_steps fail. }
  intros [[get_contribs get_revs] get_merge_count].
  apply keeps_bind; [apply Hval | intros errors].
  apply keeps_bind; [| intros; apply keeps_ret].
  apply keeps_for_each. intros. apply keeps_record_error.
Qed.

(** X14. As long as the classifier and the validator of [adabot.lib] only
    read, the making of the report only reads: whatever the answers and
    however it ends, the events it adds are GET requests and sleeps. And as
    long as they leave the environment alone, a run outside TRAVIS only
    reads as a whole: it publishes nothing. *)
Theorem a_run_outside_travis_only_reads (run_time : datetime) (repos : list Repo) :
  (forall repo, adds reads_only (is_new_or_updated repo)) ->
  (forall repo, adds reads_only (run_repo_validation repo)) ->
  adds reads_only (report run_time repos)
  /\ ((forall repo, keeps_environ (is_new_or_updated repo)) ->
      (forall repo, keeps_environ (run_repo_validation repo)) ->
      forall w,
        dict_has "TRAVIS" (environ w) = false ->
        exists evs,
          trace (snd (main run_time repos w)) = (trace w ++ evs)%list
          /\ Forall reads_only evs).
Proof.
  intros Hclass Hval.
  pose proof (adds_report BUNDLE_IGNORE_LIST ERROR_OUTPUT_HANDLER is_new_or_updated
                run_repo_validation run_time repos Hclass Hval) as Hreport.
  split; [exact Hreport |].
  intros Kclass Kval w Htravis.
  pose proof (keeps_report run_time repos Kclass Kval w) as Henv.
  destruct (Hreport w) as (evs & Htr & Hall).
  exists evs. split; [| exact Hall].
  unfold UpdateCpOrgLibraries.main. rewrite bind_run.
  destruct (report run_time repos w) as [[doc | e |] w1]; cbn [snd] in *;
    try exact Htr.
  cbv zeta. rewrite bind_run. unfold in_environ at 1. rewrite Henv, Htravis.
  exact Htr.
Qed.

End Unpublished.

(** ** The gate of the scheduled runs *)

Import Entry.

Section Gate.

Lemma isoweekday_range (t : datetime) : 1 <= isoweekday t <= 7.
Proof.
  unfold isoweekday. cbv zeta.
  pose proof (Z.mod_pos_bound (toordinal t) 7 ltac:(lia)) as H.
  destruct (toordinal t mod 7 =? 0) eqn:E; [lia |].
  apply Z.eqb_neq in E. lia.
Qed.

(** The gate under TRAVIS, once the day of the runs is read. *)
Lemma gate_run (w : World) (d : string) (n : Z) :
  dict_has "TRAVIS" (environ w) = true ->
  dict_get "CP_ORG_UPDATER_RUN_DAY" (environ w) = Some d ->
  int_of_str d = Some n ->
  gate w
  = (if negb (isoweekday (clock (tick w)) =? n) then
       (run_delta ← timedelta (n - isoweekday (clock (tick w)));
        should_run_date ← plus (clock (tick w)) run_delta;
        mret None)
     else mret (Some (clock (tick w)))) (tick w).
Proof.
  intros Htravis Hday Hn. unfold gate. rewrite bind_run. unfold now at 1. cbv zeta.
  rewrite bind_run. unfold in_environ at 1. rewrite tick_environ, Htravis.
  rewrite bind_run. unfold getenv at 1. rewrite tick_environ, Hday. cbn [lift_opt].
  rewrite ret_run, bind_run. unfold int at 1. rewrite Hn. cbn [lift_opt].
  rewrite ret_run. reflexivity.
Qed.

(** What is left of the gate on a day that is not the day of the runs. *)
Lemma gate_closed (t : datetime) (n : Z) (w : World) :
  fst ((run_delta ← timedelta (n - isoweekday t);
        should_run_date ← plus t run_delta;
        mret (@None datetime)) w)
  = if (t + timedelta_days (n - isoweekday t) <? dt_min)
       || (dt_end <=? t + timedelta_days (n - isoweekday t))
       || (n - isoweekday t <? -999999999) || (999999999 <? n - isoweekday t)
    then Raise OverflowError else Ret None.
Proof.
  rewrite bind_run. unfold timedelta at 1.
  destruct (n - isoweekday t <? -999999999) eqn:E1; cbn [orb].
  { rewrite !orb_true_r. reflexivity. }
  destruct (999999999 <? n - isoweekday t) eqn:E2; cbn [orb].
  { rewrite !orb_true_r. reflexivity. }
  rewrite !orb_false_r, ret_run, bind_run. unfold plus at 1. cbv zeta.
  destruct ((t + timedelta_days (n - isoweekday t) <? dt_min)
            || (dt_end <=? t + timedelta_days (n - isoweekday t))); reflexivity.
Qed.

(** X20. Under TRAVIS, the program goes on exactly when the day of the
    week of the start of the run, Monday being 1 and Sunday 7, is the day
    set in [CP_ORG_UPDATER_RUN_DAY]; so a day set outside 1..7 never lets a
    run through. Outside TRAVIS the program goes on whatever the day. *)
Theorem gate_opens_on_the_run_day_only (w : World) :
  (dict_has "TRAVIS" (environ w) = false ->
   gate w = (Ret (Some (clock (tick w))), tick w))
  /\ (forall d n,
        dict_has "TRAVIS" (environ w) = true ->
        dict_get "CP_ORG_UPDATER_RUN_DAY" (environ w) = Some d ->
        int_of_str d = Some n ->
        (n = isoweekday (clock (tick w)) <->
         gate w = (Ret (Some (clock (tick w))), tick w))
        /\ (~ 1 <= n <= 7 -> forall t, fst (gate w) <> Ret (Some t))).
Proof.
  split.
  - intros Htravis. unfold gate. rewrite bind_run. unfold now at 1. cbv zeta.
    rewrite bind_run. unfold in_environ at 1. rewrite tick_environ, Htravis.
    reflexivity.
  - intros d n Htravis Hday Hn. rewrite (gate_run w d n Htravis Hday Hn).
    pose proof (isoweekday_range (clock (tick w))) as Hrange.
    destruct (isoweekday (clock (tick w)) =? n) eqn:E; cbn [negb].
    + apply Z.eqb_eq in E. split; [split; [reflexivity | congruence] | lia].
    + apply Z.eqb_neq in E.
      assert (Hnot : forall t,
                 fst ((run_delta ← timedelta (n - isoweekday (clock (tick w)));
                       should_run_date ← plus (clock (tick w)) run_delta;
                       mret (@None datetime)) (tick w)) <> Ret (Some t)).
      { intros t. rewrite gate_closed.
        destruct (_ || _ || _ || _); discriminate. }
      split; [split; [congruence |] | intros _; exact Hnot].
      intros H. exfalso. apply (Hnot (clock (tick w))). rewrite H. reflexivity.
Qed.

(** X21. What can go wrong at the gate, under TRAVIS: without
    [CP_ORG_UPDATER_RUN_DAY] in the environment the program ends with a
    [KeyError]; with a value that [int] does not read, with a
    [ValueError]; and on a day that is not the day set, when the date of
    the next run falls outside the dates of [datetime], with an
    [OverflowError] where it would have left quietly. *)
Theorem gate_raises_on_a_bad_run_day (w : World) :
  dict_has "TRAVIS" (environ w) = true ->
  (dict_get "CP_ORG_UPDATER_RUN_DAY" (environ w) = None ->
   gate w = (Raise (KeyError "CP_ORG_UPDATER_RUN_DAY"), tick w))
  /\ (forall d,
        dict_get "CP_ORG_UPDATER_RUN_DAY" (environ w) = Some d ->
        int_of_str d = None ->
        gate w = (Raise (ValueError "invalid literal for int()"), tick w))
  /\ (forall d n,
        dict_get "CP_ORG_UPDATER_RUN_DAY" (environ w) = Some d ->
        int_of_str d = Some n ->
        n <> isoweekday (clock (tick w)) ->
        dt_end <= clock (tick w) + timedelta_days (n - isoweekday (clock (tick w))) ->
        fst (gate w) = Raise OverflowError).
Proof.
  intros Htravis.
  split; [| split].
  - intros Hday. unfold gate. rewrite bind_run. unfold now at 1. cbv zeta.
    rewrite bind_run. unfold in_environ at 1. rewrite tick_environ, Htravis.
    rewrite bind_run. unfold getenv at 1. rewrite tick_environ, Hday. reflexivity.
  - intros d Hday Hn. unfold gate. rewrite bind_run. unfold now at 1. cbv zeta.
    rewrite bind_run. unfold in_environ at 1. rewrite tick_environ, Htravis.
    rewrite bind_run. unfold getenv at 1. rewrite tick_environ, Hday. cbn [lift_opt].
    rewrite ret_run, bind_run. unfold int at 1. rewrite Hn. reflexivity.
  - intros d n Hday Hn Hne Hfar. rewrite (gate_run w d n Htravis Hday Hn).
    apply not_eq_sym, Z.eqb_neq in Hne. rewrite Hne. cbn [negb].
    rewrite gate_closed. apply Z.leb_le in Hfar. rewrite Hfar.
    rewrite orb_true_r. reflexivity.
Qed.

End Gate.

Section OffDay.

Variable BUNDLE_IGNORE_LIST : list string.
Variable ERROR_OUTPUT_HANDLER : string.
Variable is_new_or_updated : Repo -> M (option string).
Variable run_repo_validation : Repo -> M (list error_signal).
Variable list_repos : M (list Repo).
Variable make_validator : M unit.

Local Abbreviation program :=
  (Entry.program BUNDLE_IGNORE_LIST ERROR_OUTPUT_HANDLER is_new_or_updated
     run_repo_validation list_repos make_validator).

(** X22. Under TRAVIS, on a day of the week that is not the day set, the
    program ends at the gate, normally: it has read the clock, and that is
    all; the repositories are not listed, no request goes out and nothing
    is slept. *)
Theorem an_off_day_run_does_nothing (w : World) (d : string) (n : Z) :
  dict_has "TRAVIS" (environ w) = true ->
  dict_get "CP_ORG_UPDATER_RUN_DAY" (environ w) = Some d ->
  int_of_str d = Some n ->
  1 <= n <= 7 ->
  n <> isoweekday (clock (tick w)) ->
  dt_min + timedelta_days 6 <= clock (tick w) < dt_end - timedelta_days 6 ->
  program w = (Ret None, tick w)
  /\ trace (tick w) = trace w
  /\ wire (tick w) = wire w.
Proof.
  intros Htravis Hday Hn Hweek Hne Hclock.
  split; [| split; [apply tick_trace | apply tick_wire]].
  unfold Entry.program. rewrite bind_run, (gate_run w d n Htravis Hday Hn).
  apply not_eq_sym, Z.eqb_neq in Hne. rewrite Hne. cbn [negb].
  pose proof (isoweekday_range (clock (tick w))) as Hrange.
  rewrite bind_run. unfold timedelta at 1.
  assert (E1 : (n - isoweekday (clock (tick w)) <? -999999999) = false)
    by (apply Z.ltb_ge; lia).
  assert (E2 : (999999999 <? n - isoweekday (clock (tick w))) = false)
    by (apply Z.ltb_ge; lia).
  rewrite E1, E2. cbn [orb]. rewrite ret_run, bind_run. unfold plus at 1. cbv zeta.
  unfold timedelta_days in *.
  assert (E3 : (clock (tick w) + (n - isoweekday (clock (tick w))) * us_per_day
                <? dt_min) = false).
  { apply Z.ltb_ge. unfold us_per_day, us_per_second in *. lia. }
  assert (E4 : (dt_end <=? clock (tick w)
                           + (n - isoweekday (clock (tick w))) * us_per_day) = false).
  { apply Z.leb_gt. unfold us_per_day, us_per_second in *. lia. }
  rewrite E3, E4. reflexivity.
Qed.

End OffDay.

(** ** Runs come to an end *)

Section Settling.

Lemma settles_ret {A} (a : A) : settles (mret a : M A).
Proof. intros w. discriminate. Qed.

Lemma settles_raise {A} (e : exn) : settles (raise e : M A).
Proof. intros w. discriminate. Qed.

Lemma settles_lift {A} (r : exn + A) : settles (lift r).
Proof. destruct r; [apply settles_raise | apply settles_ret]. Qed.

Lemma settles_lift_opt {A} (e : exn) (o : option A) : settles (lift_opt e o).
Proof. destruct o; [apply settles_ret | apply settles_raise]. Qed.

Lemma settles_now : settles now.
Proof. intros w. discriminate. Qed.

Lemma settles_in_environ (name : string) : settles (in_environ name).
Proof. intros w. discriminate. Qed.

Lemma settles_bind {A B} (m : M A) (f : A -> M B) :
  settles m -> (forall a, settles (f a)) -> settles (m ≫= f).
Proof.
  intros Hm Hf w. rewrite bind_run. specialize (Hm w).
  destruct (m w) as [[a | e |] w1]; cbn [fst] in *;
    [apply Hf | discriminate | contradiction].
Qed.

Lemma settles_for_each {A S} (body : A -> S -> M S) (l : list A) :
  (forall x s, settles (body x s)) -> forall s, settles (for_each l body s).
Proof.
  intros Hbody. induction l as [| x l IH]; intros s; cbn [for_each].
  - apply settles_ret.
  - apply settles_bind; [apply Hbody | exact IH].
Qed.

Lemma settles_call (v : verb) (url : string) (kwargs : Kwargs) :
  settles (call v url kwargs).
Proof.
  intros w. rewrite call_run. cbv zeta.
  destruct (wire w) as [| [r | e] rs]; discriminate.
Qed.

Lemma settles_get (url : string) (kwargs : Kwargs) : settles (get url kwargs).
Proof. intros w. apply get_never_hangs. Qed.

End Settling.

(** Takes a computation apart down to its requests. *)
Ltac settles_steps :=
  repeat first
    [ apply settles_get | apply settles_call
    | apply settles_ret | apply settles_raise | apply settles_lift
    | apply settles_lift_opt | apply settles_now | apply settles_in_environ
    | apply settles_bind; [| intros]
    | apply settles_for_each; intros
    | match goal with
      | |- settles (if ?b then _ else _) => destruct b
      | |- settles (match ?x with _ => _ end) => destruct x
      | |- settles (let (_, _) := ?x in _) => destruct x
      end ].

Section Ending.

Variable BUNDLE_IGNORE_LIST : list string.
Variable ERROR_OUTPUT_HANDLER : string.
Variable is_new_or_updated : Repo -> M (option string).
Variable run_repo_validation : Repo -> M (list error_signal).

Local Abbreviation main :=
  (UpdateCpOrgLibraries.main BUNDLE_IGNORE_LIST ERROR_OUTPUT_HANDLER
     is_new_or_updated run_repo_validation).

Lemma settles_record_error (repo : Repo) (error : error_signal)
    (ledger : dict (list string)) :
  settles (record_error ERROR_OUTPUT_HANDLER repo error ledger).
Proof.
  intros w. unfold record_error. destruct error as [kind | kind days]; [| discriminate].
  destruct (String.eqb kind ERROR_OUTPUT_HANDLER); discriminate.
Qed.

(** X23. A run comes to an end, with the report or with an exception, as
    long as the classifier and the validator of [adabot.lib] do: whatever
    the answers of the network, however often they ask for a pause and
    however the clock moves, no query of the run and no step of the
    publication waits for ever. *)
Theorem a_run_comes_to_an_end (run_time : datetime) (repos : list Repo) :
  (forall repo, settles (is_new_or_updated repo)) ->
  (forall repo, settles (run_repo_validation repo)) ->
  settles (main run_time repos).
Proof.
  intros Hclass Hval. unfold UpdateCpOrgLibraries.main, report, aggregate.
  apply settles_bind.
  - apply settles_bind; [| intros; apply settles_ret].
    apply settles_for_each. intros repo t. unfold visit.
    destruct (skipped BUNDLE_IGNORE_LIST repo); [apply settles_ret |].
    apply settles_bind; [apply Hclass | intros check_releases].
    apply settles_bind.
    { unfold get_open_issues_and_prs, sort_issue, url_to_title. settles_steps. }
    intros [check_issues check_prs]. apply settles_bind.
    { unfold get_contributors, minus_days, scan_pr, login_of, add_approval.
      settles_steps. }
    intros [[get_contribs get_revs] get_merge_count].
    apply settles_bind; [apply Hval | intros errors].
    apply settles_bind; [| intros; apply settles_ret].
    apply settles_for_each. intros. apply settles_record_error.
  - intros doc. cbv zeta.
    apply settles_bind; [apply settles_in_environ | intros travis].
    destruct travis; [| apply settles_ret].
    apply settles_bind; [| intros; apply settles_ret].
    unfold update_json_file, github.post, github.put, post, put. settles_steps.
Qed.

End Ending.

(** ** The reviewers of a pull request *)

Section Reviewers.

Lemma login_of_has (who : string) (v : json) (l : string) (w w1 : World) :
  login_of who v w = (Ret l, w1) -> has_login who v l.
Proof.
  unfold login_of, has_login. intros H. rewrite bind_run in H.
  destruct v as [| | | | | d]; cbn [member lift] in H; try discriminate.
  destruct (dict_get who d) as [u |] eqn:Hu; cbn [lift] in H; [| discriminate].
  rewrite ret_run, bind_run in H.
  destruct u as [| | | | | du]; cbn [member lift] in H; try discriminate.
  destruct (dict_get "login" du) as [x |] eqn:Hl; cbn [lift] in H; [| discriminate].
  rewrite ret_run in H.
  destruct x as [| | | s | |]; cbn [as_str lift] in H; try discriminate.
  exists d, du. split; [reflexivity | split; [exact Hu |]].
  rewrite Hl. unfold mret, M_ret in H. congruence.
Qed.

Lemma has_login_author (v : json) (l : string) :
  has_login "user" v l -> author_of v = l.
Proof.
  intros (d & du & -> & Hu & Hl). unfold author_of. rewrite Hu, Hl. reflexivity.
Qed.

(** A review adds the login of its author when its state, in any case, is
    "approved", and nothing otherwise. *)
Lemma add_approval_run (review : json) (rs rs' : list string) (w w' : World) :
  add_approval review rs w = (Ret rs', w') ->
  rs' = if approved review then (rs ++ [reviewer_of review])%list else rs.
Proof.
  unfold add_approval. intros H. rewrite bind_run in H.
  destruct review as [| | | | | d]; cbn [member lift] in H; try discriminate.
  unfold approved.
  destruct (dict_get "state" d) as [state |]; cbn [lift] in H; [| discriminate].
  rewrite ret_run, bind_run in H.
  destruct state as [| | | s | |]; cbn [lift] in H; try discriminate.
  rewrite ret_run in H.
  destruct (String.eqb (lower s) "approved").
  - apply bind_inv in H as (l & w1 & Hl & H). returned H.
    unfold reviewer_of. rewrite (has_login_author _ _ (login_of_has _ _ _ _ _ Hl)).
    reflexivity.
  - returned H. reflexivity.
Qed.

Lemma add_approvals_run (reviews : list json) :
  forall (rs rs' : list string) (w w' : World),
    for_each reviews add_approval rs w = (Ret rs', w') ->
    rs' = (rs ++ map reviewer_of (List.filter approved reviews))%list.
Proof.
  induction reviews as [| review reviews IH]; intros rs rs' w w' H; cbn [for_each] in H.
  - returned H. cbn. rewrite app_nil_r. reflexivity.
  - apply bind_inv in H as (rs1 & w1 & Hone & H).
    apply add_approval_run in Hone. apply IH in H. subst rs' rs1.
    cbn [List.filter]. destruct (approved review); [| reflexivity].
    cbn [map]. rewrite <- app_assoc. reflexivity.
Qed.

(** What a pull request counted by [get_contributors] adds to the
    reviewers. *)
Lemma scan_pr_run
    (t7 : datetime) (pr : json) (cs rs cs' rs' : list string) (n n' : Z)
    (w w' : World) :
  scan_pr t7 pr (cs, rs, n) w = (Ret (cs', rs', n'), w') ->
  merged_in_window t7 pr = true ->
  exists (url : string) (single_pr : Response) (w1 : World),
    member "url" pr = inr (JStr url)
    /\ github.get url no_kwargs w = (Ret single_pr, w1)
    /\ if ok single_pr then
         exists (pr_info : json) (merger reviews_url : string) (pr_reviews : Response),
           body single_pr = Some pr_info
           /\ has_login "merged_by" pr_info merger
           /\ (exists u, member "url" pr_info = inr u /\ str_of u = inr reviews_url)
           /\ github.get (reviews_url ++ "/reviews") no_kwargs w1 = (Ret pr_reviews, w')
           /\ if ok pr_reviews then
                exists (listing : json) (reviews : list json),
                  body pr_reviews = Some listing
                  /\ iterate listing = inr reviews
                  /\ rs' = (rs ++ merger
                               :: map reviewer_of (List.filter approved reviews))%list
              else rs' = (rs ++ [merger])%list
       else rs' = rs /\ w' = w1.
Proof.
  intros H Hwin.
  destruct pr as [| | | | | d]; simpl in Hwin; try discriminate.
  destruct (dict_get "merged_at" d) as [[| | | m | |] |] eqn:Hm; try discriminate.
  destruct (strptime m) as [merged_at |] eqn:Hp; try discriminate.
  apply negb_true_iff in Hwin.
  unfold scan_pr in H. mrun_in H.
  unfold dict_has in H. rewrite Hm in H. mrun_in H.
  rewrite Hp in H. mrun_in H. rewrite Hwin in H.
  step_pure H. cbn [member]. rewrite bind_run in H.
  destruct (dict_get "url" d) as [u |]; cbn [lift] in H; [| discriminate].
  rewrite ret_run, bind_run in H.
  destruct u as [| | | url | |]; cbn [lift] in H; try discriminate.
  rewrite ret_run in H.
  apply bind_inv in H as (single_pr & w1 & Hget & H).
  exists url, single_pr, w1. split; [reflexivity | split; [exact Hget |]].
  destruct (ok single_pr); cbn [negb] in H; [| returned H; auto].
  apply bind_inv in H as (pr_info & wa & Hbody & H).
  unfold json_of in Hbody.
  destruct (body single_pr) as [x |]; cbn [lift_opt] in Hbody; [| discriminate].
  returned Hbody.
  apply bind_inv in H as (merger & wb & Hmerger & H).
  pose proof (login_of_world _ _ _ _ _ Hmerger). subst wb.
  apply login_of_has in Hmerger.
  rewrite bind_run in H.
  destruct (member "url" pr_info) as [e | u'] eqn:Hu; cbn [lift] in H; [discriminate |].
  rewrite ret_run, bind_run in H.
  destruct (str_of u') as [e | reviews_url] eqn:Hs; cbn [lift] in H; [discriminate |].
  rewrite ret_run in H.
  apply bind_inv in H as (pr_reviews & w2 & Hget2 & H).
  exists pr_info, merger, reviews_url, pr_reviews.
  destruct (ok pr_reviews) eqn:Hok; cbn [negb] in H.
  - apply bind_inv in H as (listing & wc & Hbody2 & H).
    unfold json_of in Hbody2.
    destruct (body pr_reviews) as [y |]; cbn [lift_opt] in Hbody2; [| discriminate].
    returned Hbody2.
    rewrite bind_run in H.
    destruct (iterate listing) as [e | reviews] eqn:Hit; cbn [lift] in H;
      [discriminate |].
    rewrite ret_run in H.
    apply bind_inv in H as (rs2 & w3 & Hloop & H).
    pose proof (add_approvals_world _ _ _ _ _ Hloop). subst w3.
    apply add_approvals_run in Hloop. returned H.
    split; [reflexivity | split; [exact Hmerger | split; [eauto | split; [exact Hget2 |]]]].
    exists listing, reviews. split; [reflexivity | split; [exact Hit |]].
    rewrite <- app_assoc. reflexivity.
  - returned H.
    split; [reflexivity | split; [exact Hmerger | split; [eauto | split; [exact Hget2 |]]]].
    reflexivity.
Qed.

(** X24. The reviewers that a pull request counted by [get_contributors]
    adds: none when its detail is refused; the login of who merged it when
    the listing of its reviews is refused; and otherwise that login
    followed by the logins of the authors of the reviews whose state, in
    any case, is "approved", one for each such review, in the order of the
    listing. *)
Theorem reviewers_are_the_merger_and_the_approvers
    (t7 : datetime) (pr : json) (cs rs cs' rs' : list string) (n n' : Z)
    (w w' : World) :
  scan_pr t7 pr (cs, rs, n) w = (Ret (cs', rs', n'), w') ->
  merged_in_window t7 pr = true ->
  exists (url : string) (single_pr : Response) (w1 : World),
    member "url" pr = inr (JStr url)
    /\ github.get url no_kwargs w = (Ret single_pr, w1)
    /\ if ok single_pr then
         exists (pr_info : json) (merger reviews_url : string) (pr_reviews : Response),
           body single_pr = Some pr_info
           /\ has_login "merged_by" pr_info merger
           /\ (exists u, member "url" pr_info = inr u /\ str_of u = inr reviews_url)
           /\ github.get (reviews_url ++ "/reviews") no_kwargs w1 = (Ret pr_reviews, w')
           /\ if ok pr_reviews then
                exists (listing : json) (reviews : list json),
                  body pr_reviews = Some listing
                  /\ iterate listing = inr reviews
                  /\ rs' = (rs ++ merger
                               :: map reviewer_of (List.filter approved reviews))%list
              else rs' = (rs ++ [merger])%list
       else rs' = rs /\ w' = w1.
Proof. apply scan_pr_run. Qed.

End Reviewers.

(** ** The lists of the report *)

Section Lists.

Variable BUNDLE_IGNORE_LIST : list string.
Variable ERROR_OUTPUT_HANDLER : string.
Variable is_new_or_updated : Repo -> M (option string).
Variable run_repo_validation : Repo -> M (list error_signal).

Local Abbreviation visit :=
  (UpdateCpOrgLibraries.visit BUNDLE_IGNORE_LIST ERROR_OUTPUT_HANDLER
     is_new_or_updated run_repo_validation).
Local Abbreviation report :=
  (UpdateCpOrgLibraries.report BUNDLE_IGNORE_LIST ERROR_OUTPUT_HANDLER
     is_new_or_updated run_repo_validation).

Lemma no_empty_list_set {V} (k : string) (l : list V) (d : dict (list V)) :
  l <> [] -> no_empty_list d -> no_empty_list (dict_set k l d).
Proof.
  intros Hl Hd k' l' H. destruct (String.eqb_spec k k') as [<- | Hne].
  - rewrite dict_get_set_eq in H. congruence.
  - rewrite dict_get_set_ne in H by exact Hne. exact (Hd _ _ H).
Qed.

Lemma no_empty_list_append (k x : string) (d : dict (list string)) :
  no_empty_list d -> no_empty_list (dict_append k x d).
Proof.
  intros Hd k' l' H. destruct (String.eqb_spec k k') as [<- | Hne].
  - rewrite dict_append_get_eq in H. injection H as <-.
    destruct (dict_get k d); intros Heq; apply app_eq_nil in Heq as [_ Heq];
      discriminate.
  - rewrite dict_append_get_ne in H by exact Hne. exact (Hd _ _ H).
Qed.

Lemma no_empty_list_sorted_copy {V} (d : dict (list V)) :
  no_empty_list d -> no_empty_list (sorted_copy d).
Proof. intros Hd k l H. rewrite dict_get_sorted_copy in H. exact (Hd _ _ H). Qed.

Lemma visit_no_empty_list (repo : Repo) (t t' : Totals) (w w' : World) :
  visit repo t w = (Ret t', w') ->
  no_empty_list (open_issues_by_repo t) /\ no_empty_list (open_prs_by_repo t)
  /\ no_empty_list (repos_by_error t) ->
  no_empty_list (open_issues_by_repo t') /\ no_empty_list (open_prs_by_repo t')
  /\ no_empty_list (repos_by_error t').
Proof.
  intros H (Hi & Hp & He).
  destruct (skipped BUNDLE_IGNORE_LIST repo) eqn:Hskip.
  { rewrite (visit_skipped _ _ _ _ _ _ _ Hskip) in H. returned H. auto. }
  destruct (visit_inv _ _ _ _ _ _ _ _ _ H Hskip)
    as (check_releases & check_issues & check_prs & cs & rs & n & errors & w1 & w2
        & _ & ->).
  cbn [open_issues_by_repo open_prs_by_repo repos_by_error].
  split; [| split].
  - destruct check_issues; [exact Hi | apply no_empty_list_set; [discriminate | exact Hi]].
  - destruct check_prs; [exact Hp | apply no_empty_list_set; [discriminate | exact Hp]].
  - generalize (repos_by_error t) He. clear.
    induction errors as [| e errors IH]; intros d Hd; [exact Hd |].
    cbn [fold_left]. apply IH, no_empty_list_append, Hd.
Qed.

(** X26. No list of the report is empty: a repository appears under the
    open issues, or under the pull requests, with one item at least, and
    an error kind appears under the infrastructure errors with one
    repository at least. *)
Theorem report_lists_are_never_empty
    (run_time : datetime) (repos : list Repo) (w w' : World) (doc : json) :
  report run_time repos w = (Ret doc, w') ->
  forall section name v,
    section ∈ ["open_issues"; "pull_requests"; "repo_infrastructure_errors"] ->
    member name (under section doc) = inr v ->
    exists x l, v = JArr (x :: l).
Proof.
  intros H. unfold UpdateCpOrgLibraries.report in H.
  apply bind_inv in H as (t & w1 & Hagg & H).
  assert (Hinv : no_empty_list (open_issues_by_repo t)
                 /\ no_empty_list (open_prs_by_repo t)
                 /\ no_empty_list (repos_by_error t)).
  { refine (aggregate_invariant BUNDLE_IGNORE_LIST ERROR_OUTPUT_HANDLER
              is_new_or_updated run_repo_validation
              (fun t => no_empty_list (open_issues_by_repo t)
                        /\ no_empty_list (open_prs_by_repo t)
                        /\ no_empty_list (repos_by_error t))
              visit_no_empty_list repos no_totals t w w1 Hagg _).
    repeat split; intros k l Hk; discriminate. }
  destruct Hinv as (Hi & Hp & He). returned H.
  assert (Hlist : forall (V : Type) (g : list V -> json) (d : dict (list V)) name v,
             (forall l, l <> [] -> exists x r, g l = JArr (x :: r)) ->
             no_empty_list d ->
             member name (JObj (map (fun kv => (fst kv, g (snd kv))) (sorted_copy d)))
             = inr v ->
             exists x l, v = JArr (x :: l)).
  { intros V g d name v Hg Hd Hm. cbn [member] in Hm.
    rewrite (dict_get_map_values g) in Hm.
    destruct (dict_get name (sorted_copy d)) as [l |] eqn:Hk; [| discriminate].
    injection Hm as <-.
    exact (Hg l (no_empty_list_sorted_copy d Hd _ _ Hk)). }
  assert (Harr : forall l : list json, l <> [] -> exists x r, JArr l = JArr (x :: r)).
  { intros [| x r] Hl; [congruence | eauto]. }
  assert (Hstr : forall l : list string, l <> [] -> exists x r, str_list l = JArr (x :: r)).
  { intros [| x r] Hl; [congruence | unfold str_list; cbn [map]; eauto]. }
  intros section name v Hsec Hm.
  apply elem_of_cons in Hsec as [-> | Hsec].
  { exact (Hlist _ JArr (open_issues_by_repo t) name v Harr Hi Hm). }
  apply elem_of_cons in Hsec as [-> | Hsec].
  { exact (Hlist _ JArr (open_prs_by_repo t) name v Harr Hp Hm). }
  apply elem_of_cons in Hsec as [-> | Hsec]; [| inversion Hsec].
  exact (Hlist _ str_list (repos_by_error t) name v Hstr He Hm).
Qed.

End Lists.

(** ** The writes of a publication, however it ends *)

Section WriteOrder.

Lemma get_written_any (url : string) (kwargs : Kwargs) (w : World) :
  written (trace (snd (get url kwargs w))) = written (trace w).
Proof.
  destruct (get_trace url kwargs w) as (naps & Htr & _).
  rewrite Htr, written_app. cbn [written]. rewrite written_naps. apply app_nil_r.
Qed.

Lemma call_written_any (v : verb) (url : string) (kwargs : Kwargs) (w : World) :
  v <> GET ->
  written (trace (snd (call v url kwargs w)))
  = (written (trace w) ++ [(v, _fix_url url, kw_json kwargs)])%list.
Proof.
  intros Hv. rewrite call_trace, written_app.
  destruct (fix_kwargs_headers (environ w) kwargs) as (_ & Hj & _).
  cbn [written]. rewrite Hj. destruct v; try reflexivity. contradiction.
Qed.

(** No look-up of the commit and of the blob succeeded, by what is known of
    the run. *)
Ltac no_look_up :=
  let G1 := fresh in let G2 := fresh in
  intros ? ? ? (? & ? & ? & ? & ? & ? & G1 & ? & ? & ? & ? & G2 & ? & ? & ?);
  repeat match goal with
         | H : ?x = _, H' : ?x = _ |- _ => rewrite H in H'
         end;
  try congruence;
  match goal with
  | H : (Ret _, _) = (Ret _, _) |- _ => injection H as <- <-
  end;
  repeat match goal with
         | H : ?x = _, H' : ?x = _ |- _ => rewrite H in H'
         end;
  congruence.

(** Closes a case of the run of the last part of the publication from what
    is known of the trace. *)
Ltac written_so_far more :=
  exists more; rewrite ?ret_run; unfold raise; cbn [snd];
  split;
  [ repeat match goal with
           | H : written (trace ?x) = _ |- context [written (trace ?x)] =>
               rewrite H; clear H
           end;
    rewrite <- ?app_assoc, ?app_nil_r; reflexivity
  | eexists; reflexivity ].

(** The writes of the last part of a publication, however it ends: the
    creation of the branch is among them. *)
Lemma writes_in_order
    (commit_date : datetime) (commit_sha : string) (blob_sha : json)
    (json_string : string) (w : World) :
  let create := (POST, _fix_url (fork_url ++ "git/refs"),
                 Some (branch_info_of commit_date commit_sha)) in
  exists more : list (verb * string * option json),
    written (trace (snd (writes commit_date commit_sha blob_sha json_string w)))
    = (written (trace w) ++ create :: more)%list
    /\ (create :: more) `prefix_of`
       [create;
        (PUT, _fix_url (fork_url ++ "contents/_data/libraries.json"),
         Some (update_json_of commit_date blob_sha json_string));
        (POST, _fix_url (master_url ++ "pulls"),
         Some (pr_info_of commit_date))].
Proof.
  intros create.
  set (update := (PUT, _fix_url (fork_url ++ "contents/_data/libraries.json"),
                  Some (update_json_of commit_date blob_sha json_string))).
  set (open := (POST, _fix_url (master_url ++ "pulls"),
                Some (pr_info_of commit_date))).
  assert (Hrest :
            forall w3,
              written (trace w3) = (written (trace w) ++ [create])%list ->
              exists more : list (verb * string * option json),
                written
                  (trace
                     (snd
                        ((response ← github.put (fork_url ++ "contents/_data/libraries.json")
                                       (json_body
                                          (update_json_of commit_date blob_sha
                                             json_string));
                          (if negb (ok response)
                           then raise (RuntimeError
                                         ("Failed to update libraries.json:" ++ nl
                                            ++ text response))
                           else mret tt);;
                          response ← github.post (master_url ++ "pulls")
                                       (json_body (pr_info_of commit_date));
                          if negb (ok response)
                          then raise (RuntimeError
                                        ("Failed to create pull request:" ++ nl
                                           ++ text response))
                          else mret tt) w3)))
                = (written (trace w) ++ create :: more)%list
                /\ (create :: more) `prefix_of` [create; update; open]).
  { intros w3 H3. rewrite bind_run.
    pose proof (call_written_any PUT (fork_url ++ "contents/_data/libraries.json")
                  (json_body (update_json_of commit_date blob_sha json_string)) w3
                  ltac:(discriminate)) as H4.
    unfold put at 1.
    destruct (call PUT (fork_url ++ "contents/_data/libraries.json")
                (json_body (update_json_of commit_date blob_sha json_string)) w3)
      as [[r4 | e |] w4]; cbn [snd kw_json json_body] in H4; fold update in H4;
      try solve [written_so_far [update]].
    rewrite bind_run.
    destruct (ok r4); cbn [negb]; [| written_so_far [update]].
    rewrite ret_run, bind_run.
    pose proof (call_written_any POST (master_url ++ "pulls")
                  (json_body (pr_info_of commit_date)) w4 ltac:(discriminate)) as H5.
    unfold post at 1.
    destruct (call POST (master_url ++ "pulls") (json_body (pr_info_of commit_date)) w4)
      as [[r5 | e |] w5]; cbn [snd kw_json json_body] in H5; fold open in H5;
      try solve [written_so_far [update; open]].
    destruct (negb (ok r5)); written_so_far [update; open]. }
  unfold writes. rewrite bind_run.
  pose proof (call_written_any POST (fork_url ++ "git/refs")
                (json_body (branch_info_of commit_date commit_sha)) w
                ltac:(discriminate)) as H3.
  unfold post at 1.
  destruct (call POST (fork_url ++ "git/refs")
              (json_body (branch_info_of commit_date commit_sha)) w)
    as [[r3 | e |] w3]; cbn [snd kw_json json_body] in H3; fold create in H3;
    try solve [written_so_far (@nil (verb * string * option json))].
  rewrite bind_run.
  destruct (ok r3); cbn [negb]; [rewrite ret_run; apply Hrest, H3 |].
  rewrite bind_run. unfold json_of at 1.
  destruct (body r3) as [j |]; cbn [lift_opt];
    [| written_so_far (@nil (verb * string * option json))].
  rewrite ret_run, bind_run.
  destruct (member "message" j) as [e | message]; cbn [lift];
    [written_so_far (@nil (verb * string * option json)) |].
  rewrite ret_run.
  destruct (negb (is_str "Reference already exists" message));
    [written_so_far (@nil (verb * string * option json)) |].
  rewrite ret_run. apply Hrest, H3.
Qed.

(** X25. However a publication ends, it has written nothing unless both
    look-ups had succeeded, and nothing had been written when they had. When
    they had, what it has written is an initial part of its three writes, in
    their order, with the commit and the blob of the look-ups: the creation
    of the branch, which is always among them, the update of the file on
    that branch, the opening of the pull request from that branch. *)
Theorem publication_writes_in_order (json_string : string) (w : World) :
  exists ws : list (verb * string * option json),
    written (trace (snd (update_json_file json_string w)))
    = (written (trace w) ++ ws)%list
    /\ ((ws = [] /\ forall commit_sha blob_sha w2, ~ looked_up w commit_sha blob_sha w2)
        \/ exists (commit_sha : string) (blob_sha : json) (w2 : World)
                  (more : list (verb * string * option json)),
             looked_up w commit_sha blob_sha w2
             /\ written (trace w2) = written (trace w)
             /\ ws = (POST, _fix_url (fork_url ++ "git/refs"),
                      Some (branch_info_of (clock (tick w)) commit_sha)) :: more
             /\ ws `prefix_of`
                [(POST, _fix_url (fork_url ++ "git/refs"),
                  Some (branch_info_of (clock (tick w)) commit_sha));
                 (PUT, _fix_url (fork_url ++ "contents/_data/libraries.json"),
                  Some (update_json_of (clock (tick w)) blob_sha json_string));
                 (POST, _fix_url (master_url ++ "pulls"),
                  Some (pr_info_of (clock (tick w))))]).
Proof.
  assert (Hnone : forall w1 : World,
             written (trace w1) = written (trace w) ->
             (forall commit_sha blob_sha w2, ~ looked_up w commit_sha blob_sha w2) ->
             exists ws : list (verb * string * option json),
               written (trace w1) = (written (trace w) ++ ws)%list
               /\ ((ws = []
                    /\ forall commit_sha blob_sha w2, ~ looked_up w commit_sha blob_sha w2)
                   \/ exists (commit_sha : string) (blob_sha : json) (w2 : World)
                             (more : list (verb * string * option json)),
                        looked_up w commit_sha blob_sha w2
                        /\ written (trace w2) = written (trace w)
                        /\ ws = (POST, _fix_url (fork_url ++ "git/refs"),
                                 Some (branch_info_of (clock (tick w)) commit_sha)) :: more
                        /\ ws `prefix_of`
                           [(POST, _fix_url (fork_url ++ "git/refs"),
                             Some (branch_info_of (clock (tick w)) commit_sha));
                            (PUT, _fix_url (fork_url ++ "contents/_data/libraries.json"),
                             Some (update_json_of (clock (tick w)) blob_sha json_string));
                            (POST, _fix_url (master_url ++ "pulls"),
                             Some (pr_info_of (clock (tick w))))])).
  { intros w1 H Hno. exists []. rewrite app_nil_r.
    split; [exact H | left; split; [reflexivity | exact Hno]]. }
  unfold update_json_file. rewrite bind_run. unfold now at 1. cbv zeta.
  rewrite bind_run.
  pose proof (get_written_any (master_url ++ "git/refs/heads/master") no_kwargs (tick w))
    as H1.
  rewrite tick_trace in H1.
  destruct (github.get (master_url ++ "git/refs/heads/master") no_kwargs (tick w))
    as [[r1 | e |] w1] eqn:G1; cbn [snd] in H1;
    try solve [apply Hnone; [exact H1 | no_look_up]].
  rewrite bind_run.
  destruct (ok r1) eqn:Ok1; cbn [negb]; [| apply Hnone; [exact H1 | no_look_up]].
  rewrite ret_run, bind_run. unfold json_of at 1.
  destruct (body r1) as [j1 |] eqn:B1; cbn [lift_opt];
    [| apply Hnone; [exact H1 | no_look_up]].
  rewrite ret_run, bind_run.
  destruct (member "object" j1) as [e | o] eqn:Mo; cbn [lift];
    [apply Hnone; [exact H1 | no_look_up] |].
  rewrite ret_run, bind_run.
  destruct (member "sha" o) as [e | sha] eqn:Ms; cbn [lift];
    [apply Hnone; [exact H1 | no_look_up] |].
  rewrite ret_run, bind_run.
  destruct (as_str sha) as [e | commit_sha] eqn:Es; cbn [lift];
    [apply Hnone; [exact H1 | destruct sha; try discriminate Es; no_look_up] |].
  apply as_str_inv in Es. subst sha.
  rewrite ret_run, bind_run.
  pose proof (get_written_any
                (master_url ++ "contents/_data/libraries.json?ref=" ++ commit_sha)
                no_kwargs w1) as H2.
  rewrite H1 in H2.
  destruct (github.get (master_url ++ "contents/_data/libraries.json?ref=" ++ commit_sha)
              no_kwargs w1) as [[r2 | e |] w2] eqn:G2; cbn [snd] in H2;
    try solve [apply Hnone; [exact H2 | no_look_up]].
  rewrite bind_run.
  destruct (ok r2) eqn:Ok2; cbn [negb]; [| apply Hnone; [exact H2 | no_look_up]].
  rewrite ret_run, bind_run. unfold json_of at 1.
  destruct (body r2) as [j2 |] eqn:B2; cbn [lift_opt];
    [| apply Hnone; [exact H2 | no_look_up]].
  rewrite ret_run, bind_run.
  destruct (member "sha" j2) as [e | blob_sha] eqn:Mb; cbn [lift];
    [apply Hnone; [exact H2 | no_look_up] |].
  rewrite ret_run.
  destruct (writes_in_order (clock (tick w)) commit_sha blob_sha json_string w2)
    as (more & Hw & Hp).
  eexists. split; [rewrite <- H2; exact Hw |].
  right. exists commit_sha, blob_sha, w2, more.
  split; [| split; [exact H2 | split; [reflexivity | exact Hp]]].
  exists r1, w1, j1, o, r2, j2. auto 10.
Qed.

End WriteOrder.

(** ** Runs that meet the hypotheses *)

Import Cases.

Lemma client_makes_one_request_witness :
  fst (client POST "/user" no_kwargs world_down) = Raise ConnectionError.
Proof. apply (client_makes_one_request POST "/user" no_kwargs world_down). reflexivity. Defined.

Lemma get_sleeps_within_bounds_witness :
  exists naps,
    naps_of (trace (snd (get "/user" no_kwargs Scenario.world_rate_limited))) = naps
    /\ Forall nap_ok naps.
Proof.
  destruct (get_sleeps_within_bounds "/user" no_kwargs Scenario.world_rate_limited)
    as (naps & H & Hok & _).
  exists naps. split; [exact H | exact Hok].
Defined.

Lemma get_with_quota_is_a_plain_request_witness :
  get "/user" no_kwargs world_served = call GET "/user" no_kwargs world_served.
Proof.
  apply (get_with_quota_is_a_plain_request "/user" no_kwargs world_served
           (mkResponse true [] EmptyString (Some JNull)) []).
  - reflexivity.
  - left. reflexivity.
Defined.

Lemma get_does_not_wait_for_a_past_reset_witness :
  clock (tick Cases.world_late) < make 2019 6 1 12 35 0
  /\ fst (get "/user" no_kwargs Cases.world_late) = Ret Scenario.rate_limited
  /\ naps_of (trace (snd (get "/user" no_kwargs Cases.world_late))) = [].
Proof.
  destruct (get_does_not_wait_for_a_past_reset "/user" no_kwargs Cases.world_late
              (tick (snd (call GET "/user" no_kwargs Cases.world_late)))
              Scenario.rate_limited [] "1" "1559392500" 1 1559392500
              (make 2019 6 1 12 35 0) (make 2019 6 1 12 35 0 + 500000))
    as (Hr & Hiff);
    [vm_compute; first [reflexivity | discriminate] .. |].
  split; [vm_compute; reflexivity |].
  split; [exact Hr |].
  apply Hiff. vm_compute. discriminate.
Defined.

Lemma get_raises_on_unreadable_headers_witness :
  fst (get "/user" no_kwargs world_unreadable)
  = Raise (ValueError "invalid literal for int()").
Proof.
  destruct (get_raises_on_unreadable_headers "/user" no_kwargs world_unreadable
              unreadable [] "soon" eq_refl eq_refl) as [H _].
  rewrite (H eq_refl). reflexivity.
Defined.

Lemma get_sleeps_once_on_a_steady_clock_witness :
  naps_of (trace (snd (get "/user" no_kwargs world_steady))) = [5].
Proof.
  apply (get_sleeps_once_on_a_steady_clock "/user" no_kwargs world_steady
           Scenario.rate_limited [] "1" "1559392500" 1 1559392500
           (make 2019 6 1 12 35 0));
    vm_compute; first [reflexivity | discriminate | split; reflexivity].
Defined.

Lemma get_oversleeps_when_the_reset_passes_in_between_witness :
  exists nap,
    naps_of (trace (snd (get "/user" no_kwargs world_slow))) = [nap] /\ 82800 < nap.
Proof.
  destruct (get_oversleeps_when_the_reset_passes_in_between
              "/user" no_kwargs world_slow
              Scenario.rate_limited [] "1" "1559392500" 1 1559392500
              (make 2019 6 1 12 35 0) 1000000%N 2000000%N 2000000%N [])
    as (nap & _ & Hnaps & Hlong & _);
    try (vm_compute; first [reflexivity | discriminate | split; [reflexivity | discriminate]]).
  exists nap. split; [exact Hnaps | exact Hlong].
Defined.

Lemma fix_kwargs_keeps_the_rest_witness :
  kw_json (_fix_kwargs token_env (json_body JNull)) = Some JNull.
Proof. apply (fix_kwargs_keeps_the_rest token_env (json_body JNull)). Defined.

Lemma token_goes_into_the_parameters_witness :
  exists sent,
    kw_params (_fix_kwargs token_env Scenario.issues_query) = Some sent
    /\ dict_get "access_token" sent = Some "s3cret"
    /\ dict_get "state" sent = Some "open".
Proof.
  destruct (token_goes_into_the_parameters token_env Scenario.issues_query) as [H _].
  destruct (H "s3cret" eq_refl eq_refl) as (sent & Hsent & Htoken & Hrest).
  exists sent. split; [exact Hsent | split; [exact Htoken |]].
  rewrite Hrest; [reflexivity | discriminate].
Defined.

Lemma get_contributors_cost_witness :
  2 <= requests_made Scenario.world_page
         (snd (get_contributors Scenario.library Scenario.world_page)) <= 3.
Proof.
  destruct (get_contributors_cost Scenario.library Scenario.world_page
              (snd (get_contributors Scenario.library Scenario.world_page))
              ["alice"] ["dan"; "erin"] 1) as [_ H];
    [vm_compute; reflexivity | lia].
Defined.

Lemma refused_listings_give_empty_results_witness :
  fst (get_contributors Scenario.library world_refused) = Ret ([], [], 0).
Proof.
  destruct (refused_listings_give_empty_results Scenario.library world_refused
              (snd (get_contributors Scenario.library world_refused))
              (mkResponse false [] "Not Found" None) eq_refl) as [_ H].
  rewrite H; [reflexivity | vm_compute; reflexivity].
Defined.

Lemma a_run_outside_travis_only_reads_witness :
  adds reads_only
    (report Scenario.ignore Scenario.handler Scenario.classifier Scenario.validator
       Scenario.june_3 [Scenario.library; Scenario.other_library]).
Proof.
  apply (a_run_outside_travis_only_reads Scenario.ignore Scenario.handler
           Scenario.classifier Scenario.validator Scenario.june_3
           [Scenario.library; Scenario.other_library]);
    intros repo; apply adds_ret.
Defined.

Lemma publication_makes_five_requests_witness :
  exists commit_sha blob_sha w2,
    looked_up Scenario.world_branch_exists commit_sha blob_sha w2
    /\ written (trace (snd (update_json_file "{}" Scenario.world_branch_exists)))
       = [(POST, _fix_url (fork_url ++ "git/refs"),
           Some (branch_info_of Scenario.june_3 commit_sha));
          (PUT, _fix_url (fork_url ++ "contents/_data/libraries.json"),
           Some (update_json_of Scenario.june_3 blob_sha "{}"));
          (POST, _fix_url (master_url ++ "pulls"), Some (pr_info_of Scenario.june_3))].
Proof.
  destruct (publication_makes_five_requests "{}" Scenario.world_branch_exists
              (snd (update_json_file "{}" Scenario.world_branch_exists)))
    as (commit_sha & blob_sha & w2 & Hl & _ & H); [vm_compute; reflexivity |].
  exists commit_sha, blob_sha, w2. split; [exact Hl | exact H].
Defined.

Lemma sorted_copy_forgets_the_order_witness :
  sorted_copy first_order = sorted_copy second_order.
Proof.
  apply (sorted_copy_forgets_the_order first_order second_order).
  - apply (bool_decide_unpack (NoDup (map lower (keys first_order)))).
    vm_compute. exact I.
  - apply (bool_decide_unpack (NoDup (keys second_order))). vm_compute. exact I.
  - intros k. cbn.
    destruct (String.eqb_spec k "b") as [-> | Hb]; [reflexivity |].
    destruct (String.eqb_spec k "A"); reflexivity.
Defined.

Lemma a_failing_repository_ends_the_run_witness :
  fst (main Scenario.ignore Scenario.handler Scenario.classifier Scenario.validator
         Scenario.june_3 [Scenario.library; Scenario.other_library] world_down)
  = Raise ConnectionError.
Proof.
  destruct (a_failing_repository_ends_the_run Scenario.ignore Scenario.handler
              Scenario.classifier Scenario.validator Scenario.june_3
              [] [Scenario.other_library] Scenario.library no_totals ConnectionError
              world_down world_down
              (snd (visit Scenario.ignore Scenario.handler Scenario.classifier
                      Scenario.validator Scenario.library no_totals world_down)))
    as [_ H]; [reflexivity | vm_compute; reflexivity |].
  cbn [app] in H. rewrite H. reflexivity.
Defined.

Lemma merged_count_is_the_number_of_contributions_witness :
  let t :=
    Scenario.totals_of
      (aggregate Scenario.ignore Scenario.handler Scenario.classifier
         Scenario.validator [Scenario.library] world_two_merges) in
  contributors t = ["alice"; "alice"]
  /\ unique (contributors t) = ["alice"]
  /\ merged_pr_count_total t = 2
  /\ merged_pr_count_total t = Z.of_nat (length (contributors t))
  /\ Z.of_nat (length (unique (contributors t))) <= merged_pr_count_total t.
Proof.
  intros t.
  split; [vm_compute; reflexivity |].
  split; [vm_compute; reflexivity |].
  split; [vm_compute; reflexivity |].
  apply (merged_count_is_the_number_of_contributions Scenario.ignore Scenario.handler
           Scenario.classifier Scenario.validator [Scenario.library] t
           world_two_merges
           (snd (aggregate Scenario.ignore Scenario.handler Scenario.classifier
                   Scenario.validator [Scenario.library] world_two_merges))).
  vm_compute. reflexivity.
Defined.

Lemma gate_opens_on_the_run_day_only_witness :
  gate (world_on_travis (Some "1")) = (Ret (Some Scenario.june_3), world_on_travis (Some "1"))
  /\ forall t, fst (gate (world_on_travis (Some "8"))) <> Ret (Some t).
Proof.
  split.
  - destruct (gate_opens_on_the_run_day_only (world_on_travis (Some "1"))) as [_ H].
    destruct (H "1" 1 eq_refl eq_refl eq_refl) as [Hiff _].
    apply Hiff. vm_compute. reflexivity.
  - destruct (gate_opens_on_the_run_day_only (world_on_travis (Some "8"))) as [_ H].
    destruct (H "8" 8 eq_refl eq_refl eq_refl) as [_ Hout].
    apply Hout. lia.
Defined.

Lemma gate_raises_on_a_bad_run_day_witness :
  gate (world_on_travis None)
  = (Raise (KeyError "CP_ORG_UPDATER_RUN_DAY"), world_on_travis None).
Proof.
  apply (gate_raises_on_a_bad_run_day (world_on_travis None)); reflexivity.
Defined.

Lemma an_off_day_run_does_nothing_witness :
  program Scenario.ignore Scenario.handler Scenario.classifier Scenario.validator
    listing making (world_on_travis (Some "2"))
  = (Ret None, world_on_travis (Some "2")).
Proof.
  apply (an_off_day_run_does_nothing Scenario.ignore Scenario.handler
           Scenario.classifier Scenario.validator listing making
           (world_on_travis (Some "2")) "2" 2);
    first [lia | vm_compute; first [reflexivity | discriminate
                                    | split; [discriminate | reflexivity]]].
Defined.

Lemma a_run_comes_to_an_end_witness :
  settles
    (main Scenario.ignore Scenario.handler Scenario.classifier Scenario.validator
       Scenario.june_3 [Scenario.library; Scenario.other_library]).
Proof.
  apply (a_run_comes_to_an_end Scenario.ignore Scenario.handler Scenario.classifier
           Scenario.validator Scenario.june_3
           [Scenario.library; Scenario.other_library]);
    intros repo; apply settles_ret.
Defined.

Lemma reviewers_are_the_merger_and_the_approvers_witness :
  exists url single_pr w1,
    member "url" Scenario.merged_pr = inr (JStr url)
    /\ github.get url no_kwargs world_reviews = (Ret single_pr, w1).
Proof.
  destruct (reviewers_are_the_merger_and_the_approvers
              (Scenario.june_3 - timedelta_days 7) Scenario.merged_pr
              [] [] ["alice"] ["dan"; "erin"] 0 1 world_reviews
              (snd (scan_pr (Scenario.june_3 - timedelta_days 7) Scenario.merged_pr
                      ([], [], 0) world_reviews)))
    as (url & single_pr & w1 & Hurl & Hget & _);
    [vm_compute; reflexivity | vm_compute; reflexivity |].
  exists url, single_pr, w1. split; [exact Hurl | exact Hget].
Defined.

Lemma report_lists_are_never_empty_witness :
  exists x l,
    JArr (map (fun kv => JObj [kv])
            [("https://github.com/adafruit/Adafruit_CircuitPython_BME280/issues/3",
              JStr "Altitude");
             ("https://github.com/adafruit/Adafruit_CircuitPython_BME280/issues/4",
              JStr "Docs")])
    = JArr (x :: l).
Proof.
  apply (report_lists_are_never_empty Scenario.ignore Scenario.handler
           Scenario.classifier Scenario.validator Scenario.june_3 [Scenario.library]
           world_one_library
           (snd (report Scenario.ignore Scenario.handler Scenario.classifier
                   Scenario.validator Scenario.june_3 [Scenario.library]
                   world_one_library))
           (build_json Scenario.june_3
              (Scenario.totals_of
                 (aggregate Scenario.ignore Scenario.handler Scenario.classifier
                    Scenario.validator [Scenario.library] world_one_library)))
           ltac:(vm_compute; reflexivity)
           "open_issues" "Adafruit_CircuitPython_BME280").
  - apply list_elem_of_here.
  - vm_compute. reflexivity.
Defined.

(** ** The time of the report *)

Section Timestamp.

Lemma all_from_spec (p : Z -> bool) (n : nat) :
  forall z, all_from n z p = true -> forall x, z <= x < z + Z.of_nat n -> p x = true.
Proof.
  induction n as [| k IH]; intros z H x Hx; [lia |].
  cbn [all_from] in H. apply andb_true_iff in H as [Hz H].
  destruct (Z.eq_dec x z) as [-> | Hne]; [exact Hz |].
  apply (IH (z + 1)); [exact H | lia].
Qed.

(** The days from 1970 to 2000, and from 2001 to 2099, counted from the
    start of their cycles of 400 years. *)
Lemma cycle_ok_1970 : all_from (Z.to_nat 11323) 134774 date_ok = true.
Proof. vm_compute. reflexivity. Qed.

Lemma cycle_ok_2001 : all_from (Z.to_nat 36159) 0 date_ok = true.
Proof. vm_compute. reflexivity. Qed.

(** The dates of these days, within their cycles. *)
Lemma date_of_cycle (r : Z) :
  134774 <= r < 146097 \/ 0 <= r < 36159 ->
  exists y m d,
    ord2ymd (r + 1) = (y, m, d)
    /\ 1 <= y <= 400 /\ 1 <= m <= 12 /\ 1 <= d <= days_in_month y m
    /\ ymd2ord y m d = r + 1.
Proof.
  intros Hr.
  assert (H : date_ok r = true).
  { destruct Hr as [Hr | Hr].
    - apply (all_from_spec date_ok _ _ cycle_ok_1970). rewrite Z2Nat.id; lia.
    - apply (all_from_spec date_ok _ _ cycle_ok_2001). rewrite Z2Nat.id; lia. }
  unfold date_ok in H. destruct (ord2ymd (r + 1)) as [[y m] d].
  repeat (apply andb_true_iff in H as [H ?]).
  exists y, m, d. repeat split; try reflexivity;
    repeat match goal with
           | E : (_ <=? _) = true |- _ => apply Z.leb_le in E
           | E : (_ =? _) = true |- _ => apply Z.eqb_eq in E
           end; lia.
Qed.

Lemma is_leap_shift (y k : Z) : is_leap (y + 400 * k) = is_leap y.
Proof.
  unfold is_leap.
  replace ((y + 400 * k) mod 4) with (y mod 4)
    by (replace (y + 400 * k) with (y + (100 * k) * 4) by lia;
        symmetry; apply Z.mod_add; lia).
  replace ((y + 400 * k) mod 100) with (y mod 100)
    by (replace (y + 400 * k) with (y + (4 * k) * 100) by lia;
        symmetry; apply Z.mod_add; lia).
  replace ((y + 400 * k) mod 400) with (y mod 400)
    by (replace (y + 400 * k) with (y + k * 400) by lia;
        symmetry; apply Z.mod_add; lia).
  reflexivity.
Qed.

Lemma days_before_year_shift (y k : Z) :
  days_before_year (y + 400 * k) = days_before_year y + 146097 * k.
Proof.
  unfold days_before_year. cbv zeta.
  replace ((y + 400 * k - 1) / 4) with ((y - 1) / 4 + 100 * k)
    by (replace (y + 400 * k - 1) with (y - 1 + (100 * k) * 4) by lia;
        symmetry; apply Z.div_add; lia).
  replace ((y + 400 * k - 1) / 100) with ((y - 1) / 100 + 4 * k)
    by (replace (y + 400 * k - 1) with (y - 1 + (4 * k) * 100) by lia;
        symmetry; apply Z.div_add; lia).
  replace ((y + 400 * k - 1) / 400) with ((y - 1) / 400 + k)
    by (replace (y + 400 * k - 1) with (y - 1 + k * 400) by lia;
        symmetry; apply Z.div_add; lia).
  lia.
Qed.

Lemma ymd2ord_shift (y m d k : Z) :
  ymd2ord (y + 400 * k) m d = ymd2ord y m d + 146097 * k.
Proof.
  unfold ymd2ord, days_before_month.
  rewrite days_before_year_shift, is_leap_shift. lia.
Qed.

Lemma days_in_month_shift (y m k : Z) :
  days_in_month (y + 400 * k) m = days_in_month y m.
Proof. unfold days_in_month. rewrite is_leap_shift. reflexivity. Qed.

Lemma ord2ymd_shift (k r : Z) :
  0 <= r < 146097 ->
  ord2ymd (146097 * k + r + 1)
  = let '(y, m, d) := ord2ymd (r + 1) in (y + 400 * k, m, d).
Proof.
  intros Hr. unfold ord2ymd. cbv zeta.
  replace (146097 * k + r + 1 - 1) with (r + k * 146097) by lia.
  replace (r + 1 - 1) with r by lia.
  change DI400Y with 146097.
  rewrite Z.div_add, Z.mod_add by lia.
  rewrite (Z.div_small r 146097), (Z.mod_small r 146097) by lia.
  destruct ((r mod DI100Y mod DI4Y / 365 =? 4) || (r / DI100Y =? 4)).
  - f_equal. f_equal. lia.
  - destruct (_ <? _); f_equal; f_equal; lia.
Qed.

(** The date of a day from 1970 to 2099. *)
Lemma date_of_day (n : Z) :
  719162 <= n < 766644 ->
  exists y m d,
    ord2ymd (n + 1) = (y, m, d)
    /\ 1 <= y <= 9999 /\ 1 <= m <= 12 /\ 1 <= d <= days_in_month y m
    /\ ymd2ord y m d = n + 1.
Proof.
  intros Hn.
  pose proof (Z.div_mod n 146097 ltac:(lia)) as Hdm.
  pose proof (Z.mod_pos_bound n 146097 ltac:(lia)) as Hr.
  assert (Hk : 4 <= n / 146097 <= 5).
  { split; [apply Z.div_le_lower_bound; lia |].
    apply Z.lt_succ_r, Z.div_lt_upper_bound; lia. }
  destruct (date_of_cycle (n mod 146097)) as (y & m & d & E & Hy & Hm & Hd & Hord);
    [lia |].
  exists (y + 400 * (n / 146097)), m, d.
  split; [| split; [lia | split; [exact Hm | split]]].
  - rewrite Hdm at 1. rewrite ord2ymd_shift by exact Hr. rewrite E. reflexivity.
  - rewrite days_in_month_shift. exact Hd.
  - rewrite ymd2ord_shift, Hord. lia.
Qed.

(** The time of the day, put together again. *)
Lemma time_of_day (t : datetime) :
  0 <= t ->
  0 <= hour_of t <= 23 /\ 0 <= minute_of t <= 59 /\ 0 <= second_of t <= 59
  /\ (((t / us_per_day * 24 + hour_of t) * 60 + minute_of t) * 60 * us_per_second
      + second_of t * us_per_second
      = t - t mod us_per_second).
Proof.
  intros Ht. unfold hour_of, minute_of, second_of, us_per_day, us_per_second.
  Z.div_mod_to_equations. lia.
Qed.

Lemma match_seq_app (classes : list (ascii -> bool)) :
  forall (a rest : string),
    (length classes <= String.length a)%nat ->
    match_seq classes (a ++ rest)
    = (match_seq classes a ≫= fun '(t, r) => Some (t, r ++ rest)).
Proof.
  induction classes as [| class classes IH]; intros a rest Hlen; [reflexivity |].
  destruct a as [| c a]; [cbn in Hlen; lia |].
  change (String c a ++ rest) with (String c (a ++ rest)). cbn [match_seq].
  destruct (class c); [| reflexivity].
  rewrite IH by (cbn in Hlen; lia).
  destruct (match_seq classes a) as [[t r] |]; reflexivity.
Qed.

Lemma group_app (alts : list (list (ascii -> bool))) (a rest : string) :
  Forall (fun classes => (length classes <= String.length a)%nat) alts ->
  group alts (a ++ rest) = map (fun '(t, r) => (t, r ++ rest)) (group alts a).
Proof.
  unfold group. induction 1 as [| classes alts Hlen _ IH]; [reflexivity |].
  cbn [omap list_omap]. rewrite (match_seq_app _ _ _ Hlen).
  fold (omap (fun classes => match_seq classes (a ++ rest)) alts).
  fold (omap (fun classes => match_seq classes a) alts).
  rewrite IH.
  destruct (match_seq classes a) as [[t r] |]; reflexivity.
Qed.

(** A field of [strftime] under the group of its directive. *)
Lemma field_read (alts : list (list (ascii -> bool))) (width count : nat) (lo n : Z)
    (rest : string) :
  all_from count lo (field_ok alts width) = true ->
  Forall (fun classes => (length classes <= width)%nat) alts ->
  lo <= n < lo + Z.of_nat count ->
  int_of_str (pad width n) = Some n
  /\ exists more, group alts (pad width n ++ rest) = (pad width n, rest) :: more.
Proof.
  intros Hall Halts Hn.
  pose proof (all_from_spec (field_ok alts width) _ lo Hall n Hn) as H.
  unfold field_ok in H.
  destruct (group alts (pad width n)) as [| [t [| c r]] more] eqn:E; try discriminate.
  apply andb_true_iff in H as [H Hlen]. apply andb_true_iff in H as [Ht Hint].
  apply String.eqb_eq in Ht. subst t. apply Nat.eqb_eq in Hlen.
  split.
  - destruct (int_of_str (pad width n)) as [v |]; [| discriminate].
    apply Z.eqb_eq in Hint. congruence.
  - rewrite group_app, E by (rewrite Hlen; exact Halts).
    cbn [map]. eauto.
Qed.

(** The whole of a string is matched, with these texts for the groups. *)
Definition reads (items : list item) (s : string) (ts : list string) : Prop :=
  exists more, matches items s = (ts, EmptyString) :: more.

Lemma reads_nil : reads [] EmptyString [].
Proof. exists []. reflexivity. Qed.

Lemma reads_lit (c : ascii) (items : list item) (s : string) (ts : list string) :
  reads items s ts -> reads (Lit c :: items) (String c EmptyString ++ s) ts.
Proof.
  intros H. unfold reads.
  change (String c EmptyString ++ s) with (String c s). cbn [matches].
  rewrite Ascii.eqb_refl. exact H.
Qed.

Lemma reads_group (alts : list (list (ascii -> bool))) (items : list item)
    (a s : string) (ts : list string) :
  (exists more, group alts (a ++ s) = (a, s) :: more) ->
  reads items s ts ->
  reads (Group alts :: items) (a ++ s) (a :: ts).
Proof.
  intros [more Hg] [more' Hm]. unfold reads. cbn [matches].
  rewrite Hg. cbn [mbind list_bind]. rewrite Hm. cbn [mbind list_bind app].
  eauto.
Qed.

Lemma year_ok : all_from (Z.to_nat 9999) 1 (field_ok [[digit; digit; digit; digit]] 4) = true.
Proof. vm_compute. reflexivity. Qed.

Lemma month_ok :
  all_from 12 1
    (field_ok [[only "1"; between "0" "2"]; [only "0"; between "1" "9"];
               [between "1" "9"]] 2) = true.
Proof. vm_compute. reflexivity. Qed.

Lemma day_ok :
  all_from 31 1
    (field_ok [[only "3"; between "0" "1"]; [between "1" "2"; digit];
               [only "0"; between "1" "9"]; [between "1" "9"];
               [only " "; between "1" "9"]] 2) = true.
Proof. vm_compute. reflexivity. Qed.

Lemma hour_ok :
  all_from 24 0
    (field_ok [[only "2"; between "0" "3"]; [between "0" "1"; digit]; [digit]] 2) = true.
Proof. vm_compute. reflexivity. Qed.

Lemma minute_ok : all_from 60 0 (field_ok [[between "0" "5"; digit]; [digit]] 2) = true.
Proof. vm_compute. reflexivity. Qed.

Lemma second_ok :
  all_from 60 0
    (field_ok [[only "6"; between "0" "1"]; [between "0" "5"; digit]; [digit]] 2) = true.
Proof. vm_compute. reflexivity. Qed.

Ltac short_alts := repeat constructor; cbn [length]; lia.

(** X27. The time of the report reads back: for a run from 1970 to 2099,
    what [strftime] writes under [updated_at] is a text that [strptime]
    reads, with the format [get_contributors] uses for the times of
    GitHub, as the same time, to the second. *)
Theorem updated_at_reads_back (run_time : datetime) :
  make 1970 1 1 0 0 0 <= run_time < make 2100 1 1 0 0 0 ->
  strptime (strftime_iso run_time) = Some (run_time - run_time mod us_per_second).
Proof.
  intros [Hlo Hhi].
  change (make 1970 1 1 0 0 0) with (719162 * us_per_day) in Hlo.
  change (make 2100 1 1 0 0 0) with (766644 * us_per_day) in Hhi.
  assert (Hus : us_per_day = 86400000000) by reflexivity.
  assert (Ht : 0 <= run_time) by lia.
  assert (Hday : 719162 <= run_time / us_per_day < 766644).
  { split.
    - apply Z.div_le_lower_bound; lia.
    - apply Z.div_lt_upper_bound; lia. }
  clear Hus.
  destruct (date_of_day _ Hday) as (y & m & d & E & Hy & Hm & Hd & Hord).
  destruct (time_of_day run_time Ht) as (Hh & Hmi & Hs & Hmake).
  assert (Hdays : days_in_month y m <= 31).
  { unfold days_in_month.
    assert (H : m = 1 \/ m = 2 \/ m = 3 \/ m = 4 \/ m = 5 \/ m = 6 \/ m = 7 \/ m = 8
                \/ m = 9 \/ m = 10 \/ m = 11 \/ m = 12) by lia.
    repeat destruct H as [H | H]; subst m; destruct (is_leap y); vm_compute;
      discriminate. }
  unfold strftime_iso, date_of. rewrite E.
  change (pad 2 (second_of run_time) ++ "Z")
    with (pad 2 (second_of run_time) ++ "Z" ++ EmptyString).
  destruct (field_read _ 4 _ 1 y
              ("-" ++ pad 2 m ++ "-" ++ pad 2 d ++ "T" ++ pad 2 (hour_of run_time)
                 ++ ":" ++ pad 2 (minute_of run_time) ++ ":"
                 ++ pad 2 (second_of run_time) ++ "Z" ++ EmptyString)
              year_ok ltac:(short_alts) ltac:(lia)) as [Iy Gy].
  destruct (field_read _ 2 _ 1 m
              ("-" ++ pad 2 d ++ "T" ++ pad 2 (hour_of run_time)
                 ++ ":" ++ pad 2 (minute_of run_time) ++ ":"
                 ++ pad 2 (second_of run_time) ++ "Z" ++ EmptyString)
              month_ok ltac:(short_alts) ltac:(lia)) as [Im Gm].
  destruct (field_read _ 2 _ 1 d
              ("T" ++ pad 2 (hour_of run_time)
                 ++ ":" ++ pad 2 (minute_of run_time) ++ ":"
                 ++ pad 2 (second_of run_time) ++ "Z" ++ EmptyString)
              day_ok ltac:(short_alts) ltac:(lia)) as [Id Gd].
  destruct (field_read _ 2 _ 0 (hour_of run_time)
              (":" ++ pad 2 (minute_of run_time) ++ ":"
                 ++ pad 2 (second_of run_time) ++ "Z" ++ EmptyString)
              hour_ok ltac:(short_alts) ltac:(lia)) as [Ih Gh].
  destruct (field_read _ 2 _ 0 (minute_of run_time)
              (":" ++ pad 2 (second_of run_time) ++ "Z" ++ EmptyString)
              minute_ok ltac:(short_alts) ltac:(lia)) as [Imi Gmi].
  destruct (field_read _ 2 _ 0 (second_of run_time) ("Z" ++ EmptyString)
              second_ok ltac:(short_alts) ltac:(lia)) as [Is Gs].
  assert (Hreads : reads format_regex
                     (pad 4 y ++ "-" ++ pad 2 m ++ "-" ++ pad 2 d ++ "T"
                        ++ pad 2 (hour_of run_time) ++ ":"
                        ++ pad 2 (minute_of run_time) ++ ":"
                        ++ pad 2 (second_of run_time) ++ "Z" ++ EmptyString)
                     [pad 4 y; pad 2 m; pad 2 d; pad 2 (hour_of run_time);
                      pad 2 (minute_of run_time); pad 2 (second_of run_time)]).
  { unfold format_regex. cbv zeta.
    apply reads_group; [exact Gy |]. apply reads_lit.
    apply reads_group; [exact Gm |]. apply reads_lit.
    apply reads_group; [exact Gd |]. apply reads_lit.
    apply reads_group; [exact Gh |]. apply reads_lit.
    apply reads_group; [exact Gmi |]. apply reads_lit.
    apply reads_group; [exact Gs |]. apply reads_lit.
    apply reads_nil. }
  destruct Hreads as [more Hreads].
  unfold strptime. rewrite Hreads. cbv iota beta.
  rewrite Iy, Im, Id, Ih, Imi, Is. cbn [mbind option_bind].
  replace ((1 <=? y) && (1 <=? m) && (m <=? 12) && (1 <=? d)
           && (d <=? days_in_month y m) && (hour_of run_time <=? 23)
           && (minute_of run_time <=? 59) && (second_of run_time <=? 59))
    with true.
  - f_equal. unfold make. rewrite Hord, <- Hmake. f_equal. f_equal. lia.
  - symmetry. repeat (apply andb_true_iff; split); apply Z.leb_le; lia.
Qed.

End Timestamp.

(** ** A scheduled run, from end to end *)

Section Scheduled.

Variable BUNDLE_IGNORE_LIST : list string.
Variable ERROR_OUTPUT_HANDLER : string.
Variable is_new_or_updated : Repo -> M (option string).
Variable run_repo_validation : Repo -> M (list error_signal).

Local Abbreviation report :=
  (UpdateCpOrgLibraries.report BUNDLE_IGNORE_LIST ERROR_OUTPUT_HANDLER
     is_new_or_updated run_repo_validation).
Local Abbreviation main :=
  (UpdateCpOrgLibraries.main BUNDLE_IGNORE_LIST ERROR_OUTPUT_HANDLER
     is_new_or_updated run_repo_validation).

Lemma written_reads (evs : list event) : Forall reads_only evs -> written evs = [].
Proof.
  induction 1 as [| e evs He _ IH]; [reflexivity |].
  destruct e as [v u t k s | n]; [destruct v; try contradiction |]; exact IH.
Qed.

(** X28. A run under TRAVIS that returns has published the report it
    returns: as long as the classifier and the validator of [adabot.lib]
    only read and leave the environment alone, what the run has written
    are the three writes of one publication, made after the report was
    complete, and the file that was put is the text the run returns,
    which is the report document as [json.dumps] prints it. *)
Theorem a_scheduled_run_publishes_its_report
    (run_time : datetime) (repos : list Repo) (w w' : World) (json_obj : string) :
  (forall repo, adds reads_only (is_new_or_updated repo)) ->
  (forall repo, adds reads_only (run_repo_validation repo)) ->
  (forall repo, keeps_environ (is_new_or_updated repo)) ->
  (forall repo, keeps_environ (run_repo_validation repo)) ->
  dict_has "TRAVIS" (environ w) = true ->
  main run_time repos w = (Ret json_obj, w') ->
  exists (doc : json) (w1 : World) (commit_sha : string) (blob_sha : json),
    report run_time repos w = (Ret doc, w1)
    /\ json_obj = dumps doc
    /\ written (trace w1) = written (trace w)
    /\ written (trace w')
       = (written (trace w)
          ++ [(POST, _fix_url (fork_url ++ "git/refs"),
               Some (branch_info_of (clock (tick w1)) commit_sha));
              (PUT, _fix_url (fork_url ++ "contents/_data/libraries.json"),
               Some (update_json_of (clock (tick w1)) blob_sha json_obj));
              (POST, _fix_url (master_url ++ "pulls"),
               Some (pr_info_of (clock (tick w1))))])%list.
Proof.
  intros Hclass Hval Kclass Kval Htravis H.
  unfold UpdateCpOrgLibraries.main in H.
  apply bind_inv in H as (doc & w1 & Hreport & H). cbv zeta in H.
  pose proof (keeps_report BUNDLE_IGNORE_LIST ERROR_OUTPUT_HANDLER is_new_or_updated
                run_repo_validation run_time repos Kclass Kval w) as Henv.
  destruct (adds_report BUNDLE_IGNORE_LIST ERROR_OUTPUT_HANDLER is_new_or_updated
              run_repo_validation run_time repos Hclass Hval w) as (evs & Htr & Hall).
  rewrite Hreport in Henv, Htr. cbn [snd] in Henv, Htr.
  assert (Hread : written (trace w1) = written (trace w)).
  { rewrite Htr, written_app, (written_reads _ Hall). apply app_nil_r. }
  rewrite bind_run in H. unfold in_environ at 1 in H. rewrite Henv, Htravis in H.
  apply bind_inv in H as ([] & w2 & Hpub & H). returned H.
  destruct (update_json_file_run _ _ _ Hpub)
    as (commit_sha & blob_sha & w3 & _ & _ & Hw).
  exists doc, w1, commit_sha, blob_sha.
  split; [exact Hreport | split; [reflexivity | split; [exact Hread |]]].
  rewrite Hw, Hread. reflexivity.
Qed.

End Scheduled.


Lemma updated_at_reads_back_witness :
  strptime (strftime_iso Scenario.june_3)
  = Some (Scenario.june_3 - Scenario.june_3 mod us_per_second).
Proof.
  apply (updated_at_reads_back Scenario.june_3).
  vm_compute. split; [discriminate | reflexivity].
Defined.

Lemma a_scheduled_run_publishes_its_report_witness :
  exists doc w1,
    report Scenario.ignore Scenario.handler Scenario.classifier Scenario.validator
      Scenario.june_3 [Scenario.library] world_travis_run = (Ret doc, w1)
    /\ fst (main Scenario.ignore Scenario.handler Scenario.classifier Scenario.validator
              Scenario.june_3 [Scenario.library] world_travis_run)
       = Ret (dumps doc).
Proof.
  destruct (a_scheduled_run_publishes_its_report Scenario.ignore Scenario.handler
              Scenario.classifier Scenario.validator Scenario.june_3
              [Scenario.library] world_travis_run
              (snd (main Scenario.ignore Scenario.handler Scenario.classifier
                      Scenario.validator Scenario.june_3 [Scenario.library]
                      world_travis_run))
              (dumps (build_json Scenario.june_3
                        (Scenario.totals_of
                           (aggregate Scenario.ignore Scenario.handler
                              Scenario.classifier Scenario.validator
                              [Scenario.library] world_travis_run)))))
    as (doc & w1 & _ & _ & Hreport & Hdoc & _);
    try (intros repo; first [apply adds_ret | apply keeps_ret]);
    try (vm_compute; reflexivity).
  exists doc, w1. split; [exact Hreport |].
  rewrite <- Hdoc. vm_compute. reflexivity.
Defined.

(** ** The decimal rendering *)

Section Decimal.

(** The digits of ten times a number and a digit more. *)
Lemma to_lu_units (q r : N) :
  (0 < q)%N -> (r < 10)%N ->
  Unsigned.to_lu (r + 10 * q)
  = match r with
    | 0 => Decimal.D0 | 1 => Decimal.D1 | 2 => Decimal.D2 | 3 => Decimal.D3
    | 4 => Decimal.D4 | 5 => Decimal.D5 | 6 => Decimal.D6 | 7 => Decimal.D7
    | 8 => Decimal.D8 | _ => Decimal.D9
    end%N (Unsigned.to_lu q).
Proof.
  intros Hq Hr. destruct q as [| p]; [lia |].
  assert (H : (r = 0 \/ r = 1 \/ r = 2 \/ r = 3 \/ r = 4 \/ r = 5 \/ r = 6 \/ r = 7
               \/ r = 8 \/ r = 9)%N) by lia.
  pose proof (Unsigned.to_ldec_tenfold p) as H10.
  repeat destruct H as [H | H]; subst r.
  - rewrite N.add_0_l. exact H10.
  - replace (1 + 10 * N.pos p)%N with (N.succ (10 * N.pos p)) by lia.
    rewrite !Unsigned.to_lu_succ, H10. reflexivity.
  - replace (2 + 10 * N.pos p)%N with (N.succ (N.succ (10 * N.pos p))) by lia.
    rewrite !Unsigned.to_lu_succ, H10. reflexivity.
  - replace (3 + 10 * N.pos p)%N with (N.succ (N.succ (N.succ (10 * N.pos p)))) by lia.
    rewrite !Unsigned.to_lu_succ, H10. reflexivity.
  - replace (4 + 10 * N.pos p)%N
      with (N.succ (N.succ (N.succ (N.succ (10 * N.pos p))))) by lia.
    rewrite !Unsigned.to_lu_succ, H10. reflexivity.
  - replace (5 + 10 * N.pos p)%N
      with (N.succ (N.succ (N.succ (N.succ (N.succ (10 * N.pos p)))))) by lia.
    rewrite !Unsigned.to_lu_succ, H10. reflexivity.
  - replace (6 + 10 * N.pos p)%N
      with (N.succ (N.succ (N.succ (N.succ (N.succ (N.succ (10 * N.pos p)))))))
      by lia.
    rewrite !Unsigned.to_lu_succ, H10. reflexivity.
  - replace (7 + 10 * N.pos p)%N
      with (N.succ (N.succ (N.succ (N.succ (N.succ (N.succ
              (N.succ (10 * N.pos p)))))))) by lia.
    rewrite !Unsigned.to_lu_succ, H10. reflexivity.
  - replace (8 + 10 * N.pos p)%N
      with (N.succ (N.succ (N.succ (N.succ (N.succ (N.succ
              (N.succ (N.succ (10 * N.pos p))))))))) by lia.
    rewrite !Unsigned.to_lu_succ, H10. reflexivity.
  - replace (9 + 10 * N.pos p)%N
      with (N.succ (N.succ (N.succ (N.succ (N.succ (N.succ
              (N.succ (N.succ (N.succ (10 * N.pos p)))))))))) by lia.
    rewrite !Unsigned.to_lu_succ, H10. reflexivity.
Qed.

(** The digits that the divisions by ten give are those of the standard
    conversion. *)
Lemma digits_of_to_lu (fuel : nat) :
  forall (n : N) (acc : Decimal.uint),
    (0 < n)%N -> (N.to_nat n < fuel)%nat ->
    digits_of fuel n (NilEmpty.string_of_uint acc)
    = NilEmpty.string_of_uint (Decimal.revapp (Unsigned.to_lu n) acc).
Proof.
  induction fuel as [| k IH]; intros n acc Hn Hfuel; [lia |].
  cbn [digits_of]. cbv zeta.
  pose proof (N.div_mod n 10 ltac:(lia)) as Hdm.
  pose proof (N.mod_lt n 10 ltac:(lia)) as Hr.
  remember (n / 10)%N as q eqn:Eq. remember (n mod 10)%N as r eqn:Er.
  assert (H : (r = 0 \/ r = 1 \/ r = 2 \/ r = 3 \/ r = 4 \/ r = 5 \/ r = 6 \/ r = 7
               \/ r = 8 \/ r = 9)%N) by lia.
  destruct (N.eqb_spec q 0) as [Hq | Hq].
  - assert (Hnr : n = r) by lia. rewrite Hnr. clear - H Hn Hnr.
    repeat destruct H as [H | H]; subst r; try lia; reflexivity.
  - assert (Hlu : Unsigned.to_lu n
                  = match r with
                    | 0 => Decimal.D0 | 1 => Decimal.D1 | 2 => Decimal.D2
                    | 3 => Decimal.D3 | 4 => Decimal.D4 | 5 => Decimal.D5
                    | 6 => Decimal.D6 | 7 => Decimal.D7 | 8 => Decimal.D8
                    | _ => Decimal.D9
                    end%N (Unsigned.to_lu q)).
    { rewrite Hdm at 1. rewrite N.add_comm. apply to_lu_units; lia. }
    rewrite Hlu.
    assert (Hk : (N.to_nat q < k)%nat) by lia.
    repeat destruct H as [H | H]; rewrite H;
      match goal with
      | |- digits_of k q (String ?c (NilEmpty.string_of_uint acc)) = _ =>
          first
            [ change (String c (NilEmpty.string_of_uint acc))
                with (NilEmpty.string_of_uint (Decimal.D0 acc))
            | change (String c (NilEmpty.string_of_uint acc))
                with (NilEmpty.string_of_uint (Decimal.D1 acc))
            | change (String c (NilEmpty.string_of_uint acc))
                with (NilEmpty.string_of_uint (Decimal.D2 acc))
            | change (String c (NilEmpty.string_of_uint acc))
                with (NilEmpty.string_of_uint (Decimal.D3 acc))
            | change (String c (NilEmpty.string_of_uint acc))
                with (NilEmpty.string_of_uint (Decimal.D4 acc))
            | change (String c (NilEmpty.string_of_uint acc))
                with (NilEmpty.string_of_uint (Decimal.D5 acc))
            | change (String c (NilEmpty.string_of_uint acc))
                with (NilEmpty.string_of_uint (Decimal.D6 acc))
            | change (String c (NilEmpty.string_of_uint acc))
                with (NilEmpty.string_of_uint (Decimal.D7 acc))
            | change (String c (NilEmpty.string_of_uint acc))
                with (NilEmpty.string_of_uint (Decimal.D8 acc))
            | change (String c (NilEmpty.string_of_uint acc))
                with (NilEmpty.string_of_uint (Decimal.D9 acc)) ]
      end;
      rewrite (IH q _ ltac:(lia) Hk); reflexivity.
Qed.

Lemma digits_of_pos (p : positive) :
  digits_of (S (N.to_nat (N.pos p))) (N.pos p) EmptyString
  = NilEmpty.string_of_uint (Pos.to_uint p).
Proof.
  change EmptyString with (NilEmpty.string_of_uint Decimal.Nil).
  rewrite digits_of_to_lu by lia. reflexivity.
Qed.

(** [str] of an [int] is its decimal rendering. *)
Lemma str_of_int_decimal (n : Z) : str_of_int n = decimal n.
Proof.
  unfold str_of_int, decimal. cbv zeta.
  destruct n as [| p | p].
  - reflexivity.
  - change (Z.pos p <? 0) with false. cbv iota.
    change (Z.abs_N (Z.pos p)) with (N.pos p). rewrite digits_of_pos.
    cbn [Z.to_int NilZero.string_of_int NilZero.string_of_uint].
    pose proof (Unsigned.to_uint_nonnil p) as Hnil.
    destruct (Pos.to_uint p); [contradiction | reflexivity ..].
  - change (Z.neg p <? 0) with true. cbv iota.
    change (Z.abs_N (Z.neg p)) with (N.pos p). rewrite digits_of_pos.
    cbn [Z.to_int NilZero.string_of_int NilZero.string_of_uint].
    pose proof (Unsigned.to_uint_nonnil p) as Hnil.
    destruct (Pos.to_uint p); [contradiction | reflexivity ..].
Qed.

End Decimal.

(** ** The signals of the validator in the ledger *)

Section Signals.

Variable BUNDLE_IGNORE_LIST : list string.
Variable ERROR_OUTPUT_HANDLER : string.
Variable is_new_or_updated : Repo -> M (option string).
Variable run_repo_validation : Repo -> M (list error_signal).

Local Abbreviation skipped := (UpdateCpOrgLibraries.skipped BUNDLE_IGNORE_LIST).
Local Abbreviation visit :=
  (UpdateCpOrgLibraries.visit BUNDLE_IGNORE_LIST ERROR_OUTPUT_HANDLER
     is_new_or_updated run_repo_validation).
Local Abbreviation aggregate :=
  (UpdateCpOrgLibraries.aggregate BUNDLE_IGNORE_LIST ERROR_OUTPUT_HANDLER
     is_new_or_updated run_repo_validation).

(** A loop that returns has returned from each of its turns. *)
Lemma for_each_split {A S} (body : A -> S -> M S) (x : A) (post : list A) :
  forall (pre : list A) (s s' : S) (w w' : World),
    for_each (pre ++ x :: post) body s w = (Ret s', w') ->
    exists s0 w0 s1 w1,
      for_each pre body s w = (Ret s0, w0)
      /\ body x s0 w0 = (Ret s1, w1)
      /\ for_each post body s1 w1 = (Ret s', w').
Proof.
  induction pre as [| y pre IH]; intros s s' w w' H.
  - cbn [app for_each] in H. apply bind_inv in H as (s1 & w1 & Hx & H).
    exists s, w, s1, w1. split; [reflexivity | split; assumption].
  - cbn [app for_each] in H. apply bind_inv in H as (sy & wy & Hy & H).
    destruct (IH _ _ _ _ H) as (s0 & w0 & s1 & w1 & Hpre & Hx & Hpost).
    exists s0, w0, s1, w1. split; [| split; assumption].
    cbn [for_each]. rewrite (bind_ret _ _ _ _ _ Hy). exact Hpre.
Qed.

(** What a turn of the loop on a repository that is not left out does to
    the ledger: it records the answer of the validator. *)
Lemma visit_records (repo : Repo) (t t' : Totals) (w w' : World) :
  visit repo t w = (Ret t', w') ->
  skipped repo = false ->
  exists errors,
    validator_answers is_new_or_updated run_repo_validation repo w errors
    /\ repos_by_error t'
       = fold_left (fun d e => dict_append (kind_of e) (note_of repo e) d) errors
           (repos_by_error t).
Proof.
  intros H Hskip. unfold UpdateCpOrgLibraries.visit in H. rewrite Hskip in H.
  apply bind_inv in H as (check_releases & wa & Hclass & H).
  apply bind_inv in H as ([check_issues check_prs] & wb & Hopen & H).
  apply bind_inv in H as ([[get_contribs get_revs] get_merge_count] & wc & Hcontrib & H).
  apply bind_inv in H as (errors & wd & Hval & H).
  apply bind_inv in H as (ledger & we & Hrec & H).
  destruct (record_errors_run ERROR_OUTPUT_HANDLER repo errors (repos_by_error t) wd)
    as [w'' Hrun].
  rewrite Hrun in Hrec. injection Hrec as <- _.
  cbv zeta in H. returned H.
  exists errors. split; [| reflexivity].
  exists check_releases, wa, (check_issues, check_prs), wb,
         (get_contribs, get_revs, get_merge_count), wc, wd.
  auto.
Qed.

(** C7. When a run returns, the signals that the validator gave in the
    turn of a repository that is not left out are in the error ledger of
    the document: a pair of an error kind and a number of days puts, under
    that kind, the URL of the repository followed by a space and
    "(N days)", N being the decimal rendering of the number; a bare error
    kind puts, under that kind, the URL alone; and the kinds of both are
    keys of the ledger. The signals are those of the call made in the
    run: the validator may answer otherwise in another world. *)
Theorem validator_signals_are_recorded
    (repos pre post : list Repo) (repo : Repo) (w w' : World) (t : Totals)
    (run_time : datetime) :
  aggregate repos w = (Ret t, w') ->
  repos = (pre ++ repo :: post)%list ->
  skipped repo = false ->
  exists t0 w0 errors,
    aggregate pre w = (Ret t0, w0)
    /\ validator_answers is_new_or_updated run_repo_validation repo w0 errors
    /\ let doc := build_json run_time t in
       let ledger := under "repo_infrastructure_errors" doc in
       (forall kind days,
           Timed kind days ∈ errors ->
           kind ∈ keys_under "repo_infrastructure_errors" doc
           /\ exists l,
                member kind ledger = inr (str_list l)
                /\ (repo_html_url repo ++ " (" ++ decimal days ++ " days)") ∈ l)
       /\ (forall kind,
             Bare kind ∈ errors ->
             kind ∈ keys_under "repo_infrastructure_errors" doc
             /\ exists l,
                  member kind ledger = inr (str_list l) /\ repo_html_url repo ∈ l).
Proof.
  intros Hrun -> Hskip. unfold UpdateCpOrgLibraries.aggregate in Hrun.
  destruct (for_each_split _ _ _ _ _ _ _ _ Hrun)
    as (t0 & w0 & t1 & w1 & Hpre & Hvisit & Hpost).
  destruct (visit_records _ _ _ _ _ Hvisit Hskip) as (errors & Hanswer & Hledger).
  exists t0, w0, errors. split; [exact Hpre | split; [exact Hanswer |]].
  intros doc ledger.
  assert (Hall : forall e, e ∈ errors ->
                   listed (kind_of e) (note_of repo e) (repos_by_error t)).
  { intros e He.
    refine (aggregate_invariant BUNDLE_IGNORE_LIST ERROR_OUTPUT_HANDLER
              is_new_or_updated run_repo_validation
              (fun t => listed (kind_of e) (note_of repo e) (repos_by_error t))
              _ _ _ _ _ _ Hpost _).
    - intros r t2 t3 w2 w3. apply visit_keeps_listed.
    - cbn beta. rewrite Hledger. apply recorded_listed, He. }
  assert (Hmember : forall k x,
             listed k x (repos_by_error t) ->
             k ∈ keys_under "repo_infrastructure_errors" doc
             /\ exists l, member k ledger = inr (str_list l) /\ x ∈ l).
  { intros k x (l & Hl & Hx).
    assert (Hget : dict_get k
                     (map (fun kv => (fst kv, str_list (snd kv)))
                        (sorted_copy (repos_by_error t)))
                   = Some (str_list l)).
    { rewrite dict_get_map_values, dict_get_sorted_copy, Hl. reflexivity. }
    split.
    - subst doc. unfold keys_under, build_json.
      cbn [member dict_get String.eqb Ascii.eqb Bool.eqb].
      unfold str_list_dict. exact (dict_get_Some_keys _ _ _ Hget).
    - exists l. split; [| exact Hx].
      subst ledger doc. unfold under, build_json.
      cbn [member dict_get String.eqb Ascii.eqb Bool.eqb].
      unfold str_list_dict. cbn [member]. rewrite Hget. reflexivity. }
  split.
  - intros kind days He. rewrite <- str_of_int_decimal.
    exact (Hmember _ _ (Hall _ He)).
  - intros kind He. exact (Hmember _ _ (Hall _ He)).
Qed.

End Signals.

Lemma validator_signals_are_recorded_witness :
  let doc :=
    build_json Scenario.june_3
      (Scenario.totals_of (Scenario.run [Scenario.library; Scenario.other_library])) in
  let ledger := under "repo_infrastructure_errors" doc in
  validator_answers Scenario.classifier Scenario.validator Scenario.library
    Scenario.world_refusing [Timed "missing_license" 5; Bare "missing_readme"]
  /\ (exists l,
        member "missing_license" ledger = inr (str_list l)
        /\ "https://github.com/adafruit/Adafruit_CircuitPython_BME280 (5 days)" ∈ l)
  /\ (exists l,
        member "missing_readme" ledger = inr (str_list l)
        /\ "https://github.com/adafruit/Adafruit_CircuitPython_BME280" ∈ l).
Proof.
  destruct (validator_signals_are_recorded Scenario.ignore Scenario.handler
              Scenario.classifier Scenario.validator
              [Scenario.library; Scenario.other_library]
              [] [Scenario.other_library] Scenario.library
              Scenario.world_refusing
              (snd (Scenario.run [Scenario.library; Scenario.other_library]))
              (Scenario.totals_of (Scenario.run [Scenario.library; Scenario.other_library]))
              Scenario.june_3)
    as (t0 & w0 & errors & Hpre & Hanswer & Htimed & Hbare).
  - vm_compute. reflexivity.
  - reflexivity.
  - reflexivity.
  - injection Hpre as <- <-.
    assert (Herrors : errors = [Timed "missing_license" 5; Bare "missing_readme"]).
    { destruct Hanswer as (c & wa & o & wb & g & wc & wd & Hc & Ho & Hg & Hv).
      injection Hc as <- <-.
      vm_compute in Ho. injection Ho as <- <-.
      vm_compute in Hg. injection Hg as <- <-.
      vm_compute in Hv. injection Hv as <- _. reflexivity. }
    subst errors. split; [exact Hanswer | split].
    + apply (Htimed "missing_license" 5). apply list_elem_of_here.
    + apply (Hbare "missing_readme"). apply list_elem_of_further, list_elem_of_here.
Defined.

(** ** The pull requests of a page, one by one *)

Section Page.

(** C3, as amended. Given a successful page of closed pull requests on
    which [get_contributors] returns: the contributors are the authors of
    the pull requests of the page whose [merged_at] is present, not null
    and not earlier than today minus seven days, in the order of the page,
    and the count is their number; the whole result is that of the loop
    run over these pull requests alone; a pull request without
    [merged_at], or with a null one, is not among them. And for each pull
    request of the page, in its turn of the loop: it adds to the
    contributors, and to the count, if and only if it is one of these,
    adding then its author and one; and it adds to the reviewers if and
    only if it is one of these and the request for its detail succeeds,
    adding then the login of who merged it before any other. *)
Theorem contributors_are_merged_in_window
    (repo : Repo) (w w1 w' : World) (result : Response) (prs : list json)
    (cs rs : list string) (n : Z) :
  github.get ("/repos/adafruit/" ++ repo_name repo ++ "/pulls")
    (params [("state", "closed"); ("sort", "updated"); ("direction", "desc")]) w
    = (Ret result, w1) ->
  ok result = true ->
  body result = Some (JArr prs) ->
  get_contributors repo w = (Ret (cs, rs, n), w') ->
  let today_minus_seven := clock (tick w1) - timedelta_days 7 in
  let merged := List.filter (merged_in_window today_minus_seven) prs in
  cs = map author_of merged
  /\ n = Z.of_nat (length merged)
  /\ for_each merged (scan_pr today_minus_seven) ([], [], 0) (tick w1)
     = (Ret (cs, rs, n), w')
  /\ (forall d : dict json,
        dict_get "merged_at" d = None \/ dict_get "merged_at" d = Some JNull ->
        merged_in_window today_minus_seven (JObj d) = false)
  /\ forall pre pr post,
       prs = (pre ++ pr :: post)%list ->
       exists cs0 rs0 n0 w0 cs1 rs1 n1 w2,
         for_each pre (scan_pr today_minus_seven) ([], [], 0) (tick w1)
         = (Ret (cs0, rs0, n0), w0)
         /\ scan_pr today_minus_seven pr (cs0, rs0, n0) w0 = (Ret (cs1, rs1, n1), w2)
         /\ for_each post (scan_pr today_minus_seven) (cs1, rs1, n1) w2
            = (Ret (cs, rs, n), w')
         /\ (cs1 <> cs0 <-> merged_in_window today_minus_seven pr = true)
         /\ (n1 <> n0 <-> merged_in_window today_minus_seven pr = true)
         /\ (rs1 <> rs0 <->
             merged_in_window today_minus_seven pr = true
             /\ exists url single_pr wd,
                  member "url" pr = inr (JStr url)
                  /\ github.get url no_kwargs w0 = (Ret single_pr, wd)
                  /\ ok single_pr = true)
         /\ (cs1 <> cs0 -> cs1 = (cs0 ++ [author_of pr])%list /\ n1 = n0 + 1)
         /\ (rs1 <> rs0 ->
             exists url single_pr wd pr_info merger more,
               member "url" pr = inr (JStr url)
               /\ github.get url no_kwargs w0 = (Ret single_pr, wd)
               /\ body single_pr = Some pr_info
               /\ has_login "merged_by" pr_info merger
               /\ rs1 = (rs0 ++ merger :: more)%list).
Proof.
  intros Hget Hok Hbody Hrun t7 merged.
  unfold get_contributors in Hrun.
  rewrite (bind_ret _ _ _ _ _ Hget), Hok in Hrun.
  rewrite bind_run in Hrun. unfold now at 1 in Hrun.
  rewrite bind_run in Hrun. unfold minus_days at 1 in Hrun. fold t7 in Hrun.
  destruct (t7 <? dt_min); [discriminate |].
  rewrite ret_run in Hrun. unfold json_of in Hrun. rewrite Hbody in Hrun.
  mrun_in Hrun.
  destruct (scan_page _ _ _ _ _ _ _ _ _ _ Hrun) as (Hcs & Hn & Hloop).
  split; [exact Hcs | split; [exact Hn | split; [exact Hloop | split]]].
  { intros d [Hd | Hd]; simpl; rewrite Hd; reflexivity. }
  intros pre pr post ->.
  destruct (for_each_split _ _ _ _ _ _ _ _ Hrun)
    as ([[cs0 rs0] n0] & w0 & [[cs1 rs1] n1] & w2 & Hpre & Hturn & Hpost).
  exists cs0, rs0, n0, w0, cs1, rs1, n1, w2.
  split; [exact Hpre | split; [exact Hturn | split; [exact Hpost |]]].
  destruct (merged_in_window t7 pr) eqn:Hwin.
  - destruct (scan_pr_keep _ _ _ _ _ _ _ _ _ _ Hturn Hwin) as [-> ->].
    destruct (scan_pr_run _ _ _ _ _ _ _ _ _ _ Hturn Hwin)
      as (url & single_pr & wd & Hurl & Hdetail & Hrest).
    split; [split; [reflexivity | intros _; apply app_cons_neq] |].
    split; [split; [reflexivity | intros _; lia] |].
    destruct (ok single_pr) eqn:Hsingle.
    + destruct Hrest as (pr_info & merger & reviews_url & pr_reviews & Hinfo & Hmerger
                         & _ & _ & Hrs).
      assert (Hmore : exists more, rs1 = (rs0 ++ merger :: more)%list).
      { destruct (ok pr_reviews).
        - destruct Hrs as (listing & reviews & _ & _ & ->). eauto.
        - exists []. exact Hrs. }
      destruct Hmore as [more ->].
      split; [split; [intros _ | intros _; apply app_cons_neq] |].
      { split; [reflexivity |]. exists url, single_pr, wd. auto. }
      split; [auto |]. intros _.
      exists url, single_pr, wd, pr_info, merger, more. auto.
    + destruct Hrest as [-> _].
      split; [split; [congruence |] |].
      { intros (_ & url' & single_pr' & wd' & Hurl' & Hdetail' & Hok').
        rewrite Hurl in Hurl'. injection Hurl' as <-.
        rewrite Hdetail in Hdetail'. injection Hdetail' as <- _. congruence. }
      split; [auto | congruence].
  - destruct (scan_pr_skip _ _ _ _ _ _ Hturn Hwin) as [Hsame _].
    injection Hsame as -> -> ->.
    repeat split; try congruence; intros H; try discriminate;
      try (destruct H; discriminate).
Qed.

End Page.

Lemma contributors_are_merged_in_window_witness :
  let today_minus_seven := Scenario.june_3 - timedelta_days 7 in
  let merged :=
    List.filter (merged_in_window today_minus_seven)
      [Scenario.merged_pr; Scenario.unmerged_pr; Scenario.old_pr] in
  ["alice"] = map author_of merged
  /\ 1 = Z.of_nat (length merged)
  /\ exists rs1 w0 w2,
       scan_pr today_minus_seven Scenario.merged_pr ([], [], 0) w0
       = (Ret (["alice"], rs1, 1), w2)
       /\ exists merger more, rs1 = merger :: more.
Proof.
  destruct (contributors_are_merged_in_window Scenario.library Scenario.world_page
              (snd (github.get
                      ("/repos/adafruit/" ++ repo_name Scenario.library ++ "/pulls")
                      Scenario.pulls_query Scenario.world_page))
              (snd (get_contributors Scenario.library Scenario.world_page))
              (mkResponse true [] EmptyString
                 (Some (JArr [Scenario.merged_pr; Scenario.unmerged_pr;
                              Scenario.old_pr])))
              [Scenario.merged_pr; Scenario.unmerged_pr; Scenario.old_pr]
              ["alice"] ["dan"; "erin"] 1)
    as (Hcs & Hn & _ & _ & Hturn); [vm_compute; reflexivity .. |].
  split; [exact Hcs | split; [exact Hn |]].
  destruct (Hturn [] Scenario.merged_pr [Scenario.unmerged_pr; Scenario.old_pr] eq_refl)
    as (cs0 & rs0 & n0 & w0 & cs1 & rs1 & n1 & w2 & Hpre & Hpr & _ & Hadds & _ & _
        & Hauthor & Hmerger).
  injection Hpre as <- <- <- <-.
  destruct Hadds as [_ Hadds]. specialize (Hadds ltac:(vm_compute; reflexivity)).
  destruct (Hauthor Hadds) as [-> ->].
  exists rs1. eexists. exists w2. split; [exact Hpr |].
  assert (Hrs : rs1 <> []).
  { intros ->. vm_compute in Hpr. discriminate. }
  destruct (Hmerger Hrs) as (_ & _ & _ & _ & merger & more & _ & _ & _ & _ & ->).
  exists merger, more. reflexivity.
Defined.

(** ** The count of the merged pull requests in the report *)

Section Count.

(** C10. In the document built from any accumulators, the count of merged
    pull requests is a string and no number: the member holds the decimal
    rendering of the accumulated integer, and in the text that
    [json.dumps] gives, the member is written as the line
    ["merged_pr_count": "N",], with that rendering between double
    quotes. *)
Theorem merged_pr_count_is_a_string (run_time : datetime) (t : Totals) :
  let doc := build_json run_time t in
  let rendering := decimal (merged_pr_count_total t) in
  member "merged_pr_count" doc = inr (JStr rendering)
  /\ (forall n, member "merged_pr_count" doc <> inr (JNum n))
  /\ exists before after,
       dumps doc
       = before ++ newline_indent 1
         ++ dquote ++ "merged_pr_count" ++ dquote ++ ": "
         ++ dquote ++ rendering ++ dquote ++ "," ++ after.
Proof.
  intros doc rendering. subst doc rendering.
  rewrite <- str_of_int_decimal.
  split; [reflexivity | split; [intros n H; discriminate |]].
  assert (Hq : quote (str_of_int (merged_pr_count_total t))
               = dquote ++ str_of_int (merged_pr_count_total t) ++ dquote).
  { unfold quote. rewrite escape_str_of_int. reflexivity. }
  unfold dumps, build_json. cbv zeta. cbn [dumps_at]. rewrite Hq. clear Hq.
  change (quote "merged_pr_count") with (dquote ++ "merged_pr_count" ++ dquote).
  generalize (str_of_int (merged_pr_count_total t)) as count.
  generalize (quote (strftime_iso run_time)) as updated_at.
  generalize (dumps_at 1 (str_list (unique (contributors t)))) as cs.
  generalize (dumps_at 1 (str_list (unique (reviewers t)))) as rs.
  generalize (dumps_at 2 (str_dict (sorted_copy (new_libs t)))) as new.
  generalize (dumps_at 2 (str_dict (sorted_copy (updated_libs t)))) as updated.
  generalize (dumps_at 1 (list_dict (sorted_copy (open_issues_by_repo t)))) as issues.
  generalize (dumps_at 1 (list_dict (sorted_copy (open_prs_by_repo t)))) as prs.
  generalize (dumps_at 1 (str_list_dict (sorted_copy (repos_by_error t)))) as errors.
  intros errors prs issues updated new rs cs updated_at count.
  exists ("{" ++ newline_indent 1 ++ quote "updated_at" ++ ": " ++ updated_at
          ++ "," ++ newline_indent 1 ++ quote "contributors" ++ ": " ++ cs
          ++ "," ++ newline_indent 1 ++ quote "reviewers" ++ ": " ++ rs ++ ",").
  eexists.
  rewrite !append_assoc. reflexivity.
Qed.

End Count.

Lemma merged_pr_count_is_a_string_witness :
  let t :=
    Scenario.totals_of
      (aggregate Scenario.ignore Scenario.handler Scenario.classifier
         Scenario.validator [Scenario.library] Cases.world_two_merges) in
  let doc := build_json Scenario.june_3 t in
  merged_pr_count_total t = 2
  /\ member "merged_pr_count" doc = inr (JStr "2")
  /\ exists before after,
       dumps doc
       = before ++ newline_indent 1
         ++ dquote ++ "merged_pr_count" ++ dquote ++ ": "
         ++ dquote ++ "2" ++ dquote ++ "," ++ after.
Proof.
  intros t doc.
  destruct (merged_pr_count_is_a_string Scenario.june_3 t) as (Hmember & _ & Htext).
  split; [vm_compute; reflexivity |].
  split; [exact Hmember | exact Htext].
Defined.
